(** * EnginiLotties: the hover-driven playback controller (LottieCard)

    A shallow embedding of the [LottieCard] class of [Hexagons/app.js].
    That source file holds three versions of the class, one after the other:

    - the _Hexagons_ file   (lines 1-437):   kinds continuous / loop /
      freeze / playOnce, a stored [boundOnEnterFrame];
    - the _intermediate_ file (lines 438-951): kinds playOnce / playAndHold /
      loop, the frame callback re-bound at every call site;
    - the _fixed_ file      (lines 952-1411): as the intermediate one, with
      the frame callback bound once in the constructor.

    A card is a JavaScript object mutated by its event handlers; here it is a
    record, and each handler is a function from the card before the call to
    the card after it.  The animation renderer (lottie) is a third-party
    library: the card only sees the handle returned by
    [lottie.loadAnimation], modelled below by [AnimationItem]. *)

From Stdlib Require Import ZArith QArith Qround Bool List Ascii String Lia.
Import ListNotations.
Local Open Scope Z_scope.

(** ** JavaScript numbers that reach the timeline

    Frame numbers inside the handlers are integers (every read of the
    renderer goes through [Math.floor]).  The only non-integer arithmetic is
    [a / b * 100] followed by [Math.min(100, Math.max(0, _))].  Quotients are
    kept exact (a rational instead of the nearest double: rounding is
    monotone and keeps 0 and 100 fixed, so it cannot move a clamped value
    across a bound), and the three non-finite results of a division are kept
    as they are in JavaScript. *)

Inductive JSNum : Type :=
| Fin (q : Q)
| PosInf
| NegInf
| NaN.

(** [a / b] for two integer operands: [x / 0] is [Infinity], [-Infinity] or
    [NaN] according to the sign of [x]. *)
Definition js_div (a b : Z) : JSNum :=
  if b =? 0 then
    if a =? 0 then NaN else if 0 <? a then PosInf else NegInf
  else Fin (inject_Z a / inject_Z b).

(** [x * 100]. *)
Definition js_times100 (x : JSNum) : JSNum :=
  match x with
  | Fin q => Fin (q * 100)
  | other => other
  end.

(** [Math.max(a, b)]: [NaN] if either argument is [NaN]. *)
Definition Math_max (a b : JSNum) : JSNum :=
  match a, b with
  | NaN, _ | _, NaN => NaN
  | PosInf, _ | _, PosInf => PosInf
  | NegInf, x | x, NegInf => x
  | Fin p, Fin q => if Qle_bool p q then Fin q else Fin p
  end.

(** [Math.min(a, b)]: [NaN] if either argument is [NaN]. *)
Definition Math_min (a b : JSNum) : JSNum :=
  match a, b with
  | NaN, _ | _, NaN => NaN
  | NegInf, _ | _, NegInf => NegInf
  | PosInf, x | x, PosInf => x
  | Fin p, Fin q => if Qle_bool p q then Fin p else Fin q
  end.

(** [(a / b) * 100], the shape of every progress computation. *)
Definition percent (a b : Z) : JSNum := js_times100 (js_div a b).

(** [Math.min(100, Math.max(0, x))]. *)
Definition clamp100 (x : JSNum) : JSNum :=
  Math_min (Fin 100) (Math_max (Fin 0) x).

(** A bar width that is a number between 0% and 100%, that is a progress
    ratio in [[0,1]]. *)
Definition inUnitRange (w : JSNum) : Prop :=
  match w with
  | Fin q => (0 <= q /\ q <= 100)%Q
  | _ => False
  end.

(** A bar that is exactly full (ratio 1). *)
Definition isFull (w : JSNum) : Prop :=
  match w with
  | Fin q => (q == 100)%Q
  | _ => False
  end.

(** ** Function objects

    [f.bind(this)] returns a new function object at every call; two results
    of [bind] are never [===], whatever they do when called.  A function
    object is identified by the serial number of the [bind] call that made
    it; a property that was never assigned reads [undefined]. *)

Inductive Callback : Type :=
| undefined
| boundFunction (serial : nat).

Definition Callback_eqb (a b : Callback) : bool :=
  match a, b with
  | undefined, undefined => true
  | boundFunction m, boundFunction n => Nat.eqb m n
  | _, _ => false
  end.

(** ** The renderer handle *)

(** Modelled from the spec: the Playback Engine (lottie) is an external
    library and no file of it is in the repository; the handle is the
    contract of section 6 of the specification (seek-and-play,
    seek-and-stop, play, pause, the paused flag, the current frame and
    total frame count, and the registration of frame callbacks).  A seek
    moves the current frame to its target; frame notifications are
    delivered as separate events. *)
Record AnimationItem : Type := {
  item_totalFrames : Q;
  item_currentFrame : Q;
  item_isPaused : bool;
  item_enterFrame : list Callback   (* callbacks registered for 'enterFrame' *)
}.

(** How the handle treats the registration of a callback that is already
    registered is not visible from the repository.  The fixed file states
    what it relies on (line 1233: "Standard JS addEventListener prevents
    duplicates automatically if ref is same"); the choice is kept as a
    parameter of the model. *)
Class EngineContract : Type := {
  ignoresRepeatedListener : bool
}.

(** The contract the comment at line 1233 describes. *)
Definition EventTargetContract : EngineContract :=
  {| ignoresRepeatedListener := true |}.

(** A handle that appends every registration to its callback array. *)
Definition AppendingContract : EngineContract :=
  {| ignoresRepeatedListener := false |}.

Definition registered (cb : Callback) (l : list Callback) : bool :=
  existsb (Callback_eqb cb) l.

Section Handle.
Context {contract : EngineContract}.

Definition item_addEnterFrame (cb : Callback) (a : AnimationItem) : AnimationItem :=
  {| item_totalFrames := item_totalFrames a;
     item_currentFrame := item_currentFrame a;
     item_isPaused := item_isPaused a;
     item_enterFrame :=
       if ignoresRepeatedListener && registered cb (item_enterFrame a)
       then item_enterFrame a
       else item_enterFrame a ++ [cb] |}.
End Handle.

(** Removal compares by identity and drops every registration of [cb]. *)
Definition item_removeEnterFrame (cb : Callback) (a : AnimationItem) : AnimationItem :=
  {| item_totalFrames := item_totalFrames a;
     item_currentFrame := item_currentFrame a;
     item_isPaused := item_isPaused a;
     item_enterFrame :=
       filter (fun x => negb (Callback_eqb cb x)) (item_enterFrame a) |}.

Definition item_seek (frame : Z) (paused : bool) (a : AnimationItem) : AnimationItem :=
  {| item_totalFrames := item_totalFrames a;
     item_currentFrame := inject_Z frame;
     item_isPaused := paused;
     item_enterFrame := item_enterFrame a |}.

Definition item_setPaused (paused : bool) (a : AnimationItem) : AnimationItem :=
  {| item_totalFrames := item_totalFrames a;
     item_currentFrame := item_currentFrame a;
     item_isPaused := paused;
     item_enterFrame := item_enterFrame a |}.

(** The renderer draws a frame: only the current frame moves. *)
Definition item_render (frame : Q) (a : AnimationItem) : AnimationItem :=
  {| item_totalFrames := item_totalFrames a;
     item_currentFrame := frame;
     item_isPaused := item_isPaused a;
     item_enterFrame := item_enterFrame a |}.

(** The renderer finishes loading: the frame count becomes known. *)
Definition item_loaded (frames : Q) (a : AnimationItem) : AnimationItem :=
  {| item_totalFrames := frames;
     item_currentFrame := item_currentFrame a;
     item_isPaused := item_isPaused a;
     item_enterFrame := item_enterFrame a |}.

(** [lottie.loadAnimation({ loop: false, autoplay: false, ... })]; with
    [autoplay] the handle starts unpaused. *)
Definition lottie_loadAnimation (autoplay : bool) : AnimationItem :=
  {| item_totalFrames := 0;
     item_currentFrame := 0;
     item_isPaused := negb autoplay;
     item_enterFrame := [] |}.

(** Calls made on the handle, in program order (a ghost trace: the handlers
    never read it). *)
Inductive EngineCall : Type :=
| CallGoToAndPlay (frame : Z)
| CallGoToAndStop (frame : Z)
| CallPlay
| CallPause
| CallAddEnterFrame (cb : Callback)
| CallRemoveEnterFrame (cb : Callback)
| CallDestroy
| CallLoadAnimation.

(** ** The timeline elements of a card ([this.ui])

    The elements are those of the card template; every one of them is taken
    to be present, so that the [if (element)] and [?.] tests of the source
    always pass. *)

Record Marker : Type := {
  marker_left : JSNum;          (* style.left, in percent *)
  marker_opacity : bool         (* style.opacity: '1' or '0' *)
}.

Record Bars : Type := {
  bar_intro : JSNum;            (* style.width, in percent *)
  bar_loop : JSNum;
  bar_outro : JSNum
}.

(** Which of the intro / loop / outro elements carry the class 'active'. *)
Record Active3 : Type := {
  active_intro : bool;
  active_loop : bool;
  active_outro : bool
}.

Record Active4 : Type := {
  active_start : bool;
  active_loopStart : bool;
  active_loopEnd : bool;
  active_end : bool
}.

Definition none3 : Active3 :=
  {| active_intro := false; active_loop := false; active_outro := false |}.
Definition none4 : Active4 :=
  {| active_start := false; active_loopStart := false;
     active_loopEnd := false; active_end := false |}.

Record Timeline : Type := {
  frameCounter : Z;             (* the n of the caption "Frame: n" *)
  playheadMarker : Marker;
  loopMarker : Marker;          (* Hexagons file only *)
  progressFull : JSNum;
  progress : Bars;
  labels : Active3;
  segments : Active3;
  frameNums : Active4
}.

Definition set_frameCounter (v : Z) (t : Timeline) : Timeline :=
  {| frameCounter := v; playheadMarker := playheadMarker t;
     loopMarker := loopMarker t; progressFull := progressFull t;
     progress := progress t; labels := labels t; segments := segments t;
     frameNums := frameNums t |}.
Definition set_playheadMarker (v : Marker) (t : Timeline) : Timeline :=
  {| frameCounter := frameCounter t; playheadMarker := v;
     loopMarker := loopMarker t; progressFull := progressFull t;
     progress := progress t; labels := labels t; segments := segments t;
     frameNums := frameNums t |}.
Definition set_loopMarker (v : Marker) (t : Timeline) : Timeline :=
  {| frameCounter := frameCounter t; playheadMarker := playheadMarker t;
     loopMarker := v; progressFull := progressFull t;
     progress := progress t; labels := labels t; segments := segments t;
     frameNums := frameNums t |}.
Definition set_progressFull (v : JSNum) (t : Timeline) : Timeline :=
  {| frameCounter := frameCounter t; playheadMarker := playheadMarker t;
     loopMarker := loopMarker t; progressFull := v;
     progress := progress t; labels := labels t; segments := segments t;
     frameNums := frameNums t |}.
Definition set_progress (v : Bars) (t : Timeline) : Timeline :=
  {| frameCounter := frameCounter t; playheadMarker := playheadMarker t;
     loopMarker := loopMarker t; progressFull := progressFull t;
     progress := v; labels := labels t; segments := segments t;
     frameNums := frameNums t |}.
(** The three [classList] updates on labels, segments and frame numbers are
    always made together. *)
Definition set_active (l s : Active3) (n : Active4) (t : Timeline) : Timeline :=
  {| frameCounter := frameCounter t; playheadMarker := playheadMarker t;
     loopMarker := loopMarker t; progressFull := progressFull t;
     progress := progress t; labels := l; segments := s; frameNums := n |}.

(** Class names on the card's wrapper element. *)
Record Wrapper : Type := {
  class_playing : bool;
  class_frozen_state : bool;
  class_light_mode : bool
}.

(** ** The card object

    One record serves the three files.  A property that a file never assigns
    is never read by the handlers of that file ([freezeFrame] and [isFrozen]
    exist in the Hexagons file only, [isLightMode] in the other two, and the
    intermediate file leaves [boundOnEnterFrame] undefined).  [isLooping] is
    assigned once, to [animationType === 'loop'], and is written here as
    that test.  [calls] and [binds] are ghost fields: the calls made on the
    renderer handle so far, and the number of [bind] calls so far. *)

Record Card : Type := {
  animationType : string;
  loopStartFrame : Z;
  loopEndFrame : Z;
  freezeFrame : Z;
  lottieAnimation : AnimationItem;
  totalFrames : Z;
  isHovering : bool;
  isFrozen : bool;
  isOutroLocked : bool;
  isLightMode : bool;
  boundOnEnterFrame : Callback;
  wrapper : Wrapper;
  ui : Timeline;
  calls : list EngineCall;
  binds : nat
}.

Definition set_lottieAnimation (v : AnimationItem) (c : Card) : Card :=
  {| animationType := animationType c; loopStartFrame := loopStartFrame c;
     loopEndFrame := loopEndFrame c; freezeFrame := freezeFrame c;
     lottieAnimation := v; totalFrames := totalFrames c;
     isHovering := isHovering c; isFrozen := isFrozen c;
     isOutroLocked := isOutroLocked c; isLightMode := isLightMode c;
     boundOnEnterFrame := boundOnEnterFrame c; wrapper := wrapper c;
     ui := ui c; calls := calls c; binds := binds c |}.
Definition set_totalFrames (v : Z) (c : Card) : Card :=
  {| animationType := animationType c; loopStartFrame := loopStartFrame c;
     loopEndFrame := loopEndFrame c; freezeFrame := freezeFrame c;
     lottieAnimation := lottieAnimation c; totalFrames := v;
     isHovering := isHovering c; isFrozen := isFrozen c;
     isOutroLocked := isOutroLocked c; isLightMode := isLightMode c;
     boundOnEnterFrame := boundOnEnterFrame c; wrapper := wrapper c;
     ui := ui c; calls := calls c; binds := binds c |}.
Definition set_isHovering (v : bool) (c : Card) : Card :=
  {| animationType := animationType c; loopStartFrame := loopStartFrame c;
     loopEndFrame := loopEndFrame c; freezeFrame := freezeFrame c;
     lottieAnimation := lottieAnimation c; totalFrames := totalFrames c;
     isHovering := v; isFrozen := isFrozen c;
     isOutroLocked := isOutroLocked c; isLightMode := isLightMode c;
     boundOnEnterFrame := boundOnEnterFrame c; wrapper := wrapper c;
     ui := ui c; calls := calls c; binds := binds c |}.
Definition set_isFrozen (v : bool) (c : Card) : Card :=
  {| animationType := animationType c; loopStartFrame := loopStartFrame c;
     loopEndFrame := loopEndFrame c; freezeFrame := freezeFrame c;
     lottieAnimation := lottieAnimation c; totalFrames := totalFrames c;
     isHovering := isHovering c; isFrozen := v;
     isOutroLocked := isOutroLocked c; isLightMode := isLightMode c;
     boundOnEnterFrame := boundOnEnterFrame c; wrapper := wrapper c;
     ui := ui c; calls := calls c; binds := binds c |}.
Definition set_isOutroLocked (v : bool) (c : Card) : Card :=
  {| animationType := animationType c; loopStartFrame := loopStartFrame c;
     loopEndFrame := loopEndFrame c; freezeFrame := freezeFrame c;
     lottieAnimation := lottieAnimation c; totalFrames := totalFrames c;
     isHovering := isHovering c; isFrozen := isFrozen c;
     isOutroLocked := v; isLightMode := isLightMode c;
     boundOnEnterFrame := boundOnEnterFrame c; wrapper := wrapper c;
     ui := ui c; calls := calls c; binds := binds c |}.
Definition set_isLightMode (v : bool) (c : Card) : Card :=
  {| animationType := animationType c; loopStartFrame := loopStartFrame c;
     loopEndFrame := loopEndFrame c; freezeFrame := freezeFrame c;
     lottieAnimation := lottieAnimation c; totalFrames := totalFrames c;
     isHovering := isHovering c; isFrozen := isFrozen c;
     isOutroLocked := isOutroLocked c; isLightMode := v;
     boundOnEnterFrame := boundOnEnterFrame c; wrapper := wrapper c;
     ui := ui c; calls := calls c; binds := binds c |}.
Definition set_wrapper (v : Wrapper) (c : Card) : Card :=
  {| animationType := animationType c; loopStartFrame := loopStartFrame c;
     loopEndFrame := loopEndFrame c; freezeFrame := freezeFrame c;
     lottieAnimation := lottieAnimation c; totalFrames := totalFrames c;
     isHovering := isHovering c; isFrozen := isFrozen c;
     isOutroLocked := isOutroLocked c; isLightMode := isLightMode c;
     boundOnEnterFrame := boundOnEnterFrame c; wrapper := v;
     ui := ui c; calls := calls c; binds := binds c |}.
Definition set_ui (v : Timeline) (c : Card) : Card :=
  {| animationType := animationType c; loopStartFrame := loopStartFrame c;
     loopEndFrame := loopEndFrame c; freezeFrame := freezeFrame c;
     lottieAnimation := lottieAnimation c; totalFrames := totalFrames c;
     isHovering := isHovering c; isFrozen := isFrozen c;
     isOutroLocked := isOutroLocked c; isLightMode := isLightMode c;
     boundOnEnterFrame := boundOnEnterFrame c; wrapper := wrapper c;
     ui := v; calls := calls c; binds := binds c |}.
Definition set_calls (v : list EngineCall) (c : Card) : Card :=
  {| animationType := animationType c; loopStartFrame := loopStartFrame c;
     loopEndFrame := loopEndFrame c; freezeFrame := freezeFrame c;
     lottieAnimation := lottieAnimation c; totalFrames := totalFrames c;
     isHovering := isHovering c; isFrozen := isFrozen c;
     isOutroLocked := isOutroLocked c; isLightMode := isLightMode c;
     boundOnEnterFrame := boundOnEnterFrame c; wrapper := wrapper c;
     ui := ui c; calls := v; binds := binds c |}.
Definition set_binds (v : nat) (c : Card) : Card :=
  {| animationType := animationType c; loopStartFrame := loopStartFrame c;
     loopEndFrame := loopEndFrame c; freezeFrame := freezeFrame c;
     lottieAnimation := lottieAnimation c; totalFrames := totalFrames c;
     isHovering := isHovering c; isFrozen := isFrozen c;
     isOutroLocked := isOutroLocked c; isLightMode := isLightMode c;
     boundOnEnterFrame := boundOnEnterFrame c; wrapper := wrapper c;
     ui := ui c; calls := calls c; binds := v |}.

Definition isLooping (c : Card) : bool := String.eqb (animationType c) "loop".

(** [Math.floor(this.lottieAnimation.currentFrame)]. *)
Definition currentFrameOf (c : Card) : Z :=
  Qfloor (item_currentFrame (lottieAnimation c)).

(** *** Calls on [this.lottieAnimation] *)

Definition called (k : EngineCall) (c : Card) : Card :=
  set_calls (calls c ++ [k]) c.

Definition lottie_goToAndPlay (frame : Z) (c : Card) : Card :=
  called (CallGoToAndPlay frame)
    (set_lottieAnimation (item_seek frame false (lottieAnimation c)) c).

Definition lottie_goToAndStop (frame : Z) (c : Card) : Card :=
  called (CallGoToAndStop frame)
    (set_lottieAnimation (item_seek frame true (lottieAnimation c)) c).

Definition lottie_play (c : Card) : Card :=
  called CallPlay
    (set_lottieAnimation (item_setPaused false (lottieAnimation c)) c).

Definition lottie_pause (c : Card) : Card :=
  called CallPause
    (set_lottieAnimation (item_setPaused true (lottieAnimation c)) c).

Definition lottie_removeEnterFrame (cb : Callback) (c : Card) : Card :=
  called (CallRemoveEnterFrame cb)
    (set_lottieAnimation (item_removeEnterFrame cb (lottieAnimation c)) c).

Definition lottie_addEnterFrame {contract : EngineContract}
    (cb : Callback) (c : Card) : Card :=
  called (CallAddEnterFrame cb)
    (set_lottieAnimation (item_addEnterFrame cb (lottieAnimation c)) c).

(** [this.onEnterFrame.bind(this)]: a new function object. *)
Definition bind_onEnterFrame (c : Card) : Callback * Card :=
  (boundFunction (binds c), set_binds (S (binds c)) c).

(** *** Small updates of the page *)

Definition onUi (f : Timeline -> Timeline) (c : Card) : Card :=
  set_ui (f (ui c)) c.

Definition wrapper_playing (v : bool) (c : Card) : Card :=
  set_wrapper {| class_playing := v;
                 class_frozen_state := class_frozen_state (wrapper c);
                 class_light_mode := class_light_mode (wrapper c) |} c.

Definition wrapper_frozen_state (v : bool) (c : Card) : Card :=
  set_wrapper {| class_playing := class_playing (wrapper c);
                 class_frozen_state := v;
                 class_light_mode := class_light_mode (wrapper c) |} c.

Definition wrapper_light_mode (v : bool) (c : Card) : Card :=
  set_wrapper {| class_playing := class_playing (wrapper c);
                 class_frozen_state := class_frozen_state (wrapper c);
                 class_light_mode := v |} c.

(** ** Configuration entries and construction *)

Record AnimationData : Type := {
  fileName : string;
  cfg_animationType : option string;
  loopFrames : option (Z * Z)     (* [startFrame, endFrame] *)
}.

(** The result of evaluating [new LottieCard(wrapper, animationData)]: the new
    object, or an exception. *)
Inductive Completion (A : Type) : Type :=
| Normal (value : A)
| Throw (message : string).
Arguments Normal {A} value.
Arguments Throw {A} message.

(** Events that reach a card. *)
Inductive Event : Type :=
| HoverStart                      (* 'mouseenter' on the animation container *)
| HoverEnd                        (* 'mouseleave' *)
| FrameAdvanced (frame : Q)       (* the renderer drew [frame]: 'enterFrame' *)
| PlaybackComplete                (* 'complete' *)
| DOMLoaded (frames : Q)          (* 'DOMLoaded', the clip has [frames] frames *)
| ThemeChange (checked : bool).   (* 'change' on the theme toggle *)

(** ** The fixed file (lines 952-1411) *)

Module Fixed.
Section Controller.
Context {contract : EngineContract}.

(** [parseAnimationProps] (1068-1079): the three properties it assigns. *)
Record Props : Type := {
  props_animationType : string;
  props_loopStartFrame : Z;
  props_loopEndFrame : Z
}.

Definition parseAnimationProps (animationData : AnimationData) : Props :=
  (* this.animationData.animationType || 'playOnce' *)
  let animationType :=
    match cfg_animationType animationData with
    | None => "playOnce"%string
    | Some s => if String.eqb s "" then "playOnce"%string else s
    end in
  let isLooping := String.eqb animationType "loop" in
  match isLooping, loopFrames animationData with
  | true, Some (first, second) =>
      {| props_animationType := animationType;
         props_loopStartFrame := first;
         props_loopEndFrame := second |}
  | _, _ =>
      {| props_animationType := animationType;
         props_loopStartFrame := 0;
         props_loopEndFrame := 0 |}
  end.

(** The constructor (1047-1066).  [boundOnEnterFrame] is the first [bind];
    [attachEventListeners] binds three more handlers and
    [loadAnimationForTheme] two, for listeners that are registered once and
    appear below as the events delivered to the card.  The wrapper element
    and the timeline elements found in it are what the caller passes in. *)
Definition LottieCard (w : Wrapper) (elements : Timeline)
    (animationData : AnimationData) : Completion Card :=
  let p := parseAnimationProps animationData in
  Normal
    {| animationType := props_animationType p;
       loopStartFrame := props_loopStartFrame p;
       loopEndFrame := props_loopEndFrame p;
       freezeFrame := 0;
       lottieAnimation := lottie_loadAnimation false;
       totalFrames := 0;
       isHovering := false;
       isFrozen := false;
       isOutroLocked := false;
       isLightMode := false;
       boundOnEnterFrame := boundFunction 0;
       wrapper := w;
       ui := elements;
       calls := [CallLoadAnimation];
       binds := 6 |}.

(** [updateTimelineUI] (1289-1344). *)
Definition updateTimelineUI (currentFrame : Z) (isPlaying : bool) (c : Card) : Card :=
  let c := onUi (set_frameCounter currentFrame) c in
  if totalFrames c =? 0 then c else
  let totalProgressPercent := percent currentFrame (totalFrames c) in
  let c := onUi (set_playheadMarker
                   {| marker_left := totalProgressPercent;
                      marker_opacity := isPlaying |}) c in
  if isLooping c then
    let introProgress := percent currentFrame (loopStartFrame c) in
    let loopProgress :=
      percent (currentFrame - loopStartFrame c)
              (loopEndFrame c - loopStartFrame c) in
    let outroProgress :=
      percent (currentFrame - loopEndFrame c)
              (totalFrames c - loopEndFrame c) in
    let c := onUi (set_progress
                     {| bar_intro := clamp100 introProgress;
                        bar_loop := clamp100 loopProgress;
                        bar_outro := clamp100 outroProgress |}) c in
    let c := onUi (set_active none3 none3 none4) c in
    if negb isPlaying then c else
    if currentFrame <? loopStartFrame c then
      onUi (set_active
              {| active_intro := true; active_loop := false; active_outro := false |}
              {| active_intro := true; active_loop := false; active_outro := false |}
              {| active_start := true; active_loopStart := false;
                 active_loopEnd := false; active_end := false |}) c
    else if (currentFrame >=? loopStartFrame c) && (currentFrame <=? loopEndFrame c) then
      onUi (set_active
              {| active_intro := false; active_loop := true; active_outro := false |}
              {| active_intro := false; active_loop := true; active_outro := false |}
              {| active_start := false; active_loopStart := true;
                 active_loopEnd := true; active_end := false |}) c
    else
      onUi (set_active
              {| active_intro := false; active_loop := false; active_outro := true |}
              {| active_intro := false; active_loop := false; active_outro := true |}
              {| active_start := false; active_loopStart := false;
                 active_loopEnd := false; active_end := true |}) c
  else
    onUi (set_progressFull totalProgressPercent) c.

(** [resetTimeline] (1278-1287). *)
Definition resetTimeline (c : Card) : Card :=
  let c :=
    if isLooping c then
      onUi (set_progress
              {| bar_intro := Fin 0; bar_loop := Fin 0; bar_outro := Fin 0 |}) c
    else
      onUi (set_progressFull (Fin 0)) c in
  updateTimelineUI 0 false c.

(** [loadAnimationForTheme] (1154-1172) on a card that already has a
    handle: the old handle is destroyed and a new one, paused at frame 0
    and with no frame callback, takes its place. *)
Definition loadAnimationForTheme (isLight : bool) (c : Card) : Card :=
  let c := called CallDestroy c in
  let c := set_lottieAnimation (lottie_loadAnimation false) c in
  let c := called CallLoadAnimation c in
  set_binds (binds c + 2) c.

(** [onDOMLoaded] (1174-1179).  [buildTimeline] writes the static layout
    of the page (segment widths and frame-number captions); no handler
    reads it back and it is left out. *)
Definition onDOMLoaded (c : Card) : Card :=
  let c := set_totalFrames (Qfloor (item_totalFrames (lottieAnimation c))) c in
  let c := lottie_goToAndStop 0 c in
  resetTimeline c.

(** [onEnterFrame] (1181-1202). *)
Definition onEnterFrame (c : Card) : Card :=
  if totalFrames c =? 0 then c else
  let currentFrame := currentFrameOf c in
  let c := updateTimelineUI currentFrame true c in
  if isLooping c then
    if isOutroLocked c then c else
    if isHovering c then
      if currentFrame >=? loopEndFrame c
      then lottie_goToAndPlay (loopStartFrame c) c
      else c
    else
      if currentFrame >=? loopStartFrame c
      then set_isOutroLocked true c
      else c
  else c.

(** [onComplete] (1204-1226). *)
Definition onComplete (c : Card) : Card :=
  let c := lottie_removeEnterFrame (boundOnEnterFrame c) c in
  if String.eqb (animationType c) "playAndHold" then
    let c := lottie_pause c in
    let c := updateTimelineUI (totalFrames c) false c in
    wrapper_playing false c
  else
    let c := set_isOutroLocked false c in
    let c := resetTimeline c in
    if isHovering c then
      let c := lottie_addEnterFrame (boundOnEnterFrame c) c in
      let c := lottie_goToAndPlay 0 c in
      updateTimelineUI 0 true c
    else
      let c := lottie_goToAndStop 0 c in
      wrapper_playing false c.

(** [onHoverStart] (1228-1247). *)
Definition onHoverStart (c : Card) : Card :=
  let c := set_isHovering true c in
  let c := wrapper_playing true c in
  let c := lottie_addEnterFrame (boundOnEnterFrame c) c in
  let currentFrame := currentFrameOf c in
  let c :=
    if item_isPaused (lottieAnimation c) then
      let c := set_isOutroLocked false c in
      let c := lottie_goToAndPlay 0 c in
      updateTimelineUI 0 true c
    else if isLooping c && isOutroLocked c && (currentFrame <=? loopEndFrame c) then
      set_isOutroLocked false c
    else c in
  lottie_play c.

(** [onHoverEnd] (1249-1263). *)
Definition onHoverEnd (c : Card) : Card :=
  let c := set_isHovering false c in
  let c :=
    if String.eqb (animationType c) "playAndHold" then
      let c := set_isOutroLocked false c in
      let c := lottie_removeEnterFrame (boundOnEnterFrame c) c in
      let c := lottie_goToAndStop 0 c in
      resetTimeline c
    else
      lottie_play c in
  wrapper_playing false c.

(** [onThemeChange] (1265-1276); the custom event it dispatches only
    restyles the section description. *)
Definition onThemeChange (checked : bool) (c : Card) : Card :=
  let c := set_isLightMode checked c in
  let c := wrapper_light_mode (isLightMode c) c in
  loadAnimationForTheme (isLightMode c) c.

(** The renderer draws [frame] and the frame callback runs once. *)
Definition deliverFrame (frame : Q) (c : Card) : Card :=
  onEnterFrame (set_lottieAnimation (item_render frame (lottieAnimation c)) c).

Definition deliverFrames (frames : list Q) (c : Card) : Card :=
  fold_left (fun c frame => deliverFrame frame c) frames c.

(** The renderer draws [frame] and triggers 'enterFrame': every registered
    callback runs, in registration order.  Every callback a card registers
    is a bound copy of its own [onEnterFrame]. *)
Definition triggerEnterFrame (frame : Q) (c : Card) : Card :=
  let c := set_lottieAnimation (item_render frame (lottieAnimation c)) c in
  fold_left (fun c _ => onEnterFrame c) (item_enterFrame (lottieAnimation c)) c.

Definition step (e : Event) (c : Card) : Card :=
  match e with
  | HoverStart => onHoverStart c
  | HoverEnd => onHoverEnd c
  | FrameAdvanced frame => triggerEnterFrame frame c
  | PlaybackComplete => onComplete c
  | DOMLoaded frames =>
      onDOMLoaded (set_lottieAnimation (item_loaded frames (lottieAnimation c)) c)
  | ThemeChange checked => onThemeChange checked c
  end.

Definition run (events : list Event) (c : Card) : Card :=
  fold_left (fun c e => step e c) events c.

(** A card as it is after construction and any sequence of events. *)
Definition reachable (c : Card) : Prop :=
  exists w elements animationData c0 events,
    LottieCard w elements animationData = Normal c0 /\ c = run events c0.
End Controller.
End Fixed.

(** ** The intermediate file (lines 438-951)

    [parseAnimationProps], [updateTimelineUI], [resetTimeline],
    [loadAnimationForTheme], [onDOMLoaded], [onEnterFrame] and
    [onThemeChange] are the same text as in the fixed file.  The constructor
    stores no bound callback, and the three handlers below pass
    [this.onEnterFrame.bind(this)] wherever the fixed file passes
    [this.boundOnEnterFrame]. *)

Module Intermediate.
Section Controller.
Context {contract : EngineContract}.

(** The constructor (523-546). *)
Definition LottieCard (w : Wrapper) (elements : Timeline)
    (animationData : AnimationData) : Completion Card :=
  let p := Fixed.parseAnimationProps animationData in
  Normal
    {| animationType := Fixed.props_animationType p;
       loopStartFrame := Fixed.props_loopStartFrame p;
       loopEndFrame := Fixed.props_loopEndFrame p;
       freezeFrame := 0;
       lottieAnimation := lottie_loadAnimation false;
       totalFrames := 0;
       isHovering := false;
       isFrozen := false;
       isOutroLocked := false;
       isLightMode := false;
       boundOnEnterFrame := undefined;
       wrapper := w;
       ui := elements;
       calls := [CallLoadAnimation];
       binds := 5 |}.

(** [onComplete] (711-735). *)
Definition onComplete (c : Card) : Card :=
  let (cb, c) := bind_onEnterFrame c in
  let c := lottie_removeEnterFrame cb c in
  if String.eqb (animationType c) "playAndHold" then
    let c := lottie_pause c in
    let c := Fixed.updateTimelineUI (totalFrames c) false c in
    wrapper_playing false c
  else
    let c := set_isOutroLocked false c in
    let c := Fixed.resetTimeline c in
    if isHovering c then
      let (cb, c) := bind_onEnterFrame c in
      let c := lottie_addEnterFrame cb c in
      let c := lottie_goToAndPlay 0 c in
      Fixed.updateTimelineUI 0 true c
    else
      let c := lottie_goToAndStop 0 c in
      wrapper_playing false c.

(** [onHoverStart] (737-755). *)
Definition onHoverStart (c : Card) : Card :=
  let c := set_isHovering true c in
  let c := wrapper_playing true c in
  let (cb, c) := bind_onEnterFrame c in
  let c := lottie_addEnterFrame cb c in
  let currentFrame := currentFrameOf c in
  let c :=
    if item_isPaused (lottieAnimation c) then
      let c := set_isOutroLocked false c in
      let c := lottie_goToAndPlay 0 c in
      Fixed.updateTimelineUI 0 true c
    else if isLooping c && isOutroLocked c && (currentFrame <=? loopEndFrame c) then
      set_isOutroLocked false c
    else c in
  lottie_play c.

(** [onHoverEnd] (757-772). *)
Definition onHoverEnd (c : Card) : Card :=
  let c := set_isHovering false c in
  let c :=
    if String.eqb (animationType c) "playAndHold" then
      let c := set_isOutroLocked false c in
      let (cb, c) := bind_onEnterFrame c in
      let c := lottie_removeEnterFrame cb c in
      let c := lottie_goToAndStop 0 c in
      Fixed.resetTimeline c
    else
      lottie_play c in
  wrapper_playing false c.

Definition step (e : Event) (c : Card) : Card :=
  match e with
  | HoverStart => onHoverStart c
  | HoverEnd => onHoverEnd c
  | FrameAdvanced frame => Fixed.triggerEnterFrame frame c
  | PlaybackComplete => onComplete c
  | DOMLoaded frames =>
      Fixed.onDOMLoaded (set_lottieAnimation (item_loaded frames (lottieAnimation c)) c)
  | ThemeChange checked => Fixed.onThemeChange checked c
  end.

Definition run (events : list Event) (c : Card) : Card :=
  fold_left (fun c e => step e c) events c.

(** A card as it is after construction and any sequence of events. *)
Definition reachable (c : Card) : Prop :=
  exists w elements animationData c0 events,
    LottieCard w elements animationData = Normal c0 /\ c = run events c0.
End Controller.
End Intermediate.

(** ** The Hexagons file (lines 1-437) *)

Module Hexagons.
Section Controller.
Context {contract : EngineContract}.

(** What [parseAnimationProps] (60-88) leaves on the card.  It reads the
    kind and the frame numbers out of the file name with regular
    expressions; the record is its result. *)
Record Props : Type := {
  props_animationType : string;
  props_loopStartFrame : Z;
  props_loopEndFrame : Z;
  props_freezeFrame : Z
}.

Definition isContinuous (c : Card) : bool :=
  String.eqb (animationType c) "continuous".

(** The constructor (39-58); [loadAnimation] (166-186) starts a continuous
    clip at once ([autoplay]). *)
Definition LottieCard (w : Wrapper) (elements : Timeline) (p : Props)
    : Completion Card :=
  let continuous := String.eqb (props_animationType p) "continuous" in
  Normal
    {| animationType := props_animationType p;
       loopStartFrame := props_loopStartFrame p;
       loopEndFrame := props_loopEndFrame p;
       freezeFrame := props_freezeFrame p;
       lottieAnimation := lottie_loadAnimation continuous;
       totalFrames := 0;
       isHovering := false;
       isFrozen := false;
       isOutroLocked := false;
       isLightMode := false;
       boundOnEnterFrame := boundFunction 0;
       wrapper := w;
       ui := elements;
       calls := [CallLoadAnimation];
       binds := if continuous then 2%nat else 5%nat |}.

(** [updateTimelineUI] (316-375): the marker is chosen by kind at each
    call. *)
Definition updateTimelineUI (currentFrame : Z) (isPlaying : bool) (c : Card) : Card :=
  let c := onUi (set_frameCounter currentFrame) c in
  if totalFrames c =? 0 then c else
  let totalProgressPercent := percent currentFrame (totalFrames c) in
  let marker := {| marker_left := totalProgressPercent;
                   marker_opacity := isPlaying |} in
  let c := if isLooping c then onUi (set_loopMarker marker) c
           else onUi (set_playheadMarker marker) c in
  if isLooping c then
    let introProgress := percent currentFrame (loopStartFrame c) in
    let loopProgress :=
      percent (currentFrame - loopStartFrame c)
              (loopEndFrame c - loopStartFrame c) in
    let outroProgress :=
      percent (currentFrame - loopEndFrame c)
              (totalFrames c - loopEndFrame c) in
    let c := onUi (set_progress
                     {| bar_intro := clamp100 introProgress;
                        bar_loop := clamp100 loopProgress;
                        bar_outro := clamp100 outroProgress |}) c in
    let c := onUi (set_active none3 none3 none4) c in
    if negb isPlaying then c else
    if currentFrame <? loopStartFrame c then
      onUi (set_active
              {| active_intro := true; active_loop := false; active_outro := false |}
              {| active_intro := true; active_loop := false; active_outro := false |}
              {| active_start := true; active_loopStart := false;
                 active_loopEnd := false; active_end := false |}) c
    else if (currentFrame >=? loopStartFrame c) && (currentFrame <=? loopEndFrame c) then
      onUi (set_active
              {| active_intro := false; active_loop := true; active_outro := false |}
              {| active_intro := false; active_loop := true; active_outro := false |}
              {| active_start := false; active_loopStart := true;
                 active_loopEnd := true; active_end := false |}) c
    else
      onUi (set_active
              {| active_intro := false; active_loop := false; active_outro := true |}
              {| active_intro := false; active_loop := false; active_outro := true |}
              {| active_start := false; active_loopStart := false;
                 active_loopEnd := false; active_end := true |}) c
  else
    onUi (set_progressFull totalProgressPercent) c.

(** [resetTimeline] (305-314). *)
Definition resetTimeline (c : Card) : Card :=
  let c :=
    if isLooping c then
      onUi (set_progress
              {| bar_intro := Fin 0; bar_loop := Fin 0; bar_outro := Fin 0 |}) c
    else
      onUi (set_progressFull (Fin 0)) c in
  updateTimelineUI 0 false c.

(** [onDOMLoaded] (188-203), without the static layout of
    [buildTimeline]. *)
Definition onDOMLoaded (c : Card) : Card :=
  let c := set_totalFrames (Qfloor (item_totalFrames (lottieAnimation c))) c in
  let c :=
    if negb (isContinuous c) then lottie_goToAndStop 0 c
    else
      let c := lottie_addEnterFrame (boundOnEnterFrame c) c in
      wrapper_playing true c in
  if negb (isContinuous c) then resetTimeline c else c.

(** [onEnterFrame] (205-239). *)
Definition onEnterFrame (c : Card) : Card :=
  if totalFrames c =? 0 then c else
  let currentFrame := currentFrameOf c in
  let c := updateTimelineUI currentFrame true c in
  if isContinuous c then c else
  if isLooping c then
    if isOutroLocked c then c else
    if isHovering c then
      if currentFrame >=? loopEndFrame c
      then lottie_goToAndPlay (loopStartFrame c) c
      else c
    else
      if currentFrame >=? loopStartFrame c
      then set_isOutroLocked true c
      else c
  else if String.eqb (animationType c) "freeze" then
    if isHovering c && negb (isFrozen c) then
      if currentFrame >=? freezeFrame c then
        let c := lottie_pause c in
        let c := set_isFrozen true c in
        wrapper_frozen_state true c
      else c
    else c
  else c.

(** [onComplete] (241-259). *)
Definition onComplete (c : Card) : Card :=
  if isContinuous c then c else
  let c := lottie_removeEnterFrame (boundOnEnterFrame c) c in
  let c := set_isOutroLocked false c in
  let c := set_isFrozen false c in
  let c := wrapper_frozen_state false c in
  let c := resetTimeline c in
  if isHovering c then
    let c := lottie_addEnterFrame (boundOnEnterFrame c) c in
    let c := lottie_goToAndPlay 0 c in
    updateTimelineUI 0 true c
  else
    let c := lottie_goToAndStop 0 c in
    wrapper_playing false c.

(** [onHoverStart] (261-284). *)
Definition onHoverStart (c : Card) : Card :=
  if isContinuous c then c else
  let c := set_isHovering true c in
  let c := wrapper_playing true c in
  let c := lottie_addEnterFrame (boundOnEnterFrame c) c in
  let currentFrame := currentFrameOf c in
  let c :=
    if item_isPaused (lottieAnimation c) then
      if String.eqb (animationType c) "freeze" && isFrozen c then c
      else
        let c := set_isOutroLocked false c in
        let c := lottie_goToAndPlay 0 c in
        updateTimelineUI 0 true c
    else if isLooping c && isOutroLocked c && (currentFrame <=? loopEndFrame c) then
      set_isOutroLocked false c
    else c in
  lottie_play c.

(** [onHoverEnd] (286-303). *)
Definition onHoverEnd (c : Card) : Card :=
  if isContinuous c then c else
  let c := set_isHovering false c in
  let c :=
    if String.eqb (animationType c) "freeze" then
      if isFrozen c then
        let c := set_isFrozen false c in
        let c := wrapper_frozen_state false c in
        lottie_play c
      else c
    else if negb (isLooping c) then lottie_play c
    else c in
  wrapper_playing false c.

(** The renderer draws [frame] and the frame callback runs once. *)
Definition deliverFrame (frame : Q) (c : Card) : Card :=
  onEnterFrame (set_lottieAnimation (item_render frame (lottieAnimation c)) c).

Definition deliverFrames (frames : list Q) (c : Card) : Card :=
  fold_left (fun c frame => deliverFrame frame c) frames c.

(** The renderer draws [frame] and triggers 'enterFrame': every registered
    callback runs. *)
Definition triggerEnterFrame (frame : Q) (c : Card) : Card :=
  let c := set_lottieAnimation (item_render frame (lottieAnimation c)) c in
  fold_left (fun c _ => onEnterFrame c) (item_enterFrame (lottieAnimation c)) c.

(** The events of the Hexagons page.  [attachEventListeners] (158-164) and
    [loadAnimation] (182-185) register the hover and 'complete' listeners
    only on a card that is not continuous; the page has no theme toggle. *)
Definition step (e : Event) (c : Card) : Card :=
  match e with
  | HoverStart => if isContinuous c then c else onHoverStart c
  | HoverEnd => if isContinuous c then c else onHoverEnd c
  | FrameAdvanced frame => triggerEnterFrame frame c
  | PlaybackComplete => if isContinuous c then c else onComplete c
  | DOMLoaded frames =>
      onDOMLoaded (set_lottieAnimation (item_loaded frames (lottieAnimation c)) c)
  | ThemeChange _ => c
  end.

Definition run (events : list Event) (c : Card) : Card :=
  fold_left (fun c e => step e c) events c.
End Controller.
End Hexagons.

(** ** Sample page elements and configuration entries

    The entries are taken from [ANIMATION_SECTIONS] of the fixed file; the
    wrapper and the timeline are those of a freshly cloned card template. *)

Definition freshWrapper : Wrapper :=
  {| class_playing := false; class_frozen_state := false;
     class_light_mode := false |}.

Definition freshTimeline : Timeline :=
  {| frameCounter := 0;
     playheadMarker := {| marker_left := Fin 0; marker_opacity := false |};
     loopMarker := {| marker_left := Fin 0; marker_opacity := false |};
     progressFull := Fin 0;
     progress := {| bar_intro := Fin 0; bar_loop := Fin 0; bar_outro := Fin 0 |};
     labels := none3; segments := none3; frameNums := none4 |}.

Definition shapesSuckIn : AnimationData :=
  {| fileName := "Loop-24-71 Shapes Suck In.json";
     cfg_animationType := Some "loop"%string;
     loopFrames := Some (24, 71) |}.

Definition buildIn : AnimationData :=
  {| fileName := "Build In.json";
     cfg_animationType := Some "playAndHold"%string;
     loopFrames := None |}.

Definition idle : AnimationData :=
  {| fileName := "Idle.json";
     cfg_animationType := Some "playOnce"%string;
     loopFrames := None |}.

(** A loop entry whose bounds are in the wrong order, one without bounds, and
    one whose loop starts at the first frame. *)
Definition reversedLoop : AnimationData :=
  {| fileName := "Loop-71-24.json";
     cfg_animationType := Some "loop"%string;
     loopFrames := Some (71, 24) |}.

Definition unboundedLoop : AnimationData :=
  {| fileName := "Loop.json";
     cfg_animationType := Some "loop"%string;
     loopFrames := None |}.

Definition loopFromStart : AnimationData :=
  {| fileName := "Loop-0-40.json";
     cfg_animationType := Some "loop"%string;
     loopFrames := Some (0, 40) |}.

(** The configuration error of the specification: a loop entry without
    bounds, with a negative bound, or with [start >= end]. *)
Definition malformedLoop (animationData : AnimationData) : bool :=
  match loopFrames animationData with
  | None => true
  | Some (first, second) => (first <? 0) || (second <? 0) || (second <=? first)
  end.

(** Whether a call on the handle is a seek, a stop or a pause: the calls
    that cut a running clip short. *)
Definition interrupts (k : EngineCall) : bool :=
  match k with
  | CallGoToAndPlay _ | CallGoToAndStop _ | CallPause | CallDestroy => true
  | _ => false
  end.

(** The callbacks passed to [addEventListener('enterFrame', _)] and
    [removeEventListener('enterFrame', _)], in call order. *)
Fixpoint frameCallbacks (l : list EngineCall) : list Callback :=
  match l with
  | [] => []
  | CallAddEnterFrame cb :: rest => cb :: frameCallbacks rest
  | CallRemoveEnterFrame cb :: rest => cb :: frameCallbacks rest
  | _ :: rest => frameCallbacks rest
  end.

(** Exactly one of three flags. *)
Definition exactlyOne (a : Active3) : Prop :=
  (active_intro a = true /\ active_loop a = false /\ active_outro a = false) \/
  (active_intro a = false /\ active_loop a = true /\ active_outro a = false) \/
  (active_intro a = false /\ active_loop a = false /\ active_outro a = true).

(** The timeline a call of [updateTimelineUI] leaves behind. *)
Definition timelineAfter (currentFrame : Z) (isPlaying : bool) (c : Card) : Timeline :=
  ui (Fixed.updateTimelineUI currentFrame isPlaying c).

(** A card with every property at its initial value, and the cards the
    constructors return for a configuration entry. *)
Definition blankCard : Card :=
  {| animationType := "playOnce"; loopStartFrame := 0; loopEndFrame := 0;
     freezeFrame := 0; lottieAnimation := lottie_loadAnimation false;
     totalFrames := 0; isHovering := false; isFrozen := false;
     isOutroLocked := false; isLightMode := false;
     boundOnEnterFrame := undefined; wrapper := freshWrapper;
     ui := freshTimeline; calls := []; binds := 0 |}.

Definition fixedCard (animationData : AnimationData) : Card :=
  match Fixed.LottieCard freshWrapper freshTimeline animationData with
  | Normal c => c
  | Throw _ => blankCard
  end.

Definition intermediateCard (animationData : AnimationData) : Card :=
  match Intermediate.LottieCard freshWrapper freshTimeline animationData with
  | Normal c => c
  | Throw _ => blankCard
  end.

(** The renderer reports that the clip of [c] is loaded, with [frames]
    frames. *)
Definition loaded (frames : Q) (c : Card) : Card :=
  Fixed.onDOMLoaded (set_lottieAnimation (item_loaded frames (lottieAnimation c)) c).


(** Cards of the fixed file after a few events, on a handle that keeps the
    contract of line 1233. *)
Definition after (events : list Event) (animationData : AnimationData) : Card :=
  @Fixed.run EventTargetContract events (fixedCard animationData).

(** A freeze card of the Hexagons file ("From Center Purple Shapes Explosion
    Freeze-29.json"), loaded with 60 frames, hovered, and played to frame
    10: the freeze frame 29 is not yet reached. *)
Definition explosionFreeze : Hexagons.Props :=
  {| Hexagons.props_animationType := "freeze";
     Hexagons.props_loopStartFrame := 0;
     Hexagons.props_loopEndFrame := 0;
     Hexagons.props_freezeFrame := 29 |}.

Definition hexagonsCard (p : Hexagons.Props) : Card :=
  match Hexagons.LottieCard freshWrapper freshTimeline p with
  | Normal c => c
  | Throw _ => blankCard
  end.

Definition freezePlaying : Card :=
  let c := hexagonsCard explosionFreeze in
  let c := @Hexagons.onDOMLoaded EventTargetContract
             (set_lottieAnimation (item_loaded 60 (lottieAnimation c)) c) in
  let c := @Hexagons.onHoverStart EventTargetContract c in
  Hexagons.deliverFrame 10 c.

(** [c'] comes after [c]: the stored callback is the same object, and every
    call made on the handle in between that registers or removes a frame
    callback passes that object. *)
Definition follows (c c' : Card) : Prop :=
  boundOnEnterFrame c' = boundOnEnterFrame c /\
  exists extra,
    calls c' = calls c ++ extra /\
    Forall (eq (boundOnEnterFrame c)) (frameCallbacks extra).

(** The callbacks registered on the handle of a card. *)
Definition subscriptions (c : Card) : list Callback :=
  item_enterFrame (lottieAnimation c).

(** Nothing is registered but, at most once, the stored callback. *)
Definition atMostCanonical (c : Card) : Prop :=
  subscriptions c = [] \/ subscriptions c = [boundOnEnterFrame c].

(** ** The static layout of the timeline: [buildTimeline]

    [buildTimeline] (1118-1146, the same text in the three files) writes the
    frame-number captions, the widths of the three segments and the
    positions of the two loop markers.  These elements are written once per
    load and never read. *)

(** [a + b] and [a - b] on the numbers of the timeline. *)
Definition js_add (a b : JSNum) : JSNum :=
  match a, b with
  | NaN, _ | _, NaN => NaN
  | PosInf, NegInf | NegInf, PosInf => NaN
  | PosInf, _ | _, PosInf => PosInf
  | NegInf, _ | _, NegInf => NegInf
  | Fin p, Fin q => Fin (p + q)
  end.

Definition js_neg (a : JSNum) : JSNum :=
  match a with
  | Fin q => Fin (- q)
  | PosInf => NegInf
  | NegInf => PosInf
  | NaN => NaN
  end.

Definition js_sub (a b : JSNum) : JSNum := js_add a (js_neg b).

Record Layout : Type := {
  caption_start : Z;            (* frameNums.start.textContent *)
  caption_loopStart : Z;
  caption_loopEnd : Z;
  caption_end : Z;
  segment_intro : JSNum;        (* segments.intro.style.width, in percent *)
  segment_loop : JSNum;
  segment_outro : JSNum;
  marker_start : JSNum;         (* markers.start.style.left *)
  marker_end : JSNum;
  caption_loopStart_left : JSNum;
  caption_loopEnd_left : JSNum
}.

Definition buildTimeline (c : Card) (page : Layout) : Layout :=
  if totalFrames c =? 0 then page else
  if isLooping c then
    let introPercent := percent (loopStartFrame c) (totalFrames c) in
    let loopPercent :=
      percent (loopEndFrame c - loopStartFrame c) (totalFrames c) in
    let outroPercent := js_sub (js_sub (Fin 100) introPercent) loopPercent in
    {| caption_start := 0;
       caption_loopStart := loopStartFrame c;
       caption_loopEnd := loopEndFrame c;
       caption_end := totalFrames c;
       segment_intro := introPercent;
       segment_loop := loopPercent;
       segment_outro := outroPercent;
       marker_start := introPercent;
       marker_end := js_add introPercent loopPercent;
       caption_loopStart_left := introPercent;
       caption_loopEnd_left := js_add introPercent loopPercent |}
  else
    {| caption_start := 0;
       caption_loopStart := caption_loopStart page;
       caption_loopEnd := caption_loopEnd page;
       caption_end := totalFrames c;
       segment_intro := segment_intro page;
       segment_loop := segment_loop page;
       segment_outro := segment_outro page;
       marker_start := marker_start page;
       marker_end := marker_end page;
       caption_loopStart_left := caption_loopStart_left page;
       caption_loopEnd_left := caption_loopEnd_left page |}.

(** ** File names: [parseAnimationProps] of the Hexagons file (60-88)

    File names are taken to be ASCII.  The two regular expressions are
    [/Loop-(\d+)-(\d+)/i] and [/Freeze-(\d+)/i]: the match is the leftmost
    one, each [\d+] takes the longest run of digits, and giving digits back
    cannot help because what must follow a run is not a digit. *)

Module FileName.

Definition isUpper (a : ascii) : bool :=
  let n := nat_of_ascii a in (65 <=? n)%nat && (n <=? 90)%nat.

Definition isDigit (a : ascii) : bool :=
  let n := nat_of_ascii a in (48 <=? n)%nat && (n <=? 57)%nat.

Definition isLetterOrDigit (a : ascii) : bool :=
  let n := nat_of_ascii a in
  isDigit a || isUpper a || ((97 <=? n)%nat && (n <=? 122)%nat).

Definition lowerChar (a : ascii) : ascii :=
  if isUpper a then ascii_of_nat (nat_of_ascii a + 32) else a.

(** [s.toLowerCase()]. *)
Fixpoint toLowerCase (s : string) : string :=
  match s with
  | EmptyString => EmptyString
  | String a rest => String (lowerChar a) (toLowerCase rest)
  end.

(** [s.startsWith(p)]. *)
Fixpoint startsWith (p s : string) : bool :=
  match p, s with
  | EmptyString, _ => true
  | String a p', String b s' => Ascii.eqb a b && startsWith p' s'
  | String _ _, EmptyString => false
  end.

(** [s.includes(sub)]. *)
Fixpoint includes (sub s : string) : bool :=
  startsWith sub s ||
  match s with
  | EmptyString => false
  | String _ rest => includes sub rest
  end.

Fixpoint drop (n : nat) (s : string) : string :=
  match n, s with
  | O, _ => s
  | S n', String _ rest => drop n' rest
  | S _, EmptyString => EmptyString
  end.

(** The longest run of digits at the head of [s], and what follows it. *)
Fixpoint spanDigits (s : string) : string * string :=
  match s with
  | String a rest =>
      if isDigit a then
        let (run, after) := spanDigits rest in (String a run, after)
      else (EmptyString, s)
  | EmptyString => (EmptyString, EmptyString)
  end.

(** [parseInt(run, 10)] on a run of digits. *)
Fixpoint parseDigits (acc : Z) (run : string) : Z :=
  match run with
  | EmptyString => acc
  | String a rest =>
      parseDigits (10 * acc + (Z.of_nat (nat_of_ascii a) - 48)) rest
  end.

Definition parseInt (run : string) : Z := parseDigits 0 run.

(** [/Loop-(\d+)-(\d+)/i] tried at the head of [s]. *)
Definition matchLoopHere (s : string) : option (Z * Z) :=
  if startsWith "loop-" (toLowerCase s) then
    match spanDigits (drop 5 s) with
    | (String a run1, String "-" after1) =>
        match spanDigits after1 with
        | (String b run2, _) =>
            Some (parseInt (String a run1), parseInt (String b run2))
        | (EmptyString, _) => None
        end
    | _ => None
    end
  else None.

(** [name.match(/Loop-(\d+)-(\d+)/i)]: the two captures, read as
    numbers. *)
Fixpoint matchLoop (s : string) : option (Z * Z) :=
  match matchLoopHere s with
  | Some r => Some r
  | None =>
      match s with
      | EmptyString => None
      | String _ rest => matchLoop rest
      end
  end.

(** [/Freeze-(\d+)/i] tried at the head of [s]. *)
Definition matchFreezeHere (s : string) : option Z :=
  if startsWith "freeze-" (toLowerCase s) then
    match spanDigits (drop 7 s) with
    | (String a run, _) => Some (parseInt (String a run))
    | (EmptyString, _) => None
    end
  else None.

Fixpoint matchFreeze (s : string) : option Z :=
  match matchFreezeHere s with
  | Some r => Some r
  | None =>
      match s with
      | EmptyString => None
      | String _ rest => matchFreeze rest
      end
  end.

(** What [parseAnimationProps] assigns; [None] is a property it leaves
    unassigned. *)
Record Parsed : Type := {
  parsed_animationType : string;
  parsed_loopFrames : option (Z * Z);
  parsed_freezeFrame : option Z
}.

Definition parseAnimationProps (animationData : AnimationData) : Parsed :=
  let override :=
    match cfg_animationType animationData with
    | Some s => if String.eqb s "" then None else Some s
    | None => None
    end in
  match override with
  | Some kind =>
      {| parsed_animationType := kind;
         parsed_loopFrames := None;
         parsed_freezeFrame := None |}
  | None =>
      let name := fileName animationData in
      if includes "loop" (toLowerCase name) then
        {| parsed_animationType := "loop";
           parsed_loopFrames :=
             Some (match matchLoop name with
                   | Some bounds => bounds
                   | None => (0, 0)
                   end);
           parsed_freezeFrame := None |}
      else if includes "freeze" (toLowerCase name) then
        {| parsed_animationType := "freeze";
           parsed_loopFrames := None;
           parsed_freezeFrame :=
             Some (match matchFreeze name with
                   | Some frame => frame
                   | None => 0
                   end) |}
      else
        {| parsed_animationType := "playOnce";
           parsed_loopFrames := None;
           parsed_freezeFrame := None |}
  end.

(** A string of digits only. *)
Fixpoint allDigits (s : string) : bool :=
  match s with
  | EmptyString => true
  | String a rest => isDigit a && allDigits rest
  end.

(** The first character of [s], if any, is not a digit. *)
Definition noLeadingDigit (s : string) : bool :=
  match s with
  | EmptyString => true
  | String a _ => negb (isDigit a)
  end.

End FileName.

(** ** The grid: what [populateGrid] derives from a configuration entry *)

Module Grid.

(** [wrapper.dataset.timelineType] in the fixed file (1398-1399). *)
Definition timelineType (animationData : AnimationData) : string :=
  match cfg_animationType animationData with
  | Some kind => if String.eqb kind "loop" then "loop" else "simple"
  | None => "simple"
  end.

(** [wrapper.dataset.timelineType] in the Hexagons file (422-429). *)
Definition hexagonsTimelineType (animationData : AnimationData) : string :=
  let timelineType :=
    if FileName.includes "loop" (FileName.toLowerCase (fileName animationData))
    then "loop"%string else "simple"%string in
  match cfg_animationType animationData with
  | Some kind => if String.eqb kind "continuous" then "simple" else timelineType
  | None => timelineType
  end.

(** [fileName.replace(/[^a-zA-Z0-9]/g, '-')], the middle part of the
    container id (1384). *)
Fixpoint sanitize (s : string) : string :=
  match s with
  | EmptyString => EmptyString
  | String a rest =>
      String (if FileName.isLetterOrDigit a then a else "-"%char) (sanitize rest)
  end.

Fixpoint idSafe (s : string) : bool :=
  match s with
  | EmptyString => true
  | String a rest =>
      (FileName.isLetterOrDigit a || Ascii.eqb a "-") && idSafe rest
  end.

End Grid.

(** ** Notions used to state what the handlers do and never do *)

(** A bar of width 0, and a position strictly inside the track. *)
Definition isEmptyBar (w : JSNum) : Prop :=
  match w with
  | Fin q => (q == 0)%Q
  | _ => False
  end.

Definition strictlyInside (w : JSNum) : Prop :=
  match w with
  | Fin q => (0 < q)%Q /\ (q < 100)%Q
  | _ => False
  end.

Definition leftOf (a b : JSNum) : Prop :=
  match a, b with
  | Fin p, Fin q => (p < q)%Q
  | _, _ => False
  end.

(** The layout elements as the page template leaves them. *)
Definition blankLayout : Layout :=
  {| caption_start := 0; caption_loopStart := 0; caption_loopEnd := 0;
     caption_end := 0;
     segment_intro := Fin 0; segment_loop := Fin 0; segment_outro := Fin 0;
     marker_start := Fin 0; marker_end := Fin 0;
     caption_loopStart_left := Fin 0; caption_loopEnd_left := Fin 0 |}.

(** The calls a card configured as [c] may make on its handle: it seeks
    only to frame 0 or, a loop card, to its loop start, and only a
    playAndHold card pauses. *)
Definition allowedCall (c : Card) (k : EngineCall) : Prop :=
  match k with
  | CallGoToAndStop frame => frame = 0
  | CallGoToAndPlay frame =>
      frame = 0 \/ (isLooping c = true /\ frame = loopStartFrame c)
  | CallPause => animationType c = "playAndHold"%string
  | _ => True
  end.

(** What the constructor assigned is still there. *)
Definition sameProps (c c' : Card) : Prop :=
  animationType c' = animationType c /\
  loopStartFrame c' = loopStartFrame c /\
  loopEndFrame c' = loopEndFrame c /\
  boundOnEnterFrame c' = boundOnEnterFrame c.

Definition advances (c c' : Card) : Prop :=
  sameProps c c' /\
  exists extra, calls c' = calls c ++ extra /\ Forall (allowedCall c) extra.

(** Every registered frame callback is the stored one. *)
Definition allBound (c : Card) : Prop :=
  Forall (eq (boundOnEnterFrame c)) (subscriptions c).

(** Every registered frame callback was bound before the [n]-th [bind]. *)
Definition freshBelow (n : nat) (l : list Callback) : Prop :=
  Forall (fun cb => exists k, cb = boundFunction k /\ (k < n)%nat) l.

Definition allFresh (c : Card) : Prop := freshBelow (binds c) (subscriptions c).

(** Counting events. *)
Fixpoint themeChanges (events : list Event) : nat :=
  match events with
  | [] => 0
  | ThemeChange _ :: rest => S (themeChanges rest)
  | _ :: rest => themeChanges rest
  end.

Fixpoint hoverStarts (events : list Event) : nat :=
  match events with
  | [] => 0
  | HoverStart :: rest => S (hoverStarts rest)
  | _ :: rest => hoverStarts rest
  end.

Fixpoint loads (events : list Event) : nat :=
  match events with
  | [] => 0
  | DOMLoaded _ :: rest => S (loads rest)
  | _ :: rest => loads rest
  end.

Fixpoint noThemeChange (events : list Event) : bool :=
  match events with
  | [] => true
  | ThemeChange _ :: _ => false
  | _ :: rest => noThemeChange rest
  end.

(** What one event of the intermediate file does to the registrations
    and to the count of [bind]s. *)
Definition grows (e : Event) (c c' : Card) : Prop :=
  match e with
  | ThemeChange _ => subscriptions c' = [] /\ binds c' = (binds c + 2)%nat
  | HoverStart =>
      subscriptions c' = subscriptions c ++ [boundFunction (binds c)] /\
      binds c' = S (binds c)
  | FrameAdvanced _ | DOMLoaded _ =>
      subscriptions c' = subscriptions c /\ binds c' = binds c
  | HoverEnd =>
      subscriptions c' = subscriptions c /\
      binds c' = if String.eqb (animationType c) "playAndHold"
                 then S (binds c) else binds c
  | PlaybackComplete =>
      if negb (String.eqb (animationType c) "playAndHold") && isHovering c
      then subscriptions c' = subscriptions c ++ [boundFunction (S (binds c))] /\
           binds c' = S (S (binds c))
      else subscriptions c' = subscriptions c /\ binds c' = S (binds c)
  end.

(** The flags and the play state of [c'] are those of [c]. *)
Definition passive (c c' : Card) : Prop :=
  animationType c' = animationType c /\
  boundOnEnterFrame c' = boundOnEnterFrame c /\
  isHovering c' = isHovering c /\
  isFrozen c' = isFrozen c /\
  isOutroLocked c' = isOutroLocked c /\
  item_isPaused (lottieAnimation c') = item_isPaused (lottieAnimation c).

Definition unfrozen (c : Card) : Prop :=
  isFrozen c = false /\ class_frozen_state (wrapper c) = false.

(** The entry gives no [animationType], or an empty one. *)
Definition noOverride (animationData : AnimationData) : Prop :=
  cfg_animationType animationData = None \/
  cfg_animationType animationData = Some ""%string.

(** Entries of the Hexagons page (lines 19-32), a playOnce card of that
    file, and a loader. *)
Definition suckInLoop : AnimationData :=
  {| fileName := "From Center Purple Shapes Suck In Loop-25-62.json";
     cfg_animationType := None;
     loopFrames := None |}.

Definition explosionFreezeEntry : AnimationData :=
  {| fileName := "From Center Purple Shapes Explosion Freeze-29.json";
     cfg_animationType := None;
     loopFrames := None |}.

Definition inwardLoader : Hexagons.Props :=
  {| Hexagons.props_animationType := "continuous";
     Hexagons.props_loopStartFrame := 0;
     Hexagons.props_loopEndFrame := 0;
     Hexagons.props_freezeFrame := 0 |}.

Definition plainClip : Hexagons.Props :=
  {| Hexagons.props_animationType := "playOnce";
     Hexagons.props_loopStartFrame := 0;
     Hexagons.props_loopEndFrame := 0;
     Hexagons.props_freezeFrame := 0 |}.

(** ** Proofs *)

(** Splits a conjunction of closed facts, leaving each to evaluation. *)
Ltac conjuncts :=
  repeat match goal with |- _ /\ _ => split end.

Lemma Callback_eqb_spec (a b : Callback) : reflect (a = b) (Callback_eqb a b).
Proof.
  destruct a as [|m], b as [|n]; simpl; try (constructor; congruence).
  destruct (Nat.eqb_spec m n); constructor; congruence.
Qed.

Lemma Callback_eqb_refl (a : Callback) : Callback_eqb a a = true.
Proof. destruct (Callback_eqb_spec a a); congruence. Qed.

(** *** The timeline functions touch nothing but [this.ui] *)

Lemma updateTimelineUI_eq f p c :
  Fixed.updateTimelineUI f p c = set_ui (timelineAfter f p c) c.
Proof.
  unfold timelineAfter, Fixed.updateTimelineUI.
  cbn.
  destruct (totalFrames c =? 0); [reflexivity|].
  destruct (isLooping c) eqn:E; cbn; unfold isLooping in *; cbn; rewrite ?E.
  2: reflexivity.
  destruct p; cbn; [|reflexivity].
  destruct (f <? loopStartFrame c); [reflexivity|].
  destruct ((f >=? loopStartFrame c) && (f <=? loopEndFrame c)); reflexivity.
Qed.

Lemma resetTimeline_eq c :
  Fixed.resetTimeline c = set_ui (ui (Fixed.resetTimeline c)) c.
Proof.
  unfold Fixed.resetTimeline.
  destruct (isLooping c); rewrite updateTimelineUI_eq; reflexivity.
Qed.

Lemma hex_updateTimelineUI_eq f p c :
  Hexagons.updateTimelineUI f p c =
  set_ui (ui (Hexagons.updateTimelineUI f p c)) c.
Proof.
  unfold Hexagons.updateTimelineUI, isLooping.
  cbn.
  destruct (totalFrames c =? 0); [reflexivity|].
  destruct (String.eqb (animationType c) "loop") eqn:E; cbn; rewrite ?E.
  2: reflexivity.
  destruct p; cbn; [|reflexivity].
  destruct (f <? loopStartFrame c); [reflexivity|].
  destruct ((f >=? loopStartFrame c) && (f <=? loopEndFrame c)); reflexivity.
Qed.

(** *** Clamping *)

Lemma clamp100_fin (q : Q) : inUnitRange (clamp100 (Fin q)).
Proof.
  unfold clamp100, Math_max, Math_min.
  destruct (Qle_bool 0 q) eqn:E0.
  - destruct (Qle_bool 100 q) eqn:E1; simpl.
    + split; [discriminate | apply Qle_refl].
    + apply Qle_bool_iff in E0. split; [exact E0|].
      destruct (Qlt_le_dec q 100) as [H|H].
      * apply Qlt_le_weak; exact H.
      * apply Qle_bool_iff in H. congruence.
  - simpl. split; [apply Qle_refl | discriminate].
Qed.

(** [Math.min(100, Math.max(0, a / b * 100))] is a number between 0 and 100
    unless the division is [0 / 0]. *)
Lemma clamp100_percent_range (a b : Z) :
  a <> 0 \/ b <> 0 -> inUnitRange (clamp100 (percent a b)).
Proof.
  intros H. unfold percent, js_div.
  destruct (Z.eqb_spec b 0) as [Hb|Hb].
  - destruct (Z.eqb_spec a 0) as [Ha|Ha]; [lia|].
    destruct (0 <? a); simpl; split; solve [discriminate | apply Qle_refl].
  - apply clamp100_fin.
Qed.

Lemma clamp100_percent_nan (a b : Z) :
  a = 0 -> b = 0 -> clamp100 (percent a b) = NaN.
Proof. intros -> ->. reflexivity. Qed.

(** The three bars of a loop timeline, as [updateTimelineUI] computes
    them. *)
Lemma loop_bars (c : Card) (f : Z) (p : bool) :
  isLooping c = true -> totalFrames c <> 0 ->
  progress (timelineAfter f p c) =
  {| bar_intro := clamp100 (percent f (loopStartFrame c));
     bar_loop := clamp100 (percent (f - loopStartFrame c)
                                   (loopEndFrame c - loopStartFrame c));
     bar_outro := clamp100 (percent (f - loopEndFrame c)
                                    (totalFrames c - loopEndFrame c)) |}.
Proof.
  intros Hloop Htf.
  unfold timelineAfter, Fixed.updateTimelineUI. cbn.
  apply Z.eqb_neq in Htf. rewrite Htf.
  unfold isLooping in *. cbn. rewrite Hloop.
  destruct p; cbn; [|reflexivity].
  destruct (f <? loopStartFrame c); [reflexivity|].
  destruct ((f >=? loopStartFrame c) && (f <=? loopEndFrame c)); reflexivity.
Qed.

(** Away from the three [0 / 0] cases every bar of a loop timeline is
    clamped to a ratio in [[0,1]]. *)
Lemma loop_bars_in_unit_range (c : Card) (f : Z) (p : bool) :
  isLooping c = true -> totalFrames c <> 0 ->
  (f <> 0 \/ loopStartFrame c <> 0) ->
  (f <> loopStartFrame c \/ loopEndFrame c <> loopStartFrame c) ->
  (f <> loopEndFrame c \/ totalFrames c <> loopEndFrame c) ->
  let bars := progress (timelineAfter f p c) in
  inUnitRange (bar_intro bars) /\ inUnitRange (bar_loop bars) /\
  inUnitRange (bar_outro bars).
Proof.
  intros Hloop Htf Hi Hl Ho bars. subst bars.
  rewrite (loop_bars c f p Hloop Htf). cbn [bar_intro bar_loop bar_outro].
  repeat split; apply clamp100_percent_range; lia.
Qed.

(** The example of the specification: one frame past the loop end, in a clip
    that ends there, the outro bar is exactly full. *)
Lemma outro_bar_full_one_past_loop_end (c : Card) (p : bool) :
  isLooping c = true -> totalFrames c <> 0 ->
  totalFrames c = loopEndFrame c + 1 ->
  isFull (bar_outro (progress (timelineAfter (loopEndFrame c + 1) p c))).
Proof.
  intros Hloop Htf Heq.
  rewrite (loop_bars c _ p Hloop Htf). cbn [bar_outro].
  rewrite Heq.
  replace (loopEndFrame c + 1 - loopEndFrame c) with 1 by lia.
  reflexivity.
Qed.

(** C8 (the code at the failing input): a loop entry whose loop starts at
    frame 0 is loaded with a clip of 100 frames.  [onDOMLoaded] resets the
    timeline at frame 0, the intro progress is [0 / 0 * 100], and the width
    written to the intro bar is [NaN], not a ratio in [[0,1]]. *)
Theorem intro_bar_is_NaN_at_frame_zero :
  let c := loaded 100 (fixedCard loopFromStart) in
  isLooping c = true /\ totalFrames c = 100 /\
  loopStartFrame c = 0 /\ loopEndFrame c = 40 /\
  bar_intro (progress (ui c)) = NaN /\
  ~ inUnitRange (bar_intro (progress (ui c))).
Proof.
  cbv zeta. repeat split; try reflexivity.
  intros H. exact H.
Qed.

(** *** The not-ready guard *)

Lemma fold_noop {A : Type} (l : list A) (f : Card -> Card) (c : Card) :
  f c = c -> fold_left (fun c _ => f c) l c = c.
Proof.
  intros H. induction l as [|x l IH]; simpl; [reflexivity|].
  rewrite H. exact IH.
Qed.

(** C7 (amended).  While [totalFrames] is 0 the frame callback returns at
    its first line: whatever frame the renderer draws and however many callbacks are
    registered, the card is left exactly as the renderer's own move of the
    current frame left it: no call on the handle, no flag changed, no
    timeline element written.  A direct call of [updateTimelineUI] writes the
    frame-counter caption and then returns at its guard: flags, handle, call
    trace, bars, markers and active classes are untouched.  The handlers are
    total functions, so no exception is raised.  The Hexagons file has the
    same two guards. *)
Theorem not_ready_frame_logic_is_noop (c : Card) :
  totalFrames c = 0 ->
  Fixed.onEnterFrame c = c /\
  (forall frame : Q,
     Fixed.triggerEnterFrame frame c =
     set_lottieAnimation (item_render frame (lottieAnimation c)) c) /\
  (forall (currentFrame : Z) (isPlaying : bool),
     Fixed.updateTimelineUI currentFrame isPlaying c =
     onUi (set_frameCounter currentFrame) c) /\
  Hexagons.onEnterFrame c = c /\
  (forall (currentFrame : Z) (isPlaying : bool),
     Hexagons.updateTimelineUI currentFrame isPlaying c =
     onUi (set_frameCounter currentFrame) c).
Proof.
  intros H.
  assert (H1 : forall d, totalFrames d = 0 -> Fixed.onEnterFrame d = d).
  { intros d Hd. unfold Fixed.onEnterFrame. rewrite Hd. reflexivity. }
  repeat split.
  - exact (H1 c H).
  - intros frame. unfold Fixed.triggerEnterFrame.
    apply fold_noop. apply H1. exact H.
  - intros f p. unfold Fixed.updateTimelineUI. cbn. rewrite H. reflexivity.
  - unfold Hexagons.onEnterFrame. rewrite H. reflexivity.
  - intros f p. unfold Hexagons.updateTimelineUI. cbn. rewrite H. reflexivity.
Qed.

Lemma not_ready_frame_logic_is_noop_witness :
  let c := after [HoverStart] shapesSuckIn in
  totalFrames c = 0 /\
  Fixed.onEnterFrame c = c /\
  (forall frame : Q,
     Fixed.triggerEnterFrame frame c =
     set_lottieAnimation (item_render frame (lottieAnimation c)) c).
Proof.
  cbv zeta.
  assert (H : totalFrames (after [HoverStart] shapesSuckIn) = 0)
    by (vm_compute; reflexivity).
  split; [exact H|].
  pose proof (not_ready_frame_logic_is_noop (after [HoverStart] shapesSuckIn) H)
    as (H1 & H2 & _).
  split; [exact H1 | exact H2].
Defined.

(** C7 (as stated, refuted).  A timeline update is not a no-op while
    [totalFrames] is 0: the caption of the frame counter is written before
    the guard (lines 1290-1292, guard at 1294).  On a card whose clip is not
    loaded, [updateTimelineUI(7, true)] moves the counter from 0 to 7. *)
Lemma timeline_update_before_load_writes_counter :
  let c := fixedCard idle in
  totalFrames c = 0 /\
  frameCounter (ui c) = 0 /\
  frameCounter (ui (Fixed.updateTimelineUI 7 true c)) = 7 /\
  Fixed.updateTimelineUI 7 true c <> c.
Proof.
  cbv zeta.
  split; [vm_compute; reflexivity|].
  split; [vm_compute; reflexivity|].
  split; [vm_compute; reflexivity|].
  intros H. apply (f_equal (fun d => frameCounter (ui d))) in H.
  vm_compute in H. discriminate H.
Qed.

(** *** Active segment *)

(** The flags [updateTimelineUI] leaves on a loop timeline. *)
Lemma loop_active_flags (c : Card) (f : Z) (p : bool) :
  isLooping c = true -> totalFrames c <> 0 ->
  let sel :=
    {| active_intro := p && (f <? loopStartFrame c);
       active_loop := p && (loopStartFrame c <=? f) && (f <=? loopEndFrame c);
       active_outro := p && (loopStartFrame c <=? f) && (loopEndFrame c <? f) |} in
  segments (timelineAfter f p c) = sel /\ labels (timelineAfter f p c) = sel.
Proof.
  intros Hloop Htf.
  unfold timelineAfter, Fixed.updateTimelineUI. cbn.
  apply Z.eqb_neq in Htf. rewrite Htf.
  unfold isLooping in *. cbn. rewrite Hloop.
  destruct p; cbn; [|split; reflexivity].
  rewrite Z.geb_leb.
  destruct (Z.ltb_spec f (loopStartFrame c)) as [H1|H1].
  - cbn. destruct (Z.leb_spec (loopStartFrame c) f); [lia|]. split; reflexivity.
  - destruct (Z.leb_spec (loopStartFrame c) f) as [H2|H2]; [|lia].
    destruct (Z.leb_spec f (loopEndFrame c)) as [H3|H3]; cbn.
    + destruct (Z.ltb_spec (loopEndFrame c) f); [lia|]. split; reflexivity.
    + destruct (Z.ltb_spec (loopEndFrame c) f); [|lia]. split; reflexivity.
Qed.

(** C9 (amended).  On a loop card whose clip is loaded ([totalFrames] not
    0), an update with [isPlaying] true marks exactly one segment, and the
    same label, active: intro when [frame < loopStart], loop when
    [loopStart <= frame <= loopEnd], outro otherwise, which for
    [loopStart <= loopEnd] is [frame > loopEnd].  An update with [isPlaying]
    false leaves none of them active. *)
Theorem active_segment_selection (c : Card) (f : Z) :
  isLooping c = true -> totalFrames c <> 0 ->
  let playing := timelineAfter f true c in
  let stopped := timelineAfter f false c in
  exactlyOne (segments playing) /\
  labels playing = segments playing /\
  active_intro (segments playing) = (f <? loopStartFrame c) /\
  active_loop (segments playing) =
    (loopStartFrame c <=? f) && (f <=? loopEndFrame c) /\
  active_outro (segments playing) =
    (loopStartFrame c <=? f) && (loopEndFrame c <? f) /\
  (loopStartFrame c <= loopEndFrame c ->
   active_outro (segments playing) = (loopEndFrame c <? f)) /\
  segments stopped = none3 /\ labels stopped = none3.
Proof.
  intros Hloop Htf playing stopped. subst playing stopped.
  destruct (loop_active_flags c f true Hloop Htf) as [Hs Hl].
  destruct (loop_active_flags c f false Hloop Htf) as [Hs' Hl'].
  rewrite Hl, Hs, Hs', Hl'. cbn.
  repeat split.
  - unfold exactlyOne. cbn.
    destruct (Z.ltb_spec f (loopStartFrame c));
      destruct (Z.leb_spec (loopStartFrame c) f); try lia;
      destruct (Z.leb_spec f (loopEndFrame c));
      destruct (Z.ltb_spec (loopEndFrame c) f); try lia; cbn; tauto.
  - intros Hle.
    destruct (Z.leb_spec (loopStartFrame c) f);
      destruct (Z.ltb_spec (loopEndFrame c) f); try lia; reflexivity.
Qed.

Lemma active_segment_selection_witness :
  let c := after [DOMLoaded 100; HoverStart] shapesSuckIn in
  isLooping c = true /\ totalFrames c <> 0 /\
  exactlyOne (segments (timelineAfter 30 true c)) /\
  active_loop (segments (timelineAfter 30 true c)) = true.
Proof.
  cbv zeta.
  assert (H1 : isLooping (after [DOMLoaded 100; HoverStart] shapesSuckIn) = true)
    by (vm_compute; reflexivity).
  assert (H2 : totalFrames (after [DOMLoaded 100; HoverStart] shapesSuckIn) <> 0)
    by (vm_compute; discriminate).
  split; [exact H1|]. split; [exact H2|].
  pose proof (active_segment_selection
                (after [DOMLoaded 100; HoverStart] shapesSuckIn) 30 H1 H2)
    as (E1 & _ & _ & E4 & _).
  split; [exact E1|]. rewrite E4. vm_compute. reflexivity.
Defined.

(** C9 (as stated, refuted).  Before the clip is loaded [updateTimelineUI]
    returns at its guard: an update with [isPlaying] true on a loop card
    marks no segment.  And on a loaded card whose bounds are reversed
    ([loopFrames] 71, 24), frame 50 lies past [loopEndFrame] and is marked
    intro, not outro. *)
Lemma no_active_segment_before_load :
  let c := after [HoverStart] shapesSuckIn in
  let r := after [DOMLoaded 100; HoverStart] reversedLoop in
  isLooping c = true /\
  segments (timelineAfter 30 true c) = none3 /\
  ~ exactlyOne (segments (timelineAfter 30 true c)) /\
  isLooping r = true /\ loopEndFrame r < 50 /\
  active_intro (segments (timelineAfter 50 true r)) = true /\
  active_outro (segments (timelineAfter 50 true r)) = false.
Proof.
  cbv zeta.
  assert (H : segments (timelineAfter 30 true (after [HoverStart] shapesSuckIn))
              = none3) by (vm_compute; reflexivity).
  split; [vm_compute; reflexivity|]. split; [exact H|].
  split.
  - rewrite H. unfold exactlyOne. cbn.
    intros [E|[E|E]]; destruct E as (?&?&?); discriminate.
  - conjuncts; vm_compute; reflexivity.
Qed.

(** *** The frame callback on a loop card *)

Lemma onEnterFrame_loop (c : Card) :
  isLooping c = true -> totalFrames c <> 0 ->
  Fixed.onEnterFrame c =
  let shown := set_ui (timelineAfter (currentFrameOf c) true c) c in
  if isOutroLocked c then shown
  else if isHovering c then
    if currentFrameOf c >=? loopEndFrame c
    then lottie_goToAndPlay (loopStartFrame c) shown else shown
  else
    if currentFrameOf c >=? loopStartFrame c
    then set_isOutroLocked true shown else shown.
Proof.
  intros Hloop Htf. unfold Fixed.onEnterFrame.
  apply Z.eqb_neq in Htf. rewrite Htf.
  rewrite updateTimelineUI_eq. unfold isLooping in *. cbn. rewrite Hloop.
  reflexivity.
Qed.

Lemma currentFrameOf_render (frame : Q) (c : Card) :
  currentFrameOf (set_lottieAnimation (item_render frame (lottieAnimation c)) c)
  = Qfloor frame.
Proof. reflexivity. Qed.

(** C4 (amended).  On a loop card whose clip is loaded ([totalFrames] not
    0), hovering and not outro-locked, a frame notification reporting
    [frame >= loopEndFrame] makes exactly one call on the handle,
    [goToAndPlay(loopStartFrame, true)]: the handle is playing and the frame
    read back from it is [loopStartFrame]. *)
Theorem loop_back_at_loop_end (c : Card) (frame : Q) :
  isLooping c = true -> totalFrames c <> 0 ->
  isHovering c = true -> isOutroLocked c = false ->
  loopEndFrame c <= Qfloor frame ->
  let c' := Fixed.deliverFrame frame c in
  calls c' = calls c ++ [CallGoToAndPlay (loopStartFrame c)] /\
  currentFrameOf c' = loopStartFrame c /\
  item_isPaused (lottieAnimation c') = false /\
  isHovering c' = true /\ isOutroLocked c' = false.
Proof.
  intros Hloop Htf Hhov Hlock Hge c'. subst c'.
  unfold Fixed.deliverFrame.
  rewrite onEnterFrame_loop by assumption.
  rewrite currentFrameOf_render. cbn zeta.
  cbn [isOutroLocked isHovering set_lottieAnimation loopEndFrame loopStartFrame].
  rewrite Hlock, Hhov.
  apply Z.geb_le in Hge. rewrite Hge.
  cbn. unfold currentFrameOf. cbn.
  rewrite Z.div_1_r, Hhov, Hlock. repeat split; reflexivity.
Qed.

(** C4 (as stated, refuted).  A loop card is hovered before its clip is
    loaded; a frame notification at the loop end finds [totalFrames] 0 and
    returns at the guard: no seek is made. *)
Lemma no_loop_back_before_load :
  let c := after [HoverStart] shapesSuckIn in
  isLooping c = true /\ isHovering c = true /\ isOutroLocked c = false /\
  loopEndFrame c <= Qfloor 71 /\
  calls (Fixed.deliverFrame 71 c) = calls c /\
  currentFrameOf (Fixed.deliverFrame 71 c) = 71.
Proof. cbv zeta. conjuncts; vm_compute; solve [reflexivity | discriminate]. Qed.

Lemma loop_back_at_loop_end_witness :
  let c := after [DOMLoaded 100; HoverStart] shapesSuckIn in
  isLooping c = true /\ totalFrames c <> 0 /\
  isHovering c = true /\ isOutroLocked c = false /\
  loopEndFrame c <= Qfloor 71 /\
  calls (Fixed.deliverFrame 71 c) =
    calls c ++ [CallGoToAndPlay (loopStartFrame c)] /\
  currentFrameOf (Fixed.deliverFrame 71 c) = loopStartFrame c.
Proof.
  cbv zeta.
  set (c := after [DOMLoaded 100; HoverStart] shapesSuckIn).
  assert (H1 : isLooping c = true) by (vm_compute; reflexivity).
  assert (H2 : totalFrames c <> 0) by (vm_compute; discriminate).
  assert (H3 : isHovering c = true) by (vm_compute; reflexivity).
  assert (H4 : isOutroLocked c = false) by (vm_compute; reflexivity).
  assert (H5 : loopEndFrame c <= Qfloor 71) by (vm_compute; discriminate).
  pose proof (loop_back_at_loop_end c 71 H1 H2 H3 H4 H5) as (E1 & E2 & _).
  conjuncts; assumption.
Defined.

(** *** The outro lock *)

Lemma set_ui_same (c : Card) : set_ui (ui c) c = c.
Proof. destruct c; reflexivity. Qed.

Lemma deliverFrame_locked (c : Card) (frame : Q) :
  isLooping c = true -> isOutroLocked c = true ->
  exists t,
    Fixed.deliverFrame frame c =
    set_ui t (set_lottieAnimation (item_render frame (lottieAnimation c)) c).
Proof.
  intros Hloop Hlock. unfold Fixed.deliverFrame.
  set (c1 := set_lottieAnimation (item_render frame (lottieAnimation c)) c).
  destruct (Z.eq_dec (totalFrames c1) 0) as [H0|H0].
  - exists (ui c1). rewrite set_ui_same.
    unfold Fixed.onEnterFrame. rewrite H0. reflexivity.
  - rewrite onEnterFrame_loop by assumption. cbn zeta.
    replace (isOutroLocked c1) with true by (symmetry; exact Hlock).
    eexists. reflexivity.
Qed.

Lemma deliverFrames_locked (frames : list Q) (c : Card) :
  isLooping c = true -> isOutroLocked c = true ->
  let c' := Fixed.deliverFrames frames c in
  isOutroLocked c' = true /\ calls c' = calls c /\
  isHovering c' = isHovering c /\ totalFrames c' = totalFrames c /\
  item_isPaused (lottieAnimation c') = item_isPaused (lottieAnimation c) /\
  item_enterFrame (lottieAnimation c') = item_enterFrame (lottieAnimation c).
Proof.
  revert c. induction frames as [|frame frames IH]; intros c Hloop Hlock.
  - cbn. rewrite Hlock. repeat split; reflexivity.
  - cbn zeta. unfold Fixed.deliverFrames. cbn [fold_left].
    destruct (deliverFrame_locked c frame Hloop Hlock) as [t Ht].
    fold (Fixed.deliverFrames frames (Fixed.deliverFrame frame c)).
    rewrite Ht.
    specialize (IH (set_ui t (set_lottieAnimation
                                (item_render frame (lottieAnimation c)) c))
                   Hloop Hlock).
    cbv zeta in IH. exact IH.
Qed.

Section Hover.
Context {contract : EngineContract}.

Lemma onHoverStart_paused (c : Card) :
  item_isPaused (lottieAnimation c) = true ->
  Fixed.onHoverStart c =
  lottie_play
    (set_ui (timelineAfter 0 true
               (lottie_goToAndPlay 0 (set_isOutroLocked false
                 (lottie_addEnterFrame (boundOnEnterFrame c)
                   (wrapper_playing true (set_isHovering true c))))))
       (lottie_goToAndPlay 0 (set_isOutroLocked false
          (lottie_addEnterFrame (boundOnEnterFrame c)
            (wrapper_playing true (set_isHovering true c)))))).
Proof.
  intros Hp. unfold Fixed.onHoverStart. cbn. rewrite Hp.
  rewrite updateTimelineUI_eq. reflexivity.
Qed.

Lemma onHoverStart_playing (c : Card) :
  item_isPaused (lottieAnimation c) = false ->
  Fixed.onHoverStart c =
  let c1 := lottie_addEnterFrame (boundOnEnterFrame c)
              (wrapper_playing true (set_isHovering true c)) in
  lottie_play
    (if isLooping c && isOutroLocked c && (currentFrameOf c <=? loopEndFrame c)
     then set_isOutroLocked false c1 else c1).
Proof.
  intros Hp. unfold Fixed.onHoverStart. cbn. rewrite Hp. reflexivity.
Qed.

Lemma onComplete_loop (c : Card) :
  isLooping c = true ->
  isOutroLocked (Fixed.onComplete c) = false.
Proof.
  intros Hloop. unfold Fixed.onComplete. cbn.
  unfold isLooping in Hloop. apply String.eqb_eq in Hloop. rewrite Hloop. cbn.
  rewrite resetTimeline_eq. cbn.
  destruct (isHovering c).
  - rewrite updateTimelineUI_eq. reflexivity.
  - reflexivity.
Qed.

(** C3 (amended).  On a loop card:
    - once the clip is loaded ([totalFrames] not 0), a frame notification
      that arrives while the card is not hovered and reports
      [frame >= loopStartFrame] leaves [isOutroLocked] true;
    - while it is true, any number of further frame notifications leave it
      true and change no playback state: no call on the handle, hover flag,
      frame count, paused flag and registered callbacks as they were;
    - [HoverEnd] leaves it as it is;
    - [PlaybackComplete] clears it;
    - [HoverStart] at a frame [<= loopEndFrame] clears it, and [HoverStart]
      at a later frame of a clip that is playing leaves it as it is;
    - the load notification and a theme change leave it as it is. *)
Theorem outro_lock_lifecycle (c : Card) :
  isLooping c = true ->
  (totalFrames c <> 0 -> isHovering c = false ->
   forall frame : Q, loopStartFrame c <= Qfloor frame ->
     isOutroLocked (Fixed.deliverFrame frame c) = true) /\
  (isOutroLocked c = true ->
   forall frames : list Q,
     let c' := Fixed.deliverFrames frames c in
     isOutroLocked c' = true /\ calls c' = calls c /\
     isHovering c' = isHovering c /\ totalFrames c' = totalFrames c /\
     item_isPaused (lottieAnimation c') = item_isPaused (lottieAnimation c) /\
     item_enterFrame (lottieAnimation c') = item_enterFrame (lottieAnimation c)) /\
  isOutroLocked (Fixed.onHoverEnd c) = isOutroLocked c /\
  isOutroLocked (Fixed.onComplete c) = false /\
  (currentFrameOf c <= loopEndFrame c ->
   isOutroLocked (Fixed.onHoverStart c) = false) /\
  (loopEndFrame c < currentFrameOf c ->
   item_isPaused (lottieAnimation c) = false ->
   isOutroLocked (Fixed.onHoverStart c) = isOutroLocked c) /\
  isOutroLocked (Fixed.onDOMLoaded c) = isOutroLocked c /\
  (forall checked : bool,
     isOutroLocked (Fixed.onThemeChange checked c) = isOutroLocked c).
Proof.
  intros Hloop.
  assert (Htype : animationType c = "loop"%string)
    by (apply String.eqb_eq; exact Hloop).
  split; [|split; [|split; [|split; [|split; [|split; [|split]]]]]].
  - intros Htf Hhov frame Hge. unfold Fixed.deliverFrame.
    rewrite onEnterFrame_loop by assumption.
    rewrite currentFrameOf_render. cbn zeta.
    cbn [isOutroLocked isHovering set_lottieAnimation loopEndFrame loopStartFrame].
    rewrite Hhov. apply Z.geb_le in Hge. rewrite Hge.
    destruct (isOutroLocked c) eqn:E; cbn; [exact E | reflexivity].
  - intros Hlock frames. apply deliverFrames_locked; assumption.
  - unfold Fixed.onHoverEnd. cbn. rewrite Htype. reflexivity.
  - apply onComplete_loop; exact Hloop.
  - intros Hle.
    destruct (item_isPaused (lottieAnimation c)) eqn:Hp.
    + rewrite onHoverStart_paused by exact Hp. reflexivity.
    + rewrite onHoverStart_playing by exact Hp. cbn zeta.
      rewrite Hloop. apply Z.leb_le in Hle. rewrite Hle.
      destruct (isOutroLocked c) eqn:E; cbn; [reflexivity | exact E].
  - intros Hlt Hp.
    rewrite onHoverStart_playing by exact Hp. cbn zeta.
    apply Z.leb_gt in Hlt. rewrite Hlt, andb_false_r. reflexivity.
  - unfold Fixed.onDOMLoaded. rewrite resetTimeline_eq. reflexivity.
  - intros checked. reflexivity.
Qed.

End Hover.

(** C3 (as stated, refuted).  Before the clip is loaded the frame callback
    returns at its guard: the card is not hovered, the reported frame is
    past [loopStartFrame], and [isOutroLocked] stays false. *)
Lemma outro_lock_not_taken_before_load :
  let c := after [HoverStart; HoverEnd] shapesSuckIn in
  isLooping c = true /\ isHovering c = false /\
  loopStartFrame c <= Qfloor 30 /\
  isOutroLocked (Fixed.deliverFrame 30 c) = false.
Proof. cbv zeta. conjuncts; vm_compute; solve [reflexivity | discriminate]. Qed.

Lemma outro_lock_lifecycle_witness :
  let c := after [DOMLoaded 100; HoverStart; HoverEnd] shapesSuckIn in
  isLooping c = true /\ totalFrames c <> 0 /\ isHovering c = false /\
  loopStartFrame c <= Qfloor 30 /\
  isOutroLocked (Fixed.deliverFrame 30 c) = true /\
  isOutroLocked (Fixed.deliverFrames [31; 32; 90]%Q (Fixed.deliverFrame 30 c)) = true /\
  isOutroLocked (@Fixed.onComplete EventTargetContract c) = false.
Proof.
  cbv zeta.
  set (c := after [DOMLoaded 100; HoverStart; HoverEnd] shapesSuckIn).
  assert (H1 : isLooping c = true) by (vm_compute; reflexivity).
  assert (H2 : totalFrames c <> 0) by (vm_compute; discriminate).
  assert (H3 : isHovering c = false) by (vm_compute; reflexivity).
  assert (H4 : loopStartFrame c <= Qfloor 30) by (vm_compute; discriminate).
  pose proof (@outro_lock_lifecycle EventTargetContract c H1)
    as (Taken & _ & _ & Cleared & _).
  pose proof (Taken H2 H3 30%Q H4) as Locked.
  assert (H1' : isLooping (Fixed.deliverFrame 30 c) = true)
    by (vm_compute; reflexivity).
  pose proof (@outro_lock_lifecycle EventTargetContract
                (Fixed.deliverFrame 30 c) H1') as (_ & Kept & _).
  pose proof (Kept Locked [31; 32; 90]%Q) as (K & _).
  conjuncts; assumption.
Defined.

(** *** Hover start on a paused handle *)

Section Restart.
Context {contract : EngineContract}.

(** C10.  In the fixed file, whatever the kind of the card, [HoverStart] on
    a paused handle clears [isOutroLocked] and restarts the clip: the calls
    are the registration of the frame callback, [goToAndPlay(0, true)] and
    [play()], after which the handle plays from frame 0.  A playAndHold card
    is paused by its own [onComplete] (the callback is removed, then
    [pause()]), so a [HoverStart] that finds it holding restarts it from
    frame 0 as well. *)
Theorem hover_start_on_paused_restarts (c : Card) :
  (item_isPaused (lottieAnimation c) = true ->
   let c' := Fixed.onHoverStart c in
   isOutroLocked c' = false /\
   calls c' = calls c ++ [CallAddEnterFrame (boundOnEnterFrame c);
                          CallGoToAndPlay 0; CallPlay] /\
   currentFrameOf c' = 0 /\
   item_isPaused (lottieAnimation c') = false /\
   isHovering c' = true) /\
  (animationType c = "playAndHold"%string ->
   let held := Fixed.onComplete c in
   let c' := Fixed.onHoverStart held in
   calls held = calls c ++ [CallRemoveEnterFrame (boundOnEnterFrame c); CallPause] /\
   item_isPaused (lottieAnimation held) = true /\
   item_currentFrame (lottieAnimation held) = item_currentFrame (lottieAnimation c) /\
   isOutroLocked c' = false /\
   calls c' = calls held ++ [CallAddEnterFrame (boundOnEnterFrame c);
                             CallGoToAndPlay 0; CallPlay] /\
   currentFrameOf c' = 0 /\
   item_isPaused (lottieAnimation c') = false).
Proof.
  assert (General : forall d, item_isPaused (lottieAnimation d) = true ->
    isOutroLocked (Fixed.onHoverStart d) = false /\
    calls (Fixed.onHoverStart d) =
      calls d ++ [CallAddEnterFrame (boundOnEnterFrame d);
                  CallGoToAndPlay 0; CallPlay] /\
    currentFrameOf (Fixed.onHoverStart d) = 0 /\
    item_isPaused (lottieAnimation (Fixed.onHoverStart d)) = false /\
    isHovering (Fixed.onHoverStart d) = true).
  { intros d Hp. rewrite onHoverStart_paused by exact Hp.
    cbn. rewrite <- !app_assoc. repeat split; reflexivity. }
  split.
  - intros Hp. cbv zeta. apply General. exact Hp.
  - intros Htype held c'.
    assert (Hheld : held =
      wrapper_playing false
        (set_ui (timelineAfter (totalFrames c) false
                   (lottie_pause (lottie_removeEnterFrame (boundOnEnterFrame c) c)))
           (lottie_pause (lottie_removeEnterFrame (boundOnEnterFrame c) c)))).
    { subst held. unfold Fixed.onComplete. cbn. rewrite Htype. cbn.
      rewrite updateTimelineUI_eq. reflexivity. }
    assert (Hp : item_isPaused (lottieAnimation held) = true)
      by (rewrite Hheld; reflexivity).
    assert (Hb : boundOnEnterFrame held = boundOnEnterFrame c)
      by (rewrite Hheld; reflexivity).
    destruct (General held Hp) as (G1 & G2 & G3 & G4 & _).
    subst c'. rewrite Hb in G2.
    repeat split; try assumption.
    + rewrite Hheld. cbn. rewrite <- app_assoc. reflexivity.
    + rewrite Hheld. reflexivity.
Qed.

End Restart.

Lemma hover_start_on_paused_restarts_witness :
  let c := after [DOMLoaded 40; HoverStart; FrameAdvanced 39] buildIn in
  let held := @Fixed.onComplete EventTargetContract c in
  animationType c = "playAndHold"%string /\
  item_isPaused (lottieAnimation held) = true /\
  isOutroLocked (@Fixed.onHoverStart EventTargetContract held) = false /\
  currentFrameOf (@Fixed.onHoverStart EventTargetContract held) = 0.
Proof.
  cbv zeta.
  set (c := after [DOMLoaded 40; HoverStart; FrameAdvanced 39] buildIn).
  set (held := @Fixed.onComplete EventTargetContract c).
  assert (H1 : animationType c = "playAndHold"%string)
    by (vm_compute; reflexivity).
  assert (H2 : item_isPaused (lottieAnimation held) = true)
    by (vm_compute; reflexivity).
  pose proof (proj1 (@hover_start_on_paused_restarts EventTargetContract held) H2)
    as (E1 & _ & E3 & _).
  conjuncts; assumption.
Defined.

(** *** Hover end before the hold point *)

Lemma hex_onHoverEnd_freeze_running (c : Card) :
  animationType c = "freeze"%string -> isFrozen c = false ->
  Hexagons.onHoverEnd c = wrapper_playing false (set_isHovering false c).
Proof.
  intros Htype Hfrozen. unfold Hexagons.onHoverEnd, Hexagons.isContinuous.
  rewrite Htype. cbn. rewrite Htype, Hfrozen. reflexivity.
Qed.

Lemma hex_deliverFrame_freeze_unhovered (c : Card) (frame : Q) :
  animationType c = "freeze"%string -> isHovering c = false ->
  exists t,
    Hexagons.deliverFrame frame c =
    set_ui t (set_lottieAnimation (item_render frame (lottieAnimation c)) c).
Proof.
  intros Htype Hhov. unfold Hexagons.deliverFrame.
  set (c1 := set_lottieAnimation (item_render frame (lottieAnimation c)) c).
  unfold Hexagons.onEnterFrame.
  destruct (totalFrames c1 =? 0).
  - exists (ui c1). rewrite set_ui_same. reflexivity.
  - rewrite hex_updateTimelineUI_eq.
    unfold Hexagons.isContinuous, isLooping. cbn.
    rewrite Htype, Hhov. cbn. eexists. reflexivity.
Qed.

Lemma hex_deliverFrames_freeze_unhovered (frames : list Q) (c : Card) :
  animationType c = "freeze"%string -> isHovering c = false ->
  let c' := Hexagons.deliverFrames frames c in
  calls c' = calls c /\ isFrozen c' = isFrozen c /\
  item_isPaused (lottieAnimation c') = item_isPaused (lottieAnimation c).
Proof.
  revert c. induction frames as [|frame frames IH]; intros c Htype Hhov.
  - cbn. repeat split; reflexivity.
  - cbn zeta. unfold Hexagons.deliverFrames. cbn [fold_left].
    destruct (hex_deliverFrame_freeze_unhovered c frame Htype Hhov) as [t Ht].
    fold (Hexagons.deliverFrames frames (Hexagons.deliverFrame frame c)).
    rewrite Ht.
    specialize (IH (set_ui t (set_lottieAnimation
                                (item_render frame (lottieAnimation c)) c))
                   Htype Hhov).
    cbv zeta in IH. exact IH.
Qed.

Lemma onHoverEnd_playAndHold (c : Card) :
  animationType c = "playAndHold"%string ->
  Fixed.onHoverEnd c =
  wrapper_playing false
    (Fixed.resetTimeline
       (lottie_goToAndStop 0
          (lottie_removeEnterFrame (boundOnEnterFrame c)
             (set_isOutroLocked false (set_isHovering false c))))).
Proof.
  intros Htype. unfold Fixed.onHoverEnd. cbn. rewrite Htype. reflexivity.
Qed.

(** C5 (amended).  A freeze card of the Hexagons file that receives
    [HoverEnd] before its freeze frame was reached ([isFrozen] false) makes
    no call on the handle and leaves handle and timeline as they are; the
    frame notifications that follow make no call either and never set
    [isFrozen]: the clip runs on to its end.  A playAndHold card of the
    fixed file has no such case: [HoverEnd] always removes the frame
    callback, calls [goToAndStop(0, true)] and resets the timeline, whether
    the clip has completed or is still playing. *)
Theorem hover_end_before_hold (c : Card) :
  (animationType c = "freeze"%string -> isFrozen c = false ->
   let c' := Hexagons.onHoverEnd c in
   calls c' = calls c /\ lottieAnimation c' = lottieAnimation c /\
   ui c' = ui c /\ isHovering c' = false /\
   forall frames : list Q,
     let c'' := Hexagons.deliverFrames frames c' in
     calls c'' = calls c /\ isFrozen c'' = false /\
     item_isPaused (lottieAnimation c'') = item_isPaused (lottieAnimation c)) /\
  (animationType c = "playAndHold"%string ->
   let c' := Fixed.onHoverEnd c in
   calls c' = calls c ++ [CallRemoveEnterFrame (boundOnEnterFrame c);
                          CallGoToAndStop 0] /\
   item_isPaused (lottieAnimation c') = true /\
   currentFrameOf c' = 0 /\
   isHovering c' = false /\ isOutroLocked c' = false /\
   frameCounter (ui c') = 0 /\ marker_opacity (playheadMarker (ui c')) =
     (if totalFrames c =? 0 then marker_opacity (playheadMarker (ui c)) else false)).
Proof.
  split.
  - intros Htype Hfrozen c'. subst c'.
    rewrite hex_onHoverEnd_freeze_running by assumption.
    cbn. do 4 (split; [reflexivity|]).
    intros frames.
    destruct (hex_deliverFrames_freeze_unhovered frames
                (wrapper_playing false (set_isHovering false c)) Htype eq_refl)
      as (H1 & H2 & H3).
    cbv zeta. rewrite H1, H2, H3. cbn. rewrite Hfrozen. repeat split.
  - intros Htype c'. subst c'.
    rewrite onHoverEnd_playAndHold by exact Htype.
    rewrite resetTimeline_eq. cbn [wrapper_playing].
    do 5 (split; [cbn; rewrite <- ?app_assoc; reflexivity|]).
    unfold Fixed.resetTimeline, Fixed.updateTimelineUI, isLooping. cbn.
    rewrite Htype. cbn.
    destruct (totalFrames c =? 0); cbn; rewrite ?Htype; split; reflexivity.
Qed.

Lemma hover_end_before_hold_witness :
  let c := after [DOMLoaded 40; HoverStart; FrameAdvanced 10] buildIn in
  let h := freezePlaying in
  animationType c = "playAndHold"%string /\
  calls (Fixed.onHoverEnd c) =
    calls c ++ [CallRemoveEnterFrame (boundOnEnterFrame c); CallGoToAndStop 0] /\
  item_isPaused (lottieAnimation (Fixed.onHoverEnd c)) = true /\
  animationType h = "freeze"%string /\ isFrozen h = false /\
  calls (Hexagons.onHoverEnd h) = calls h /\
  lottieAnimation (Hexagons.onHoverEnd h) = lottieAnimation h.
Proof.
  cbv zeta.
  set (c := after [DOMLoaded 40; HoverStart; FrameAdvanced 10] buildIn).
  assert (H1 : animationType c = "playAndHold"%string)
    by (vm_compute; reflexivity).
  assert (H2 : animationType freezePlaying = "freeze"%string)
    by (vm_compute; reflexivity).
  assert (H3 : isFrozen freezePlaying = false) by (vm_compute; reflexivity).
  pose proof (proj2 (hover_end_before_hold c) H1) as (E1 & E2 & _).
  pose proof (proj1 (hover_end_before_hold freezePlaying) H2 H3)
    as (F1 & F2 & _).
  conjuncts; assumption.
Defined.

(** C5 (as stated, refuted).  A playAndHold card of the fixed file is
    loaded (40 frames), hovered, and has played to frame 10: the handle is
    playing and the clip has not completed.  [HoverEnd] removes the frame
    callback and seeks back to frame 0, stopped: the clip is cut short. *)
Lemma hover_end_cuts_playAndHold_short :
  let c := after [DOMLoaded 40; HoverStart; FrameAdvanced 10] buildIn in
  animationType c = "playAndHold"%string /\
  item_isPaused (lottieAnimation c) = false /\ currentFrameOf c = 10 /\
  skipn (List.length (calls c)) (calls (Fixed.onHoverEnd c)) =
    [CallRemoveEnterFrame (boundFunction 0); CallGoToAndStop 0] /\
  existsb interrupts (skipn (List.length (calls c)) (calls (Fixed.onHoverEnd c)))
    = true /\
  item_isPaused (lottieAnimation (Fixed.onHoverEnd c)) = true /\
  currentFrameOf (Fixed.onHoverEnd c) = 0.
Proof. cbv zeta. conjuncts; vm_compute; reflexivity. Qed.

(** *** Loop bounds at construction *)

(** C6 (amended).  Constructing a card never fails and checks no bound: for
    a loop entry the two numbers of [loopFrames] become [loopStartFrame] and
    [loopEndFrame] as they are, whatever their sign and order, and a loop
    entry without [loopFrames] gets the bounds (0, 0). *)
Theorem loop_bounds_are_not_validated
    (w : Wrapper) (elements : Timeline) (animationData : AnimationData) :
  cfg_animationType animationData = Some "loop"%string ->
  exists c : Card,
    Fixed.LottieCard w elements animationData = Normal c /\
    isLooping c = true /\ totalFrames c = 0 /\
    (loopStartFrame c, loopEndFrame c) =
      match loopFrames animationData with
      | Some bounds => bounds
      | None => (0, 0)
      end.
Proof.
  intros Hkind. eexists. split; [reflexivity|].
  unfold isLooping, Fixed.parseAnimationProps. cbn. rewrite Hkind. cbn.
  destruct (loopFrames animationData) as [[first second]|]; cbn;
    repeat split; reflexivity.
Qed.

Lemma loop_bounds_are_not_validated_witness :
  cfg_animationType reversedLoop = Some "loop"%string /\
  exists c : Card,
    Fixed.LottieCard freshWrapper freshTimeline reversedLoop = Normal c /\
    isLooping c = true /\ totalFrames c = 0 /\
    (loopStartFrame c, loopEndFrame c) = (71, 24).
Proof.
  split; [reflexivity|].
  apply (loop_bounds_are_not_validated freshWrapper freshTimeline reversedLoop).
  reflexivity.
Defined.

(** C6 (as stated, refuted).  A loop entry with [start >= end] and a loop
    entry without bounds are both constructed without an exception; once
    loaded and hovered, the frame logic runs on the reversed bounds and
    seeks from frame 30 to frame 71. *)
Lemma malformed_loop_is_constructed_and_played :
  malformedLoop reversedLoop = true /\
  malformedLoop unboundedLoop = true /\
  Fixed.LottieCard freshWrapper freshTimeline reversedLoop
    = Normal (fixedCard reversedLoop) /\
  Fixed.LottieCard freshWrapper freshTimeline unboundedLoop
    = Normal (fixedCard unboundedLoop) /\
  (loopStartFrame (fixedCard reversedLoop), loopEndFrame (fixedCard reversedLoop))
    = (71, 24) /\
  (loopStartFrame (fixedCard unboundedLoop), loopEndFrame (fixedCard unboundedLoop))
    = (0, 0) /\
  let c := after [DOMLoaded 100; HoverStart] reversedLoop in
  calls (Fixed.deliverFrame 30 c) = calls c ++ [CallGoToAndPlay 71].
Proof. cbv zeta. conjuncts; vm_compute; reflexivity. Qed.

(** *** The callback passed to the handle *)

Lemma frameCallbacks_app (l l' : list EngineCall) :
  frameCallbacks (l ++ l') = frameCallbacks l ++ frameCallbacks l'.
Proof.
  induction l as [|k l IH]; [reflexivity|].
  destruct k; cbn; rewrite IH; reflexivity.
Qed.

Lemma follows_refl (c : Card) : follows c c.
Proof.
  split; [reflexivity|]. exists [].
  rewrite app_nil_r. split; [reflexivity | constructor].
Qed.

Lemma follows_trans (c1 c2 c3 : Card) :
  follows c1 c2 -> follows c2 c3 -> follows c1 c3.
Proof.
  intros [Hb1 (e1 & H1 & F1)] [Hb2 (e2 & H2 & F2)].
  split; [congruence|].
  exists (e1 ++ e2). split.
  - rewrite H2, H1, app_assoc. reflexivity.
  - rewrite frameCallbacks_app. apply Forall_app. split; [exact F1|].
    rewrite <- Hb1. exact F2.
Qed.

Ltac follows_by_calls :=
  split; [reflexivity|];
  cbn; rewrite <- ?app_assoc;
  first [ eexists; split; [reflexivity|]; cbn; repeat constructor
        | exists []; rewrite app_nil_r; split; [reflexivity | constructor] ].

Ltac branches :=
  repeat match goal with
         | |- context [if ?b then _ else _] => destruct b
         end.

Lemma remove_canonical (b : Callback) (a : AnimationItem) :
  item_enterFrame a = [] \/ item_enterFrame a = [b] ->
  item_enterFrame (item_removeEnterFrame b a) = [].
Proof.
  intros [H|H]; unfold item_removeEnterFrame; cbn; rewrite H; cbn.
  - reflexivity.
  - rewrite Callback_eqb_refl. reflexivity.
Qed.

Lemma onEnterFrame_keeps_subscriptions (c : Card) :
  subscriptions (Fixed.onEnterFrame c) = subscriptions c /\
  boundOnEnterFrame (Fixed.onEnterFrame c) = boundOnEnterFrame c.
Proof.
  unfold Fixed.onEnterFrame.
  destruct (totalFrames c =? 0); [split; reflexivity|].
  rewrite updateTimelineUI_eq. cbn.
  branches; split; reflexivity.
Qed.

Lemma follows_onEnterFrame (c : Card) : follows c (Fixed.onEnterFrame c).
Proof.
  unfold Fixed.onEnterFrame.
  destruct (totalFrames c =? 0); [apply follows_refl|].
  rewrite updateTimelineUI_eq. cbn.
  branches; follows_by_calls.
Qed.

Lemma follows_trigger (l : list Callback) (c : Card) :
  follows c (fold_left (fun c _ => Fixed.onEnterFrame c) l c).
Proof.
  revert c. induction l as [|x l IH]; intros c; [apply follows_refl|].
  cbn. eapply follows_trans; [apply follows_onEnterFrame | apply IH].
Qed.

Lemma atMost_trigger (l : list Callback) (c : Card) :
  atMostCanonical c ->
  atMostCanonical (fold_left (fun c _ => Fixed.onEnterFrame c) l c).
Proof.
  revert c. induction l as [|x l IH]; intros c H; [exact H|].
  cbn. apply IH. unfold atMostCanonical in *.
  destruct (onEnterFrame_keeps_subscriptions c) as [Hs Hb].
  rewrite Hs, Hb. exact H.
Qed.

Section Canonical.
Context {contract : EngineContract}.

Lemma follows_onHoverStart (c : Card) : follows c (Fixed.onHoverStart c).
Proof.
  destruct (item_isPaused (lottieAnimation c)) eqn:Hp.
  - rewrite onHoverStart_paused by exact Hp. follows_by_calls.
  - rewrite onHoverStart_playing by exact Hp. cbn zeta.
    destruct (isLooping c && isOutroLocked c
              && (currentFrameOf c <=? loopEndFrame c));
      follows_by_calls.
Qed.

Lemma follows_onHoverEnd (c : Card) : follows c (Fixed.onHoverEnd c).
Proof.
  unfold Fixed.onHoverEnd. cbn.
  destruct (String.eqb (animationType c) "playAndHold").
  - rewrite resetTimeline_eq. follows_by_calls.
  - follows_by_calls.
Qed.

Lemma follows_onComplete (c : Card) : follows c (Fixed.onComplete c).
Proof.
  unfold Fixed.onComplete. cbn.
  destruct (String.eqb (animationType c) "playAndHold").
  - rewrite updateTimelineUI_eq. follows_by_calls.
  - rewrite resetTimeline_eq. cbn.
    destruct (isHovering c).
    + rewrite updateTimelineUI_eq. follows_by_calls.
    + follows_by_calls.
Qed.

Lemma follows_step (e : Event) (c : Card) : follows c (Fixed.step e c).
Proof.
  destruct e; cbn.
  - apply follows_onHoverStart.
  - apply follows_onHoverEnd.
  - unfold Fixed.triggerEnterFrame.
    eapply follows_trans; [|apply follows_trigger]. follows_by_calls.
  - apply follows_onComplete.
  - unfold Fixed.onDOMLoaded. rewrite resetTimeline_eq. follows_by_calls.
  - unfold Fixed.onThemeChange, Fixed.loadAnimationForTheme. follows_by_calls.
Qed.

Lemma follows_run (events : list Event) (c : Card) :
  follows c (Fixed.run events c).
Proof.
  revert c. induction events as [|e events IH]; intros c; [apply follows_refl|].
  cbn. eapply follows_trans; [apply follows_step | apply IH].
Qed.

(** The fixed file keeps the invariant of C1: over any sequence of events
    after construction, [boundOnEnterFrame] is the function object bound in
    the constructor, and every [addEventListener('enterFrame', _)] and
    [removeEventListener('enterFrame', _)] passes it. *)
Lemma fixed_frame_callback_is_canonical
    (w : Wrapper) (elements : Timeline) (animationData : AnimationData)
    (c0 : Card) (events : list Event) :
  Fixed.LottieCard w elements animationData = Normal c0 ->
  let c := Fixed.run events c0 in
  boundOnEnterFrame c0 = boundFunction 0 /\
  boundOnEnterFrame c = boundFunction 0 /\
  Forall (eq (boundFunction 0)) (frameCallbacks (calls c)).
Proof.
  intros Hnew. cbv zeta.
  injection Hnew as Hnew.
  assert (Hb0 : boundOnEnterFrame c0 = boundFunction 0) by (subst c0; reflexivity).
  assert (Hc0 : calls c0 = [CallLoadAnimation]) by (subst c0; reflexivity).
  destruct (follows_run events c0) as [Hb (extra & Hc & Hf)].
  split; [exact Hb0|]. split; [congruence|].
  rewrite Hc, frameCallbacks_app, Hc0. cbn. rewrite <- Hb0. exact Hf.
Qed.

Hypothesis Hdedup : ignoresRepeatedListener = true.

Lemma add_canonical (b : Callback) (a : AnimationItem) :
  item_enterFrame a = [] \/ item_enterFrame a = [b] ->
  item_enterFrame (item_addEnterFrame b a) = [b].
Proof.
  intros [H|H]; unfold item_addEnterFrame; cbn; rewrite Hdedup, H; cbn.
  - reflexivity.
  - rewrite Callback_eqb_refl. reflexivity.
Qed.

Lemma subscriptions_onHoverStart (c : Card) :
  subscriptions (Fixed.onHoverStart c) =
  item_enterFrame (item_addEnterFrame (boundOnEnterFrame c) (lottieAnimation c)) /\
  boundOnEnterFrame (Fixed.onHoverStart c) = boundOnEnterFrame c.
Proof.
  destruct (item_isPaused (lottieAnimation c)) eqn:Hp.
  - rewrite onHoverStart_paused by exact Hp. split; reflexivity.
  - rewrite onHoverStart_playing by exact Hp. cbn zeta.
    destruct (isLooping c && isOutroLocked c
              && (currentFrameOf c <=? loopEndFrame c));
      split; reflexivity.
Qed.

Lemma onHoverStart_subscribes (c : Card) :
  atMostCanonical c ->
  subscriptions (Fixed.onHoverStart c) = [boundOnEnterFrame c] /\
  boundOnEnterFrame (Fixed.onHoverStart c) = boundOnEnterFrame c.
Proof.
  intros H. destruct (subscriptions_onHoverStart c) as [Hs Hb].
  rewrite Hs, Hb. split; [|reflexivity]. apply add_canonical. exact H.
Qed.

Lemma atMost_step (e : Event) (c : Card) :
  atMostCanonical c -> atMostCanonical (Fixed.step e c).
Proof.
  intros H. destruct e; cbn.
  - right. destruct (onHoverStart_subscribes c H) as [Hs Hb].
    rewrite Hs, Hb. reflexivity.
  - unfold Fixed.onHoverEnd. cbn.
    destruct (String.eqb (animationType c) "playAndHold").
    + left. rewrite resetTimeline_eq. unfold subscriptions. cbn.
      apply (remove_canonical (boundOnEnterFrame c) (lottieAnimation c) H).
    + exact H.
  - unfold Fixed.triggerEnterFrame. apply atMost_trigger. exact H.
  - unfold Fixed.onComplete. cbn.
    destruct (String.eqb (animationType c) "playAndHold").
    + left. rewrite updateTimelineUI_eq. unfold subscriptions. cbn.
      apply (remove_canonical (boundOnEnterFrame c) (lottieAnimation c) H).
    + rewrite resetTimeline_eq. cbn. destruct (isHovering c).
      * right. rewrite updateTimelineUI_eq. unfold subscriptions. cbn.
        rewrite Hdedup.
        change (filter _ _) with
          (item_enterFrame
             (item_removeEnterFrame (boundOnEnterFrame c) (lottieAnimation c))).
        rewrite (remove_canonical (boundOnEnterFrame c) (lottieAnimation c) H).
        reflexivity.
      * left. unfold subscriptions. cbn.
        apply (remove_canonical (boundOnEnterFrame c) (lottieAnimation c) H).
  - unfold Fixed.onDOMLoaded. rewrite resetTimeline_eq. exact H.
  - left. reflexivity.
Qed.

Lemma atMost_run (events : list Event) (c : Card) :
  atMostCanonical c -> atMostCanonical (Fixed.run events c).
Proof.
  revert c. induction events as [|e events IH]; intros c H; [exact H|].
  cbn. apply IH. apply atMost_step. exact H.
Qed.

Lemma atMost_reachable (c : Card) : Fixed.reachable c -> atMostCanonical c.
Proof.
  intros (w & elements & animationData & c0 & events & Hnew & ->).
  apply atMost_run. left. injection Hnew as <-. reflexivity.
Qed.

End Canonical.

(** C1 (the code at the failing input).  A playOnce card of the
    intermediate file is loaded, hovered, left, and its clip completes.
    [onHoverStart] registers one new function object and [onComplete] passes
    another new one to [removeEventListener]: the two calls name different
    callbacks, neither is a stored canonical one (the card has none), and the
    callback registered at hover start is still registered after the
    removal.  This holds whatever the handle does with repeated
    registrations. *)
Theorem intermediate_rebinds_frame_callback {contract : EngineContract} :
  let c := Intermediate.run
             [DOMLoaded 60; HoverStart; HoverEnd; PlaybackComplete]
             (intermediateCard idle) in
  boundOnEnterFrame c = undefined /\
  calls c = [CallLoadAnimation; CallGoToAndStop 0;
             CallAddEnterFrame (boundFunction 5); CallGoToAndPlay 0; CallPlay;
             CallPlay;
             CallRemoveEnterFrame (boundFunction 6); CallGoToAndStop 0] /\
  frameCallbacks (calls c) = [boundFunction 5; boundFunction 6] /\
  subscriptions c = [boundFunction 5].
Proof.
  destruct contract as [[|]]; cbv zeta; conjuncts; vm_compute; reflexivity.
Qed.


Lemma trigger_single (b : Callback) (frame : Q) (c : Card) :
  subscriptions c = [b] ->
  Fixed.triggerEnterFrame frame c = Fixed.deliverFrame frame c.
Proof.
  intros H. unfold Fixed.triggerEnterFrame, Fixed.deliverFrame.
  unfold subscriptions in H. cbn. rewrite H. reflexivity.
Qed.

(** What the comment at line 1233 relies on.  On a handle that ignores the
    registration of a callback it already holds, a card of the fixed file,
    after construction and any sequence of events, is left by [HoverStart]
    with the stored callback as its only frame callback, and by a second
    [HoverStart] right after it with the same single registration: a
    rendered frame then runs [onEnterFrame] exactly once.  The controller
    itself never tests whether it is subscribed. *)
Theorem hover_twice_single_subscription {contract : EngineContract} (c : Card) :
  ignoresRepeatedListener = true ->
  Fixed.reachable c ->
  let once := Fixed.onHoverStart c in
  let twice := Fixed.onHoverStart once in
  subscriptions once = [boundOnEnterFrame c] /\
  subscriptions twice = [boundOnEnterFrame c] /\
  List.length (subscriptions twice) = 1%nat /\
  forall frame : Q,
    Fixed.triggerEnterFrame frame twice = Fixed.deliverFrame frame twice.
Proof.
  intros Hdedup Hreach.
  pose proof (atMost_reachable Hdedup c Hreach) as H0.
  destruct (onHoverStart_subscribes Hdedup c H0) as [Hs1 Hb1].
  assert (H1 : atMostCanonical (Fixed.onHoverStart c))
    by (right; rewrite Hs1, Hb1; reflexivity).
  destruct (onHoverStart_subscribes Hdedup _ H1) as [Hs2 Hb2].
  rewrite Hb1 in Hs2.
  cbv zeta. split; [exact Hs1|]. split; [exact Hs2|].
  split; [rewrite Hs2; reflexivity|].
  intros frame. apply trigger_single with (b := boundOnEnterFrame c).
  exact Hs2.
Qed.

Lemma hover_twice_single_subscription_witness :
  let c := after [DOMLoaded 60; HoverStart; HoverEnd; PlaybackComplete] idle in
  @ignoresRepeatedListener EventTargetContract = true /\
  @Fixed.reachable EventTargetContract c /\
  subscriptions (@Fixed.onHoverStart EventTargetContract
                   (@Fixed.onHoverStart EventTargetContract c))
  = [boundOnEnterFrame c].
Proof.
  cbv zeta.
  set (c := after [DOMLoaded 60; HoverStart; HoverEnd; PlaybackComplete] idle).
  assert (R : @Fixed.reachable EventTargetContract c).
  { exists freshWrapper, freshTimeline, idle, (fixedCard idle),
      [DOMLoaded 60; HoverStart; HoverEnd; PlaybackComplete].
    split; reflexivity. }
  pose proof (@hover_twice_single_subscription EventTargetContract c eq_refl R)
    as (_ & E & _).
  split; [reflexivity|]. split; [exact R | exact E].
Defined.

(** On a handle that appends every registration, the same two
    [HoverStart] events leave the stored callback registered twice; and in
    the intermediate file, where each [HoverStart] binds a new function
    object, two callbacks are registered on either kind of handle. *)
Lemma hover_twice_on_appending_handle :
  let c := @Fixed.run AppendingContract [DOMLoaded 60] (fixedCard idle) in
  subscriptions (@Fixed.onHoverStart AppendingContract
                   (@Fixed.onHoverStart AppendingContract c))
  = [boundFunction 0; boundFunction 0].
Proof. vm_compute. reflexivity. Qed.

Lemma hover_twice_in_intermediate_file {contract : EngineContract} :
  let c := Intermediate.run [DOMLoaded 60] (intermediateCard idle) in
  subscriptions (Intermediate.onHoverStart (Intermediate.onHoverStart c))
  = [boundFunction 5; boundFunction 6].
Proof. destruct contract as [[|]]; vm_compute; reflexivity. Qed.

Lemma trigger_double (a b : Callback) (frame : Q) (c : Card) :
  subscriptions c = [a; b] ->
  Fixed.triggerEnterFrame frame c = Fixed.onEnterFrame (Fixed.deliverFrame frame c).
Proof.
  intros H. unfold Fixed.triggerEnterFrame, Fixed.deliverFrame.
  unfold subscriptions in H. cbn. rewrite H. reflexivity.
Qed.

(** C2.  [onHoverStart] registers the frame callback without testing
    whether it is registered already.  A card of the fixed file, loaded with
    60 frames, on a handle that keeps every registration: after two
    [HoverStart] events with no [HoverEnd] between them the stored callback
    is registered twice, and every rendered frame runs [onEnterFrame] twice.
    A card of the intermediate file, on a handle of either kind: the two
    [HoverStart] events register two different function objects, and every
    rendered frame runs [onEnterFrame] twice. *)
Theorem hover_twice_registers_twice :
  (let c := @Fixed.run AppendingContract [DOMLoaded 60] (fixedCard idle) in
   let twice := @Fixed.onHoverStart AppendingContract
                  (@Fixed.onHoverStart AppendingContract c) in
   subscriptions c = [] /\
   subscriptions twice = [boundOnEnterFrame c; boundOnEnterFrame c] /\
   List.length (subscriptions twice) = 2%nat /\
   forall frame : Q,
     Fixed.triggerEnterFrame frame twice
     = Fixed.onEnterFrame (Fixed.deliverFrame frame twice)) /\
  (forall contract : EngineContract,
   let c := @Intermediate.run contract [DOMLoaded 60] (intermediateCard idle) in
   let twice := @Intermediate.onHoverStart contract
                  (@Intermediate.onHoverStart contract c) in
   subscriptions c = [] /\
   subscriptions twice = [boundFunction 5; boundFunction 6] /\
   List.length (subscriptions twice) = 2%nat /\
   forall frame : Q,
     Fixed.triggerEnterFrame frame twice
     = Fixed.onEnterFrame (Fixed.deliverFrame frame twice)).
Proof.
  split.
  - cbv zeta.
    assert (S : subscriptions
                  (@Fixed.onHoverStart AppendingContract
                     (@Fixed.onHoverStart AppendingContract
                        (@Fixed.run AppendingContract [DOMLoaded 60] (fixedCard idle))))
                = [boundFunction 0; boundFunction 0]) by (vm_compute; reflexivity).
    split; [vm_compute; reflexivity|].
    split; [rewrite S; vm_compute; reflexivity|].
    split; [rewrite S; reflexivity|].
    intros frame. exact (trigger_double _ _ frame _ S).
  - intros contract. cbv zeta.
    assert (S : subscriptions
                  (@Intermediate.onHoverStart contract
                     (@Intermediate.onHoverStart contract
                        (@Intermediate.run contract [DOMLoaded 60]
                           (intermediateCard idle))))
                = [boundFunction 5; boundFunction 6])
      by (destruct contract as [[|]]; vm_compute; reflexivity).
    split; [destruct contract as [[|]]; vm_compute; reflexivity|].
    split; [exact S|].
    split; [rewrite S; reflexivity|].
    intros frame. exact (trigger_double _ _ frame _ S).
Qed.

(** ** Further properties of the three files

    What follows is read off the code alone: how the timeline functions
    compose, what the handlers of the fixed file do in sequence and what
    they never do, how registrations accumulate in the intermediate file,
    the freeze and continuous cards of the Hexagons file, and the
    file-name parser of that file. *)

(** *** The timeline shows the last update *)

Section TimelineUpdates.
#[local] Arguments percent : simpl never.
#[local] Arguments clamp100 : simpl never.

(** Decides the tests of [updateTimelineUI] for the frames [f] and [g] on
    the card [c], then evaluates. *)
Ltac timeline_cases c f g :=
  unfold Fixed.resetTimeline, Fixed.updateTimelineUI, isLooping; cbn;
  let Eloop := fresh "Eloop" in
  let Ezero := fresh "Ezero" in
  let Ef := fresh "Ef" in
  let Ef' := fresh "Ef'" in
  let Eg := fresh "Eg" in
  let Eg' := fresh "Eg'" in
  destruct (String.eqb (animationType c) "loop") eqn:Eloop;
  destruct (totalFrames c =? 0) eqn:Ezero;
  cbn; rewrite ?Ezero, ?Eloop; cbn; rewrite ?Ezero, ?Eloop;
  try reflexivity;
  (destruct (g <? loopStartFrame c) eqn:Eg;
   [ | destruct ((g >=? loopStartFrame c) && (g <=? loopEndFrame c)) eqn:Eg' ]);
  cbn; rewrite ?Ezero, ?Eloop; cbn; rewrite ?Ezero, ?Eloop;
  try reflexivity;
  (destruct (f <? loopStartFrame c) eqn:Ef;
   [ | destruct ((f >=? loopStartFrame c) && (f <=? loopEndFrame c)) eqn:Ef' ]);
  cbn; rewrite ?Ezero, ?Eloop, ?Ef, ?Ef'; reflexivity.

(** X1.  [updateTimelineUI] keeps nothing of an earlier update: a second
    call, for any frame and play state, leaves the card exactly as if the
    first had not been made.  Whatever a call writes (counter, marker,
    bars, active classes) it writes in full, on a card of any kind, loaded
    or not. *)
Theorem timeline_shows_latest_update (c : Card) (f g : Z) (p q : bool) :
  Fixed.updateTimelineUI f p (Fixed.updateTimelineUI g q c) =
  Fixed.updateTimelineUI f p c.
Proof. destruct p, q; timeline_cases c f g. Qed.

(** X2.  [resetTimeline] after any update gives the timeline of a reset on
    the card as it was before, and a second reset changes nothing. *)
Theorem reset_forgets_updates (c : Card) (g : Z) (q : bool) :
  Fixed.resetTimeline (Fixed.updateTimelineUI g q c) = Fixed.resetTimeline c /\
  Fixed.resetTimeline (Fixed.resetTimeline c) = Fixed.resetTimeline c.
Proof. destruct q; split; timeline_cases c 0 g. Qed.
End TimelineUpdates.

(** *** Bars, markers and captions *)

Lemma ratio_sign (a b : Z) :
  0 < b ->
  ((inject_Z a / inject_Z b * 100 <= 0)%Q <-> a <= 0) /\
  ((0 <= inject_Z a / inject_Z b * 100)%Q <-> 0 <= a) /\
  ((100 <= inject_Z a / inject_Z b * 100)%Q <-> b <= a) /\
  ((inject_Z a / inject_Z b * 100 <= 100)%Q <-> a <= b).
Proof.
  intros Hb. destruct b as [|pb|pb]; try lia.
  unfold Qle, Qdiv, Qmult, Qinv, inject_Z. cbn.
  repeat split; intros; nia.
Qed.

Lemma clamp_empty (a b : Z) :
  0 < b -> a <= 0 -> isEmptyBar (clamp100 (percent a b)).
Proof.
  intros Hb Ha. unfold percent, js_div.
  destruct (Z.eqb_spec b 0) as [E|E]; [lia|]. cbn [js_times100].
  destruct (ratio_sign a b Hb) as (S1 & S2 & S3 & S4).
  set (q := (inject_Z a / inject_Z b * 100)%Q) in *.
  assert (Hq : (q <= 0)%Q) by (apply S1; exact Ha).
  unfold clamp100, Math_max, Math_min.
  destruct (Qle_bool 0 q) eqn:E0.
  - apply Qle_bool_iff in E0.
    destruct (Qle_bool 100 q) eqn:E1.
    + apply Qle_bool_iff in E1. apply S3 in E1. lia.
    + cbn. apply Qle_antisym; assumption.
  - cbn. reflexivity.
Qed.

Lemma clamp_full (a b : Z) :
  0 < b -> b <= a -> isFull (clamp100 (percent a b)).
Proof.
  intros Hb Ha. unfold percent, js_div.
  destruct (Z.eqb_spec b 0) as [E|E]; [lia|]. cbn [js_times100].
  destruct (ratio_sign a b Hb) as (S1 & S2 & S3 & S4).
  set (q := (inject_Z a / inject_Z b * 100)%Q) in *.
  unfold clamp100, Math_max, Math_min.
  assert (H0 : Qle_bool 0 q = true) by (apply Qle_bool_iff; apply S2; lia).
  assert (H1 : Qle_bool 100 q = true) by (apply Qle_bool_iff; apply S3; lia).
  rewrite H0, H1. cbn. reflexivity.
Qed.

(** X3.  On a loop card with [0 < loopStart < loopEnd < totalFrames] the
    three bars fill one after the other: the intro bar is empty up to frame
    0 and full from [loopStart] on, the loop bar is empty up to [loopStart]
    and full from [loopEnd] on, the outro bar is empty up to [loopEnd] and
    full from [totalFrames] on. *)
Theorem loop_bars_fill_in_order (c : Card) (f : Z) (p : bool) :
  isLooping c = true ->
  0 < loopStartFrame c -> loopStartFrame c < loopEndFrame c ->
  loopEndFrame c < totalFrames c ->
  let bars := progress (timelineAfter f p c) in
  (f <= 0 -> isEmptyBar (bar_intro bars)) /\
  (loopStartFrame c <= f -> isFull (bar_intro bars)) /\
  (f <= loopStartFrame c -> isEmptyBar (bar_loop bars)) /\
  (loopEndFrame c <= f -> isFull (bar_loop bars)) /\
  (f <= loopEndFrame c -> isEmptyBar (bar_outro bars)) /\
  (totalFrames c <= f -> isFull (bar_outro bars)).
Proof.
  intros Hloop H1 H2 H3 bars. subst bars.
  rewrite (loop_bars c f p Hloop) by lia. cbn [bar_intro bar_loop bar_outro].
  repeat split; intros H;
    first [ apply clamp_empty; lia | apply clamp_full; lia ].
Qed.

Lemma loop_bars_fill_in_order_witness :
  let c := after [DOMLoaded 100] shapesSuckIn in
  let bars := progress (timelineAfter 24 true c) in
  isLooping c = true /\ loopStartFrame c = 24 /\ loopEndFrame c = 71 /\
  totalFrames c = 100 /\
  isFull (bar_intro bars) /\ isEmptyBar (bar_loop bars) /\
  isEmptyBar (bar_outro bars).
Proof.
  cbv zeta. set (c := after [DOMLoaded 100] shapesSuckIn).
  assert (L : isLooping c = true) by (vm_compute; reflexivity).
  assert (S : loopStartFrame c = 24) by (vm_compute; reflexivity).
  assert (E : loopEndFrame c = 71) by (vm_compute; reflexivity).
  assert (T : totalFrames c = 100) by (vm_compute; reflexivity).
  assert (H1 : 0 < loopStartFrame c) by lia.
  assert (H2 : loopStartFrame c < loopEndFrame c) by lia.
  assert (H3 : loopEndFrame c < totalFrames c) by lia.
  pose proof (loop_bars_fill_in_order c 24 true L H1 H2 H3)
    as (_ & I & B & _ & O & _).
  do 4 (split; [assumption|]).
  split; [apply I; lia | split; [apply B; lia | apply O; lia]].
Defined.

Lemma percent_range (a b : Z) :
  0 < b ->
  (inUnitRange (percent a b) <-> 0 <= a <= b) /\ (a = b -> isFull (percent a b)).
Proof.
  intros Hb. unfold percent, js_div.
  destruct (Z.eqb_spec b 0) as [E|E]; [lia|]. cbn [js_times100 inUnitRange isFull].
  destruct (ratio_sign a b Hb) as (S1 & S2 & S3 & S4).
  split.
  - split.
    + intros [A B]. apply S2 in A. apply S4 in B. lia.
    + intros [A B]. split; [apply S2 | apply S4]; assumption.
  - intros ->. apply Qle_antisym; [apply S4 | apply S3]; lia.
Qed.

(** X4.  On a card that is not a loop card, with a loaded clip, the single
    bar and the playhead marker are written with the same number,
    [frame / totalFrames * 100], unclamped: it is within 0..100 exactly
    when [0 <= frame <= totalFrames], and 100 at the last frame.  The
    marker is visible exactly while playing; the three loop bars and the
    active classes are not touched. *)
Theorem simple_bar_follows_marker (c : Card) (f : Z) (p : bool) :
  isLooping c = false -> 0 < totalFrames c ->
  let t := timelineAfter f p c in
  progressFull t = percent f (totalFrames c) /\
  marker_left (playheadMarker t) = percent f (totalFrames c) /\
  marker_opacity (playheadMarker t) = p /\
  frameCounter t = f /\
  progress t = progress (ui c) /\ segments t = segments (ui c) /\
  (inUnitRange (progressFull t) <-> 0 <= f <= totalFrames c) /\
  (f = totalFrames c -> isFull (progressFull t)).
Proof.
  intros Hloop Htf t. subst t.
  unfold timelineAfter, Fixed.updateTimelineUI. cbn.
  destruct (Z.eqb_spec (totalFrames c) 0) as [E|E]; [lia|].
  unfold isLooping in *. cbn. rewrite Hloop. cbn.
  destruct (percent_range f (totalFrames c) Htf) as [R F].
  repeat split; try apply R; try assumption.
Qed.

Lemma simple_bar_follows_marker_witness :
  let c := after [DOMLoaded 60] idle in
  let t := timelineAfter 30 true c in
  isLooping c = false /\ totalFrames c = 60 /\
  progressFull t = marker_left (playheadMarker t) /\
  inUnitRange (progressFull t).
Proof.
  cbv zeta. set (c := after [DOMLoaded 60] idle).
  assert (L : isLooping c = false) by (vm_compute; reflexivity).
  assert (T : totalFrames c = 60) by (vm_compute; reflexivity).
  assert (H : 0 < totalFrames c) by lia.
  pose proof (simple_bar_follows_marker c 30 true L H)
    as (P & M & _ & _ & _ & _ & R & _).
  do 2 (split; [assumption|]).
  split; [rewrite P, M; reflexivity | apply R; lia].
Defined.

(** X5.  On a loop card with a loaded clip, after every update the
    frame-number captions carry the active class of their segment: the
    start caption with the intro segment, both loop captions with the loop
    segment, the end caption with the outro segment.  The single bar of
    the simple timeline is not touched. *)
Theorem captions_follow_active_segment (c : Card) (f : Z) (p : bool) :
  isLooping c = true -> totalFrames c <> 0 ->
  let t := timelineAfter f p c in
  active_start (frameNums t) = active_intro (segments t) /\
  active_loopStart (frameNums t) = active_loop (segments t) /\
  active_loopEnd (frameNums t) = active_loop (segments t) /\
  active_end (frameNums t) = active_outro (segments t) /\
  marker_opacity (playheadMarker t) = p /\
  marker_left (playheadMarker t) = percent f (totalFrames c) /\
  progressFull t = progressFull (ui c) /\ frameCounter t = f.
Proof.
  intros Hloop Htf t. subst t.
  unfold timelineAfter, Fixed.updateTimelineUI. cbn.
  apply Z.eqb_neq in Htf. rewrite Htf.
  unfold isLooping in *. cbn. rewrite Hloop.
  destruct p; cbn; [|repeat split; reflexivity].
  destruct (f <? loopStartFrame c); [repeat split; reflexivity|].
  destruct ((f >=? loopStartFrame c) && (f <=? loopEndFrame c));
    repeat split; reflexivity.
Qed.

Lemma captions_follow_active_segment_witness :
  let c := after [DOMLoaded 100] shapesSuckIn in
  let t := timelineAfter 30 true c in
  isLooping c = true /\ totalFrames c <> 0 /\
  active_loopStart (frameNums t) = active_loop (segments t) /\
  active_end (frameNums t) = active_outro (segments t).
Proof.
  cbv zeta. set (c := after [DOMLoaded 100] shapesSuckIn).
  assert (L : isLooping c = true) by (vm_compute; reflexivity).
  assert (T : totalFrames c <> 0) by (vm_compute; discriminate).
  pose proof (captions_follow_active_segment c 30 true L T)
    as (_ & A & _ & B & _).
  split; [exact L|]. split; [exact T|]. split; [exact A | exact B].
Defined.

Lemma percent_fin (a b : Z) :
  b <> 0 -> percent a b = Fin (inject_Z a / inject_Z b * 100).
Proof.
  intros H. unfold percent, js_div.
  destruct (Z.eqb_spec b 0); [contradiction | reflexivity].
Qed.

Lemma ratio_strict (a b : Z) :
  0 < b ->
  ((0 < inject_Z a / inject_Z b * 100)%Q <-> 0 < a) /\
  ((inject_Z a / inject_Z b * 100 < 100)%Q <-> a < b).
Proof.
  intros Hb. destruct (ratio_sign a b Hb) as (S1 & S2 & S3 & S4).
  split; split; intros H.
  - destruct (Z_lt_le_dec 0 a) as [G|G]; [exact G|].
    apply S1 in G. exfalso. exact (Qlt_not_le _ _ H G).
  - apply Qnot_le_lt. intros G. apply S1 in G. lia.
  - destruct (Z_lt_le_dec a b) as [G|G]; [exact G|].
    apply S3 in G. exfalso. exact (Qlt_not_le _ _ H G).
  - apply Qnot_le_lt. intros G. apply S3 in G. lia.
Qed.

(** X6.  [buildTimeline] on a loop card with
    [0 < loopStart < loopEnd < totalFrames]: the captions are the four
    frame numbers, the start marker and the loop-start caption sit at the
    width of the intro segment, the end marker and the loop-end caption at
    the same position, each of the three widths and the position of the end
    marker is strictly inside the track, and the start marker is left of
    the end marker. *)
Theorem layout_places_segments_in_order (c : Card) (page : Layout) :
  isLooping c = true ->
  0 < loopStartFrame c -> loopStartFrame c < loopEndFrame c ->
  loopEndFrame c < totalFrames c ->
  let built := buildTimeline c page in
  (caption_start built, caption_loopStart built,
   caption_loopEnd built, caption_end built) =
    (0, loopStartFrame c, loopEndFrame c, totalFrames c) /\
  segment_intro built = percent (loopStartFrame c) (totalFrames c) /\
  segment_loop built
    = percent (loopEndFrame c - loopStartFrame c) (totalFrames c) /\
  marker_start built = segment_intro built /\
  caption_loopStart_left built = marker_start built /\
  caption_loopEnd_left built = marker_end built /\
  strictlyInside (segment_intro built) /\
  strictlyInside (segment_loop built) /\
  strictlyInside (segment_outro built) /\
  strictlyInside (marker_end built) /\
  leftOf (marker_start built) (marker_end built).
Proof.
  intros Hloop H0 H1 H2 built. subst built. unfold buildTimeline.
  assert (Hpos : 0 < totalFrames c) by lia.
  assert (Htf : totalFrames c <> 0) by lia.
  destruct (Z.eqb_spec (totalFrames c) 0) as [E|E]; [contradiction|].
  rewrite Hloop. cbn [segment_intro segment_loop segment_outro marker_start
                      marker_end caption_loopStart_left caption_loopEnd_left
                      caption_start caption_loopStart caption_loopEnd caption_end].
  do 6 (split; [reflexivity|]).
  rewrite !percent_fin by exact Htf.
  cbn [js_sub js_add js_neg strictlyInside leftOf].
  set (tf := totalFrames c) in *. set (ls := loopStartFrame c) in *.
  set (le := loopEndFrame c) in *.
  assert (Hnz : ~ (inject_Z tf == 0)%Q).
  { intros Hz. apply (Qeq_bool_neq (inject_Z tf) 0); [|exact Hz].
    unfold Qeq_bool, inject_Z. cbn. apply Z.eqb_neq. lia. }
  assert (Eo : (100 - inject_Z ls / inject_Z tf * 100
                - inject_Z (le - ls) / inject_Z tf * 100
                == inject_Z (tf - le) / inject_Z tf * 100)%Q).
  { unfold Z.sub. rewrite !inject_Z_plus, !inject_Z_opp. field. exact Hnz. }
  assert (Ee : (inject_Z ls / inject_Z tf * 100
                + inject_Z (le - ls) / inject_Z tf * 100
                == inject_Z le / inject_Z tf * 100)%Q).
  { unfold Z.sub. rewrite !inject_Z_plus, !inject_Z_opp. field. exact Hnz. }
  change (100 + - (inject_Z ls / inject_Z tf * 100)
          + - (inject_Z (le - ls) / inject_Z tf * 100))%Q
    with (100 - inject_Z ls / inject_Z tf * 100
          - inject_Z (le - ls) / inject_Z tf * 100)%Q.
  rewrite Eo, Ee.
  destruct (ratio_strict ls tf Hpos) as (A1 & A2).
  destruct (ratio_strict (le - ls) tf Hpos) as (B1 & B2).
  destruct (ratio_strict (tf - le) tf Hpos) as (C1 & C2).
  destruct (ratio_strict le tf Hpos) as (D1 & D2).
  assert (Hl : (0 < inject_Z (le - ls) / inject_Z tf * 100)%Q) by (apply B1; lia).
  repeat split;
    first [ apply A1; lia | apply A2; lia | apply B1; lia | apply B2; lia
          | apply C1; lia | apply C2; lia | apply D1; lia | apply D2; lia | idtac ].
  rewrite <- Ee.
  rewrite <- (Qplus_0_r (inject_Z ls / inject_Z tf * 100)) at 1.
  apply Qplus_lt_r. exact Hl.
Qed.

Lemma layout_places_segments_in_order_witness :
  let c := after [DOMLoaded 100] shapesSuckIn in
  let built := buildTimeline c blankLayout in
  isLooping c = true /\ loopStartFrame c = 24 /\ loopEndFrame c = 71 /\
  totalFrames c = 100 /\
  strictlyInside (segment_outro built) /\
  leftOf (marker_start built) (marker_end built).
Proof.
  cbv zeta. set (c := after [DOMLoaded 100] shapesSuckIn).
  assert (L : isLooping c = true) by (vm_compute; reflexivity).
  assert (S : loopStartFrame c = 24) by (vm_compute; reflexivity).
  assert (E : loopEndFrame c = 71) by (vm_compute; reflexivity).
  assert (T : totalFrames c = 100) by (vm_compute; reflexivity).
  assert (H1 : 0 < loopStartFrame c) by lia.
  assert (H2 : loopStartFrame c < loopEndFrame c) by lia.
  assert (H3 : loopEndFrame c < totalFrames c) by lia.
  pose proof (layout_places_segments_in_order c blankLayout L H1 H2 H3)
    as (_ & _ & _ & _ & _ & _ & _ & _ & O & _ & M).
  do 4 (split; [assumption|]).
  split; [exact O | exact M].
Defined.

(** *** The calls of the fixed file *)

(** The shapes of the card after the frame callback. *)
Lemma onEnterFrame_cases (c : Card) :
  Fixed.onEnterFrame c = c \/
  (exists t, Fixed.onEnterFrame c = set_ui t c) \/
  (exists t, isLooping c = true /\ isHovering c = true /\
             isOutroLocked c = false /\
             Fixed.onEnterFrame c = lottie_goToAndPlay (loopStartFrame c) (set_ui t c)) \/
  (exists t, isLooping c = true /\ isHovering c = false /\
             Fixed.onEnterFrame c = set_isOutroLocked true (set_ui t c)).
Proof.
  unfold Fixed.onEnterFrame.
  destruct (totalFrames c =? 0); [left; reflexivity|].
  rewrite updateTimelineUI_eq. cbn.
  unfold isLooping. cbn.
  destruct (String.eqb (animationType c) "loop") eqn:E1;
    [|right; left; eexists; reflexivity].
  destruct (isOutroLocked c) eqn:E2; [right; left; eexists; reflexivity|].
  destruct (isHovering c) eqn:E3.
  - destruct (_ >=? _).
    + right; right; left. eexists. repeat split; reflexivity.
    + right; left; eexists; reflexivity.
  - destruct (_ >=? _).
    + right; right; right. eexists. repeat split; reflexivity.
    + right; left; eexists; reflexivity.
Qed.

Lemma advances_refl c : advances c c.
Proof.
  split; [repeat split|]. exists []. rewrite app_nil_r. split; [reflexivity|constructor].
Qed.

Lemma allowedCall_sameProps c c' k :
  sameProps c c' -> allowedCall c' k -> allowedCall c k.
Proof.
  intros (A & B & C & D). destruct k; cbn; unfold isLooping; rewrite ?A, ?B; auto.
Qed.

Lemma advances_trans c1 c2 c3 : advances c1 c2 -> advances c2 c3 -> advances c1 c3.
Proof.
  intros [P1 (e1 & H1 & F1)] [P2 (e2 & H2 & F2)].
  split.
  - destruct P1 as (A1 & B1 & C1 & D1), P2 as (A2 & B2 & C2 & D2).
    repeat split; congruence.
  - exists (e1 ++ e2). split; [rewrite H2, H1, app_assoc; reflexivity|].
    apply Forall_app. split; [exact F1|].
    eapply Forall_impl; [|exact F2]. intros k. apply allowedCall_sameProps. exact P1.
Qed.

Ltac advances_by_calls :=
  split; [repeat split|];
  cbn; rewrite <- ?app_assoc;
  first [ eexists; split; [reflexivity|];
          repeat first [apply Forall_nil | apply Forall_cons]; cbn; auto
        | exists []; rewrite app_nil_r; split; [reflexivity | constructor] ].

Lemma advances_onEnterFrame c : advances c (Fixed.onEnterFrame c).
Proof.
  destruct (onEnterFrame_cases c) as [E|[(t & E)|[(t & L & H & K & E)|(t & L & H & E)]]];
    rewrite E.
  - apply advances_refl.
  - advances_by_calls.
  - advances_by_calls.
  - advances_by_calls.
Qed.

Section Calls.
Context {contract : EngineContract}.

Lemma advances_onHoverStart c : advances c (Fixed.onHoverStart c).
Proof.
  destruct (item_isPaused (lottieAnimation c)) eqn:Hp.
  - rewrite onHoverStart_paused by exact Hp. advances_by_calls.
  - rewrite onHoverStart_playing by exact Hp. cbn zeta.
    destruct (isLooping c && isOutroLocked c
              && (currentFrameOf c <=? loopEndFrame c));
      advances_by_calls.
Qed.

Lemma advances_onHoverEnd c : advances c (Fixed.onHoverEnd c).
Proof.
  unfold Fixed.onHoverEnd. cbn.
  destruct (String.eqb (animationType c) "playAndHold").
  - rewrite resetTimeline_eq. advances_by_calls.
  - advances_by_calls.
Qed.

Lemma advances_onComplete c : advances c (Fixed.onComplete c).
Proof.
  unfold Fixed.onComplete. cbn.
  destruct (String.eqb (animationType c) "playAndHold") eqn:E.
  - apply String.eqb_eq in E. rewrite updateTimelineUI_eq. advances_by_calls.
  - rewrite resetTimeline_eq. cbn.
    destruct (isHovering c).
    + rewrite updateTimelineUI_eq. advances_by_calls.
    + advances_by_calls.
Qed.

Lemma advances_trigger (l : list Callback) c :
  advances c (fold_left (fun c _ => Fixed.onEnterFrame c) l c).
Proof.
  revert c. induction l as [|x l IH]; intros c; [apply advances_refl|].
  cbn. eapply advances_trans; [apply advances_onEnterFrame | apply IH].
Qed.

Lemma advances_step e c : advances c (Fixed.step e c).
Proof.
  destruct e; cbn.
  - apply advances_onHoverStart.
  - apply advances_onHoverEnd.
  - unfold Fixed.triggerEnterFrame.
    eapply advances_trans; [|apply advances_trigger]. advances_by_calls.
  - apply advances_onComplete.
  - unfold Fixed.onDOMLoaded. rewrite resetTimeline_eq. advances_by_calls.
  - unfold Fixed.onThemeChange, Fixed.loadAnimationForTheme. advances_by_calls.
Qed.

Lemma advances_run events c : advances c (Fixed.run events c).
Proof.
  revert c. induction events as [|e events IH]; intros c; [apply advances_refl|].
  cbn. eapply advances_trans; [apply advances_step | apply IH].
Qed.

(** X7.  Whatever events a card of the fixed file receives after
    construction, every seek it makes is to frame 0 or, on a loop card, to
    its loop start; it stops only at frame 0; only a playAndHold card ever
    pauses; and its kind, its loop bounds and the stored callback are those
    the constructor assigned. *)
Theorem controller_seeks_only_to_start_or_loop_start
    (w : Wrapper) (elements : Timeline) (animationData : AnimationData)
    (c0 : Card) (events : list Event) :
  Fixed.LottieCard w elements animationData = Normal c0 ->
  let c := Fixed.run events c0 in
  Forall (allowedCall c0) (calls c) /\ sameProps c0 c.
Proof.
  intros Hnew. cbv zeta.
  injection Hnew as Hnew.
  assert (Hc0 : calls c0 = [CallLoadAnimation]) by (subst c0; reflexivity).
  destruct (advances_run events c0) as [P (extra & Hc & Hf)].
  split; [|exact P].
  rewrite Hc, Hc0. constructor; [exact I | exact Hf].
Qed.
End Calls.

Lemma controller_seeks_only_to_start_or_loop_start_witness :
  Fixed.LottieCard freshWrapper freshTimeline shapesSuckIn
  = Normal (fixedCard shapesSuckIn) /\
  Forall (allowedCall (fixedCard shapesSuckIn))
    (calls (after [DOMLoaded 100; HoverStart; FrameAdvanced 80; HoverEnd;
                   FrameAdvanced 99; PlaybackComplete] shapesSuckIn)).
Proof.
  pose proof (@controller_seeks_only_to_start_or_loop_start EventTargetContract
                freshWrapper freshTimeline shapesSuckIn (fixedCard shapesSuckIn)
                [DOMLoaded 100; HoverStart; FrameAdvanced 80; HoverEnd;
                 FrameAdvanced 99; PlaybackComplete] eq_refl) as [F _].
  split; [reflexivity | exact F].
Defined.

Lemma add_allBound {contract : EngineContract} (b : Callback) (a : AnimationItem) :
  Forall (eq b) (item_enterFrame a) ->
  Forall (eq b) (item_enterFrame (item_addEnterFrame b a)).
Proof.
  intros H. unfold item_addEnterFrame. cbn.
  destruct (ignoresRepeatedListener && registered b (item_enterFrame a));
    [exact H|].
  apply Forall_app. split; [exact H | repeat constructor].
Qed.

Lemma remove_allBound (b : Callback) (a : AnimationItem) :
  Forall (eq b) (item_enterFrame a) ->
  item_enterFrame (item_removeEnterFrame b a) = [].
Proof.
  unfold item_removeEnterFrame. cbn.
  induction (item_enterFrame a) as [|x l IH]; intros H; [reflexivity|].
  inversion H as [|? ? Hx Hl]; subst. cbn.
  rewrite Callback_eqb_refl. cbn. apply IH. exact Hl.
Qed.

Lemma add_after_remove {contract : EngineContract} (b : Callback) (a : AnimationItem) :
  Forall (eq b) (item_enterFrame a) ->
  item_enterFrame (item_addEnterFrame b (item_removeEnterFrame b a)) = [b].
Proof.
  intros H. unfold item_addEnterFrame.
  rewrite (remove_allBound b a H). cbn. rewrite andb_false_r. reflexivity.
Qed.

Section Bound.
Context {contract : EngineContract}.

Lemma allBound_trigger (l : list Callback) c :
  allBound c -> allBound (fold_left (fun c _ => Fixed.onEnterFrame c) l c).
Proof.
  revert c. induction l as [|x l IH]; intros c H; [exact H|].
  cbn. apply IH. unfold allBound in *.
  destruct (onEnterFrame_keeps_subscriptions c) as [Hs Hb].
  rewrite Hs, Hb. exact H.
Qed.

Lemma allBound_step e c : allBound c -> allBound (Fixed.step e c).
Proof.
  intros H. unfold allBound in *. destruct e; cbn [Fixed.step].
  - destruct (subscriptions_onHoverStart c) as [Hs Hb].
    rewrite Hs, Hb. apply add_allBound. exact H.
  - unfold Fixed.onHoverEnd. cbn.
    destruct (String.eqb (animationType c) "playAndHold").
    + rewrite resetTimeline_eq. unfold subscriptions. cbn.
      change (filter _ _) with
        (item_enterFrame (item_removeEnterFrame (boundOnEnterFrame c) (lottieAnimation c))).
      rewrite (remove_allBound _ _ H). constructor.
    + exact H.
  - unfold Fixed.triggerEnterFrame. apply allBound_trigger. exact H.
  - unfold Fixed.onComplete. cbn.
    destruct (String.eqb (animationType c) "playAndHold").
    + rewrite updateTimelineUI_eq. unfold subscriptions. cbn.
      change (filter _ _) with
        (item_enterFrame (item_removeEnterFrame (boundOnEnterFrame c) (lottieAnimation c))).
      rewrite (remove_allBound _ _ H). constructor.
    + rewrite resetTimeline_eq. cbn. destruct (isHovering c).
      * rewrite updateTimelineUI_eq. unfold subscriptions. cbn.
        change (filter _ _) with
          (item_enterFrame (item_removeEnterFrame (boundOnEnterFrame c) (lottieAnimation c))).
        rewrite (remove_allBound _ _ H). cbn. rewrite andb_false_r. repeat constructor.
      * unfold subscriptions. cbn.
        change (filter _ _) with
          (item_enterFrame (item_removeEnterFrame (boundOnEnterFrame c) (lottieAnimation c))).
        rewrite (remove_allBound _ _ H). constructor.
  - unfold Fixed.onDOMLoaded. rewrite resetTimeline_eq. exact H.
  - constructor.
Qed.

Lemma allBound_run events c : allBound c -> allBound (Fixed.run events c).
Proof.
  revert c. induction events as [|e events IH]; intros c H; [exact H|].
  cbn. apply IH. apply allBound_step. exact H.
Qed.

Lemma allBound_reachable c : Fixed.reachable c -> allBound c.
Proof.
  intros (w & elements & animationData & c0 & events & Hnew & ->).
  apply allBound_run. injection Hnew as <-. constructor.
Qed.

Lemma run_app (e1 e2 : list Event) c :
  Fixed.run (e1 ++ e2) c = Fixed.run e2 (Fixed.run e1 c).
Proof. unfold Fixed.run. apply fold_left_app. Qed.

Lemma reachable_run events c : Fixed.reachable c -> Fixed.reachable (Fixed.run events c).
Proof.
  intros (w & elements & animationData & c0 & evs & Hnew & ->).
  exists w, elements, animationData, c0, (evs ++ events).
  split; [exact Hnew|]. symmetry. apply run_app.
Qed.
End Bound.

Section Sequences.
Context {contract : EngineContract}.

(** While the card is not hovered the frame callback makes no call. *)
Lemma unhovered_frames_are_quiet (l : list Callback) c :
  isHovering c = false ->
  let c' := fold_left (fun c _ => Fixed.onEnterFrame c) l c in
  calls c' = calls c /\ isHovering c' = false /\
  lottieAnimation c' = lottieAnimation c /\
  animationType c' = animationType c /\
  boundOnEnterFrame c' = boundOnEnterFrame c.
Proof.
  revert c. induction l as [|x l IH]; intros c H; [repeat split; assumption|].
  cbn [fold_left]. cbv zeta.
  assert (Q : calls (Fixed.onEnterFrame c) = calls c /\
              isHovering (Fixed.onEnterFrame c) = false /\
              lottieAnimation (Fixed.onEnterFrame c) = lottieAnimation c /\
              animationType (Fixed.onEnterFrame c) = animationType c /\
              boundOnEnterFrame (Fixed.onEnterFrame c) = boundOnEnterFrame c).
  { destruct (onEnterFrame_cases c)
      as [E|[(t & E)|[(t & L & Hh & K & E)|(t & L & Hh & E)]]]; rewrite E;
      try congruence; repeat split; assumption. }
  destruct Q as (Q1 & Q2 & Q3 & Q4 & Q5).
  destruct (IH (Fixed.onEnterFrame c) Q2) as (I1 & I2 & I3 & I4 & I5).
  repeat split; congruence.
Qed.

Lemma unhovered_run_of_frames (frames : list Q) c :
  isHovering c = false ->
  let c' := Fixed.run (map FrameAdvanced frames) c in
  calls c' = calls c /\ isHovering c' = false /\
  item_isPaused (lottieAnimation c') = item_isPaused (lottieAnimation c) /\
  subscriptions c' = subscriptions c /\
  animationType c' = animationType c /\
  boundOnEnterFrame c' = boundOnEnterFrame c.
Proof.
  revert c. induction frames as [|f frames IH]; intros c H; [repeat split; assumption|].
  cbn [map Fixed.run fold_left Fixed.step]. cbv zeta.
  fold (Fixed.run (map FrameAdvanced frames) (Fixed.triggerEnterFrame f c)).
  unfold Fixed.triggerEnterFrame.
  set (c1 := set_lottieAnimation (item_render f (lottieAnimation c)) c).
  destruct (unhovered_frames_are_quiet (item_enterFrame (lottieAnimation c1)) c1 H)
    as (Q1 & Q2 & Q3 & Q4 & Q5).
  cbv zeta in IH.
  destruct (IH _ Q2) as (I1 & I2 & I3 & I4 & I5 & I6).
  unfold subscriptions in *.
  rewrite I1, I3, I4, I5, I6, Q1, Q3, Q4, Q5. repeat split; assumption.
Qed.

Lemma neq_playAndHold c :
  animationType c <> "playAndHold"%string ->
  String.eqb (animationType c) "playAndHold" = false.
Proof. intros H. apply String.eqb_neq. exact H. Qed.

Lemma reset_frameCounter (d : Card) :
  frameCounter (ui (Fixed.resetTimeline d)) = 0.
Proof.
  unfold Fixed.resetTimeline, Fixed.updateTimelineUI, isLooping. cbn.
  destruct (String.eqb (animationType d) "loop") eqn:E; cbn;
    destruct (totalFrames d =? 0); cbn; rewrite ?E; cbn; reflexivity.
Qed.

Lemma onHoverEnd_plain (c : Card) :
  animationType c <> "playAndHold"%string ->
  Fixed.onHoverEnd c = wrapper_playing false (lottie_play (set_isHovering false c)).
Proof.
  intros Htype. unfold Fixed.onHoverEnd. cbn.
  rewrite (neq_playAndHold c Htype). reflexivity.
Qed.

Lemma stopped_shape (d : Card) (t : Timeline) :
  let done :=
    wrapper_playing false
      (lottie_goToAndStop 0
         (set_ui t (set_isOutroLocked false
                      (lottie_removeEnterFrame (boundOnEnterFrame d) d)))) in
  calls done = calls d ++ [CallRemoveEnterFrame (boundOnEnterFrame d);
                           CallGoToAndStop 0] /\
  subscriptions done =
    item_enterFrame (item_removeEnterFrame (boundOnEnterFrame d) (lottieAnimation d)) /\
  item_isPaused (lottieAnimation done) = true /\
  currentFrameOf done = 0 /\
  isOutroLocked done = false /\
  class_playing (wrapper done) = false /\
  ui done = t.
Proof.
  cbn. rewrite <- app_assoc. repeat split; reflexivity.
Qed.

Lemma onComplete_idle (d : Card) :
  allBound d ->
  animationType d <> "playAndHold"%string -> isHovering d = false ->
  let done := Fixed.onComplete d in
  calls done = calls d ++ [CallRemoveEnterFrame (boundOnEnterFrame d);
                           CallGoToAndStop 0] /\
  subscriptions done = [] /\
  item_isPaused (lottieAnimation done) = true /\
  currentFrameOf done = 0 /\
  isOutroLocked done = false /\
  class_playing (wrapper done) = false /\
  frameCounter (ui done) = 0.
Proof.
  intros Hb Htype Hh.
  assert (Hdone : exists t, frameCounter t = 0 /\ Fixed.onComplete d =
     wrapper_playing false
       (lottie_goToAndStop 0
          (set_ui t (set_isOutroLocked false
                       (lottie_removeEnterFrame (boundOnEnterFrame d) d))))).
  { unfold Fixed.onComplete.
    cbn [lottie_removeEnterFrame called set_calls set_lottieAnimation
         animationType].
    rewrite (neq_playAndHold d Htype).
    rewrite resetTimeline_eq.
    cbn [isHovering set_ui set_isOutroLocked set_calls set_lottieAnimation
         lottie_removeEnterFrame called].
    rewrite Hh.
    eexists. split; [apply reset_frameCounter | reflexivity]. }
  destruct Hdone as (t & Ht & Hdone).
  cbv zeta. rewrite Hdone.
  destruct (stopped_shape d t) as (S1 & S2 & S3 & S4 & S5 & S6 & S7).
  split; [exact S1|].
  split; [rewrite S2; apply remove_allBound; exact Hb|].
  split; [exact S3|]. split; [exact S4|]. split; [exact S5|].
  split; [exact S6|].
  rewrite S7. exact Ht.
Qed.

(** X8.  A card of the fixed file that is not playAndHold, when the pointer
    leaves: [onHoverEnd] calls [play()] and nothing else, the frames that
    follow make no call, and [onComplete] then removes the frame callback,
    seeks to frame 0 and stops.  After it no callback is registered, the
    handle is paused at frame 0, the outro lock and the playing class are
    off and the counter shows 0. *)
Theorem leaving_lets_the_clip_finish_then_rewinds (c : Card) (frames : list Q) :
  Fixed.reachable c ->
  animationType c <> "playAndHold"%string ->
  let left := Fixed.onHoverEnd c in
  let finished := Fixed.run (map FrameAdvanced frames) left in
  let rewound := Fixed.onComplete finished in
  calls left = calls c ++ [CallPlay] /\
  item_isPaused (lottieAnimation left) = false /\
  item_currentFrame (lottieAnimation left) = item_currentFrame (lottieAnimation c) /\
  calls finished = calls left /\
  item_isPaused (lottieAnimation finished) = false /\
  calls rewound = calls c ++ [CallPlay;
                              CallRemoveEnterFrame (boundOnEnterFrame c);
                              CallGoToAndStop 0] /\
  subscriptions rewound = [] /\
  item_isPaused (lottieAnimation rewound) = true /\
  currentFrameOf rewound = 0 /\
  isOutroLocked rewound = false /\
  class_playing (wrapper rewound) = false /\
  frameCounter (ui rewound) = 0.
Proof.
  intros Hreach Htype. cbv zeta.
  assert (R : Fixed.reachable (Fixed.onHoverEnd c)).
  { change (Fixed.onHoverEnd c) with (Fixed.run [HoverEnd] c).
    apply reachable_run. exact Hreach. }
  pose proof (onHoverEnd_plain c Htype) as Hleft.
  assert (L1 : calls (Fixed.onHoverEnd c) = calls c ++ [CallPlay])
    by (rewrite Hleft; reflexivity).
  assert (L2 : item_isPaused (lottieAnimation (Fixed.onHoverEnd c)) = false)
    by (rewrite Hleft; reflexivity).
  assert (L3 : item_currentFrame (lottieAnimation (Fixed.onHoverEnd c))
               = item_currentFrame (lottieAnimation c))
    by (rewrite Hleft; reflexivity).
  assert (L4 : isHovering (Fixed.onHoverEnd c) = false)
    by (rewrite Hleft; reflexivity).
  assert (L5 : animationType (Fixed.onHoverEnd c) = animationType c)
    by (rewrite Hleft; reflexivity).
  assert (L6 : boundOnEnterFrame (Fixed.onHoverEnd c) = boundOnEnterFrame c)
    by (rewrite Hleft; reflexivity).
  destruct (unhovered_run_of_frames frames (Fixed.onHoverEnd c) L4)
    as (F1 & F2 & F3 & F4 & F5 & F6).
  assert (Hb : allBound (Fixed.run (map FrameAdvanced frames) (Fixed.onHoverEnd c))).
  { apply allBound_reachable. apply reachable_run. exact R. }
  assert (Htype' : animationType (Fixed.run (map FrameAdvanced frames)
                                    (Fixed.onHoverEnd c)) <> "playAndHold"%string)
    by (rewrite F5, L5; exact Htype).
  destruct (onComplete_idle _ Hb Htype' F2) as (D1 & D2 & D3 & D4 & D5 & D6 & D7).
  split; [exact L1|]. split; [exact L2|]. split; [exact L3|].
  split; [exact F1|]. split; [rewrite F3; exact L2|].
  split; [rewrite D1, F1, L1, F6, L6, <- app_assoc; reflexivity|].
  repeat split; assumption.
Qed.

Lemma update_frameCounter (d : Card) (f : Z) (p : bool) :
  frameCounter (timelineAfter f p d) = f.
Proof.
  unfold timelineAfter, Fixed.updateTimelineUI, isLooping. cbn.
  destruct (totalFrames d =? 0); [reflexivity|].
  cbn. destruct (String.eqb (animationType d) "loop"); cbn; [|reflexivity].
  destruct p; cbn; [|reflexivity].
  destruct (f <? loopStartFrame d); [reflexivity|].
  destruct ((f >=? loopStartFrame d) && (f <=? loopEndFrame d)); reflexivity.
Qed.

Lemma restarted_shape (d : Card) (t : Timeline) :
  let again :=
    set_ui t
      (lottie_goToAndPlay 0
         (lottie_addEnterFrame (boundOnEnterFrame d)
            (set_isOutroLocked false
               (lottie_removeEnterFrame (boundOnEnterFrame d) d)))) in
  calls again = calls d ++ [CallRemoveEnterFrame (boundOnEnterFrame d);
                            CallAddEnterFrame (boundOnEnterFrame d);
                            CallGoToAndPlay 0] /\
  subscriptions again =
    item_enterFrame
      (item_addEnterFrame (boundOnEnterFrame d)
         (item_removeEnterFrame (boundOnEnterFrame d) (lottieAnimation d))) /\
  item_isPaused (lottieAnimation again) = false /\
  currentFrameOf again = 0 /\
  isOutroLocked again = false /\
  isHovering again = isHovering d /\
  wrapper again = wrapper d /\
  ui again = t.
Proof.
  cbn. rewrite <- !app_assoc. repeat split; reflexivity.
Qed.

(** X9.  When the clip of a card of the fixed file (not playAndHold)
    completes while the pointer is still over it, [onComplete] removes the
    stored callback, registers it again and restarts from frame 0: exactly
    one registration remains, on a handle of either kind, and the card
    plays from frame 0 unlocked. *)
Theorem completion_while_hovered_replays (c : Card) :
  Fixed.reachable c ->
  animationType c <> "playAndHold"%string -> isHovering c = true ->
  let again := Fixed.onComplete c in
  calls again = calls c ++ [CallRemoveEnterFrame (boundOnEnterFrame c);
                            CallAddEnterFrame (boundOnEnterFrame c);
                            CallGoToAndPlay 0] /\
  subscriptions again = [boundOnEnterFrame c] /\
  item_isPaused (lottieAnimation again) = false /\
  currentFrameOf again = 0 /\
  isOutroLocked again = false /\
  isHovering again = true /\
  wrapper again = wrapper c /\
  frameCounter (ui again) = 0.
Proof.
  intros Hreach Htype Hh.
  pose proof (allBound_reachable c Hreach) as Hb.
  assert (Hdone : exists t, frameCounter t = 0 /\ Fixed.onComplete c =
     set_ui t
       (lottie_goToAndPlay 0
          (lottie_addEnterFrame (boundOnEnterFrame c)
             (set_isOutroLocked false
                (lottie_removeEnterFrame (boundOnEnterFrame c) c))))).
  { unfold Fixed.onComplete.
    cbn [lottie_removeEnterFrame called set_calls set_lottieAnimation
         animationType].
    rewrite (neq_playAndHold c Htype).
    rewrite resetTimeline_eq.
    cbn [isHovering set_ui set_isOutroLocked set_calls set_lottieAnimation
         lottie_removeEnterFrame called].
    rewrite Hh. rewrite updateTimelineUI_eq.
    eexists. split; [apply update_frameCounter | reflexivity]. }
  destruct Hdone as (t & Ht & Hdone).
  cbv zeta. rewrite Hdone.
  destruct (restarted_shape c t) as (S1 & S2 & S3 & S4 & S5 & S6 & S7 & S8).
  split; [exact S1|].
  split; [rewrite S2; apply add_after_remove; exact Hb|].
  split; [exact S3|]. split; [exact S4|]. split; [exact S5|].
  split; [rewrite S6; exact Hh|]. split; [exact S7|].
  rewrite S8. exact Ht.
Qed.

(** A theme change. *)
(** X10.  [onThemeChange] destroys the handle and loads a new one, paused
    and with no frame callback, while [totalFrames], [isHovering], the
    outro lock and the timeline keep their values: until the next
    [HoverStart] or [onComplete] registers the callback again, the frames
    the new handle renders make no call and do not move the timeline, even
    on a card that is still hovered. *)
Theorem theme_change_drops_the_subscription (c : Card) (checked : bool)
    (frames : list Q) :
  let swapped := Fixed.onThemeChange checked c in
  let later := Fixed.run (map FrameAdvanced frames) swapped in
  calls swapped = calls c ++ [CallDestroy; CallLoadAnimation] /\
  lottieAnimation swapped = lottie_loadAnimation false /\
  subscriptions swapped = [] /\
  totalFrames swapped = totalFrames c /\
  isHovering swapped = isHovering c /\
  isOutroLocked swapped = isOutroLocked c /\
  ui swapped = ui c /\
  isLightMode swapped = checked /\
  class_light_mode (wrapper swapped) = checked /\
  binds swapped = (binds c + 2)%nat /\
  calls later = calls swapped /\
  ui later = ui c /\
  isOutroLocked later = isOutroLocked c /\
  subscriptions later = [].
Proof.
  cbv zeta.
  assert (Quiet : forall fs d, subscriptions d = [] ->
            let d' := Fixed.run (map FrameAdvanced fs) d in
            calls d' = calls d /\ ui d' = ui d /\
            isOutroLocked d' = isOutroLocked d /\ subscriptions d' = []).
  { induction fs as [|f fs IH]; intros d Hd; [repeat split; assumption|].
    cbn [map Fixed.run fold_left Fixed.step]. cbv zeta.
    fold (Fixed.run (map FrameAdvanced fs) (Fixed.triggerEnterFrame f d)).
    assert (E : Fixed.triggerEnterFrame f d
                = set_lottieAnimation (item_render f (lottieAnimation d)) d).
    { unfold Fixed.triggerEnterFrame. unfold subscriptions in Hd.
      cbn [lottieAnimation set_lottieAnimation item_enterFrame item_render].
      rewrite Hd. reflexivity. }
    rewrite E.
    destruct (IH (set_lottieAnimation (item_render f (lottieAnimation d)) d) Hd)
      as (I1 & I2 & I3 & I4).
    repeat split; assumption. }
  destruct (Quiet frames (Fixed.onThemeChange checked c) eq_refl)
    as (Q1 & Q2 & Q3 & Q4).
  assert (S : calls (Fixed.onThemeChange checked c)
              = calls c ++ [CallDestroy; CallLoadAnimation]).
  { unfold Fixed.onThemeChange, Fixed.loadAnimationForTheme. cbn.
    rewrite <- app_assoc. reflexivity. }
  split; [exact S|]. do 9 (split; [reflexivity|]).
  split; [exact Q1|]. split; [exact Q2|]. split; [exact Q3 | exact Q4].
Qed.
End Sequences.

Lemma completion_while_hovered_replays_witness :
  let c := after [DOMLoaded 60; HoverStart; FrameAdvanced 59] idle in
  let again := @Fixed.onComplete EventTargetContract c in
  @Fixed.reachable EventTargetContract c /\
  animationType c <> "playAndHold"%string /\ isHovering c = true /\
  subscriptions again = [boundOnEnterFrame c] /\
  item_isPaused (lottieAnimation again) = false /\
  currentFrameOf again = 0.
Proof.
  cbv zeta. set (c := after [DOMLoaded 60; HoverStart; FrameAdvanced 59] idle).
  assert (R : @Fixed.reachable EventTargetContract c).
  { exists freshWrapper, freshTimeline, idle, (fixedCard idle),
      [DOMLoaded 60; HoverStart; FrameAdvanced 59].
    split; reflexivity. }
  assert (T : animationType c <> "playAndHold"%string)
    by (vm_compute; discriminate).
  assert (H : isHovering c = true) by (vm_compute; reflexivity).
  pose proof (@completion_while_hovered_replays EventTargetContract c R T H)
    as (_ & S & P & F & _).
  split; [exact R|]. split; [exact T|]. split; [exact H|].
  split; [exact S|]. split; [exact P | exact F].
Defined.

Lemma leaving_lets_the_clip_finish_then_rewinds_witness :
  let c := after [DOMLoaded 60; HoverStart; FrameAdvanced 10] idle in
  let rewound :=
    @Fixed.onComplete EventTargetContract
      (@Fixed.run EventTargetContract (map FrameAdvanced [11; 59]%Q)
         (Fixed.onHoverEnd c)) in
  @Fixed.reachable EventTargetContract c /\
  animationType c <> "playAndHold"%string /\
  subscriptions rewound = [] /\
  item_isPaused (lottieAnimation rewound) = true /\
  currentFrameOf rewound = 0.
Proof.
  cbv zeta. set (c := after [DOMLoaded 60; HoverStart; FrameAdvanced 10] idle).
  assert (R : @Fixed.reachable EventTargetContract c).
  { exists freshWrapper, freshTimeline, idle, (fixedCard idle),
      [DOMLoaded 60; HoverStart; FrameAdvanced 10].
    split; reflexivity. }
  assert (T : animationType c <> "playAndHold"%string)
    by (vm_compute; discriminate).
  pose proof (@leaving_lets_the_clip_finish_then_rewinds EventTargetContract
                c [11; 59]%Q R T)
    as (_ & _ & _ & _ & _ & _ & S & P & F & _).
  split; [exact R|]. split; [exact T|].
  split; [exact S|]. split; [exact P | exact F].
Defined.

Section Binds.
Context {contract : EngineContract}.

Lemma binds_trigger (l : list Callback) c :
  binds (fold_left (fun c _ => Fixed.onEnterFrame c) l c) = binds c.
Proof.
  revert c. induction l as [|x l IH]; intros c; [reflexivity|].
  cbn [fold_left]. rewrite IH.
  destruct (onEnterFrame_cases c)
    as [E|[(t & E)|[(t & _ & _ & _ & E)|(t & _ & _ & E)]]]; rewrite E; reflexivity.
Qed.

Lemma binds_step e c :
  binds (Fixed.step e c) =
  (binds c + match e with ThemeChange _ => 2 | _ => 0 end)%nat.
Proof.
  destruct e; cbn [Fixed.step].
  - destruct (item_isPaused (lottieAnimation c)) eqn:Hp.
    + rewrite onHoverStart_paused by exact Hp. cbn. lia.
    + rewrite onHoverStart_playing by exact Hp. cbn zeta.
      destruct (isLooping c && isOutroLocked c
                && (currentFrameOf c <=? loopEndFrame c)); cbn; lia.
  - unfold Fixed.onHoverEnd.
    cbn [animationType set_isHovering].
    destruct (String.eqb (animationType c) "playAndHold").
    + rewrite resetTimeline_eq. cbn. lia.
    + cbn. lia.
  - unfold Fixed.triggerEnterFrame. rewrite binds_trigger. cbn. lia.
  - unfold Fixed.onComplete.
    cbn [lottie_removeEnterFrame called set_calls set_lottieAnimation animationType].
    destruct (String.eqb (animationType c) "playAndHold").
    + rewrite updateTimelineUI_eq. cbn. lia.
    + rewrite resetTimeline_eq.
      cbn [isHovering set_ui set_isOutroLocked set_calls set_lottieAnimation
           lottie_removeEnterFrame called].
      destruct (isHovering c).
      * rewrite updateTimelineUI_eq. cbn. lia.
      * cbn. lia.
  - unfold Fixed.onDOMLoaded. rewrite resetTimeline_eq. cbn. lia.
  - cbn. lia.
Qed.

(** X11.  In the fixed file no handler binds [onEnterFrame]: after any
    sequence of events the number of [bind] calls made is the six of the
    constructor plus two per theme change (the 'DOMLoaded' and 'complete'
    listeners of the reloaded clip). *)
Theorem fixed_file_binds_only_on_theme_change
    (w : Wrapper) (elements : Timeline) (animationData : AnimationData)
    (c0 : Card) (events : list Event) :
  Fixed.LottieCard w elements animationData = Normal c0 ->
  binds (Fixed.run events c0) = (6 + 2 * themeChanges events)%nat.
Proof.
  intros Hnew. injection Hnew as Hnew.
  assert (H0 : binds c0 = 6%nat) by (subst c0; reflexivity).
  clear Hnew. revert c0 H0.
  assert (G : forall evs c, binds (Fixed.run evs c)
                            = (binds c + 2 * themeChanges evs)%nat).
  { induction evs as [|e evs IH]; intros c; [cbn; lia|].
    cbn [Fixed.run fold_left]. fold (Fixed.run evs (Fixed.step e c)).
    rewrite IH, binds_step. destruct e; cbn [themeChanges]; lia. }
  intros c0 H0. rewrite G, H0. reflexivity.
Qed.
End Binds.

Lemma fixed_file_binds_only_on_theme_change_witness :
  Fixed.LottieCard freshWrapper freshTimeline idle = Normal (fixedCard idle) /\
  binds (after [DOMLoaded 60; ThemeChange true; DOMLoaded 60; HoverStart;
                ThemeChange false] idle) = 10%nat.
Proof.
  split; [reflexivity|].
  exact (@fixed_file_binds_only_on_theme_change EventTargetContract
           freshWrapper freshTimeline idle (fixedCard idle)
           [DOMLoaded 60; ThemeChange true; DOMLoaded 60; HoverStart;
            ThemeChange false] eq_refl).
Defined.

(** *** Registrations in the intermediate file *)

Lemma freshBelow_not_registered n l :
  freshBelow n l -> registered (boundFunction n) l = false.
Proof.
  unfold freshBelow, registered.
  induction l as [|x l IH]; intros H; [reflexivity|].
  inversion H as [|? ? (k & -> & Hk) Hl]; subst. cbn.
  rewrite (IH Hl), orb_false_r. apply Nat.eqb_neq. lia.
Qed.

Lemma freshBelow_filter n l :
  freshBelow n l ->
  filter (fun x => negb (Callback_eqb (boundFunction n) x)) l = l.
Proof.
  unfold freshBelow.
  induction l as [|x l IH]; intros H; [reflexivity|].
  inversion H as [|? ? (k & -> & Hk) Hl]; subst. cbn [filter].
  replace (Callback_eqb (boundFunction n) (boundFunction k)) with false
    by (symmetry; apply Nat.eqb_neq; lia).
  cbn [negb]. rewrite (IH Hl). reflexivity.
Qed.

Lemma freshBelow_weaken (l : list Callback) (m n : nat) :
  (m <= n)%nat -> freshBelow m l -> freshBelow n l.
Proof.
  intros Hmn H. eapply Forall_impl; [|exact H].
  intros cb (k & -> & Hk). exists k. split; [reflexivity | lia].
Qed.

Lemma freshBelow_snoc n l :
  freshBelow n l -> freshBelow (S n) (l ++ [boundFunction n]).
Proof.
  intros H. apply Forall_app. split.
  - apply (freshBelow_weaken l n); [lia | exact H].
  - constructor; [|constructor]. exists n. split; [reflexivity | lia].
Qed.

Section Registrations.
Context {contract : EngineContract}.

Lemma add_fresh n (a : AnimationItem) :
  freshBelow n (item_enterFrame a) ->
  item_enterFrame (item_addEnterFrame (boundFunction n) a)
  = item_enterFrame a ++ [boundFunction n].
Proof.
  intros H. cbn. rewrite (freshBelow_not_registered _ _ H), andb_false_r. reflexivity.
Qed.

Lemma subscriptions_trigger (l : list Callback) c :
  subscriptions (fold_left (fun c _ => Fixed.onEnterFrame c) l c) = subscriptions c
  /\ binds (fold_left (fun c _ => Fixed.onEnterFrame c) l c) = binds c.
Proof.
  revert c. induction l as [|x l IH]; intros c; [split; reflexivity|].
  cbn [fold_left]. destruct (IH (Fixed.onEnterFrame c)) as [A B]. rewrite A, B.
  destruct (onEnterFrame_cases c)
    as [E|[(t & E)|[(t & _ & _ & _ & E)|(t & _ & _ & E)]]]; rewrite E;
    split; reflexivity.
Qed.

Lemma grows_step e c : allFresh c -> grows e c (Intermediate.step e c).
Proof.
  unfold allFresh, subscriptions. intros F.
  pose proof (freshBelow_not_registered _ _ F) as R.
  pose proof (freshBelow_filter _ _ F) as D.
  pose proof (freshBelow_not_registered (S (binds c)) _
                (freshBelow_weaken _ _ _ (Nat.le_succ_diag_r _) F)) as R'.
  destruct e as [| |q| |frames|checked]; cbn [Intermediate.step grows].
  - unfold Intermediate.onHoverStart, bind_onEnterFrame.
    cbn zeta. cbv beta iota. cbn [lottieAnimation lottie_addEnterFrame set_binds
      wrapper_playing set_isHovering set_wrapper set_lottieAnimation set_calls called].
    destruct (item_isPaused _).
    + rewrite updateTimelineUI_eq. cbn. rewrite R, andb_false_r. split; reflexivity.
    + destruct (_ && _ && _); cbn; rewrite R, andb_false_r; split; reflexivity.
  - unfold Intermediate.onHoverEnd, bind_onEnterFrame.
    cbn zeta. cbv beta iota. cbn [animationType set_isHovering].
    destruct (String.eqb (animationType c) "playAndHold").
    + rewrite resetTimeline_eq. cbn -[Callback_eqb registered]. rewrite D. split; reflexivity.
    + cbn. split; reflexivity.
  - unfold Fixed.triggerEnterFrame. cbn zeta.
    destruct (subscriptions_trigger
                (item_enterFrame
                   (lottieAnimation
                      (set_lottieAnimation (item_render q (lottieAnimation c)) c)))
                (set_lottieAnimation (item_render q (lottieAnimation c)) c))
      as [A B].
    split; [exact A | exact B].
  - unfold Intermediate.onComplete, bind_onEnterFrame.
    cbn zeta. cbv beta iota.
    cbn [animationType lottie_removeEnterFrame set_binds set_lottieAnimation
         set_calls called].
    destruct (String.eqb (animationType c) "playAndHold"); cbn [negb andb].
    + rewrite updateTimelineUI_eq. cbn -[Callback_eqb registered]. rewrite D. split; reflexivity.
    + rewrite resetTimeline_eq.
      destruct (isHovering c) eqn:Eh; cbn -[Callback_eqb registered]; rewrite Eh.
      * rewrite updateTimelineUI_eq. cbn -[Callback_eqb registered]. rewrite D, R', andb_false_r.
        split; reflexivity.
      * cbn -[Callback_eqb registered]. rewrite D. split; reflexivity.
  - unfold Fixed.onDOMLoaded. rewrite resetTimeline_eq. cbn. split; reflexivity.
  - cbn. split; [reflexivity | lia].
Qed.

Lemma allFresh_step e c : allFresh c -> allFresh (Intermediate.step e c).
Proof.
  intros F. pose proof (grows_step e c F) as G. unfold allFresh in *.
  destruct e; cbn [grows] in G.
  - destruct G as [-> ->]. apply freshBelow_snoc. exact F.
  - destruct G as [-> ->]. destruct (String.eqb _ _); [|exact F].
    apply (freshBelow_weaken _ (binds c)); [lia | exact F].
  - destruct G as [-> ->]. exact F.
  - destruct (negb _ && _); destruct G as [-> ->].
    + apply (freshBelow_snoc (S (binds c))).
      apply (freshBelow_weaken _ (binds c)); [lia | exact F].
    + apply (freshBelow_weaken _ (binds c)); [lia | exact F].
  - destruct G as [-> ->]. exact F.
  - destruct G as [-> ->]. constructor.
Qed.

Lemma allFresh_run events c : allFresh c -> allFresh (Intermediate.run events c).
Proof.
  revert c. induction events as [|e events IH]; intros c F; [exact F|].
  apply IH, allFresh_step, F.
Qed.

Lemma allFresh_reachable c : Intermediate.reachable c -> allFresh c.
Proof.
  intros (w & el & d & c0 & events & Hnew & ->).
  apply allFresh_run. injection Hnew as <-. constructor.
Qed.

Lemma run_cons e events c :
  Intermediate.run (e :: events) c = Intermediate.run events (Intermediate.step e c).
Proof. reflexivity. Qed.

(** X12.  In the intermediate file a registered frame callback is never
    removed by a handler: every function passed to [removeEventListener] is
    new and matches nothing.  Between two theme changes the list of
    registrations only grows, each [HoverStart] appends one callback that
    was not registered before, on a handle of either kind; after [n]
    [HoverStart] events at least [n] more callbacks run on each frame. *)
Theorem intermediate_registrations_pile_up (c : Card) (events : list Event) :
  Intermediate.reachable c ->
  noThemeChange events = true ->
  (exists more,
     subscriptions (Intermediate.run events c) = subscriptions c ++ more /\
     (hoverStarts events <= List.length more)%nat) /\
  (forall e, (forall checked, e <> ThemeChange checked) ->
     exists more, subscriptions (Intermediate.step e c) = subscriptions c ++ more) /\
  subscriptions (Intermediate.step HoverStart c)
  = subscriptions c ++ [boundFunction (binds c)] /\
  ~ In (boundFunction (binds c)) (subscriptions c).
Proof.
  intros Hr Hn. apply allFresh_reachable in Hr.
  split; [|split; [|split]].
  - revert c Hr Hn. induction events as [|e events IH]; intros c F Hn.
    + exists []. rewrite app_nil_r. split; [reflexivity | cbn; lia].
    + rewrite run_cons.
      assert (Hn' : noThemeChange events = true) by (destruct e; try exact Hn; discriminate).
      destruct (IH _ (allFresh_step e c F) Hn') as (more & E & L).
      rewrite E. pose proof (grows_step e c F) as G.
      destruct e; cbn [grows hoverStarts] in *; try discriminate.
      * destruct G as [-> _]. rewrite <- app_assoc. eexists. split; [reflexivity|].
        cbn. lia.
      * destruct G as [-> _]. exists more. split; [reflexivity | exact L].
      * destruct G as [-> _]. exists more. split; [reflexivity | exact L].
      * destruct (negb _ && _); destruct G as [-> _].
        -- rewrite <- app_assoc. eexists. split; [reflexivity|]. cbn. lia.
        -- exists more. split; [reflexivity | exact L].
      * destruct G as [-> _]. exists more. split; [reflexivity | exact L].
  - intros e He. pose proof (grows_step e c Hr) as G.
    destruct e; cbn [grows] in G.
    + destruct G as [-> _]. eexists; reflexivity.
    + destruct G as [-> _]. exists []. rewrite app_nil_r. reflexivity.
    + destruct G as [-> _]. exists []. rewrite app_nil_r. reflexivity.
    + destruct (negb _ && _); destruct G as [-> _].
      * eexists; reflexivity.
      * exists []. rewrite app_nil_r. reflexivity.
    + destruct G as [-> _]. exists []. rewrite app_nil_r. reflexivity.
    + exfalso. exact (He _ eq_refl).
  - exact (proj1 (grows_step HoverStart c Hr)).
  - intros Hin. unfold allFresh, freshBelow in Hr.
    rewrite Forall_forall in Hr. destruct (Hr _ Hin) as (k & Ek & Hk).
    injection Ek as <-. lia.
Qed.
End Registrations.

Lemma intermediate_registrations_pile_up_witness :
  let c := @Intermediate.run EventTargetContract
             [DOMLoaded 60; HoverStart; HoverEnd; PlaybackComplete]
             (intermediateCard idle) in
  @Intermediate.reachable EventTargetContract c /\
  noThemeChange [HoverStart; HoverEnd] = true /\
  subscriptions (@Intermediate.step EventTargetContract HoverStart c)
  = subscriptions c ++ [boundFunction (binds c)] /\
  ~ In (boundFunction (binds c)) (subscriptions c).
Proof.
  cbv zeta.
  set (c := @Intermediate.run EventTargetContract
              [DOMLoaded 60; HoverStart; HoverEnd; PlaybackComplete]
              (intermediateCard idle)).
  assert (R : @Intermediate.reachable EventTargetContract c).
  { exists freshWrapper, freshTimeline, idle, (intermediateCard idle),
      [DOMLoaded 60; HoverStart; HoverEnd; PlaybackComplete].
    split; reflexivity. }
  pose proof (@intermediate_registrations_pile_up EventTargetContract c
                [HoverStart; HoverEnd] R eq_refl) as (_ & _ & A & N).
  split; [exact R|]. split; [reflexivity|]. split; [exact A | exact N].
Defined.

(** *** Freeze and continuous cards of the Hexagons file *)

Lemma hex_onEnterFrame_freeze (c : Card) :
  animationType c = "freeze"%string -> totalFrames c <> 0 ->
  exists t,
    Hexagons.onEnterFrame c =
    if isHovering c && negb (isFrozen c) && (currentFrameOf c >=? freezeFrame c)
    then wrapper_frozen_state true (set_isFrozen true (lottie_pause (set_ui t c)))
    else set_ui t c.
Proof.
  intros Htype Hload. unfold Hexagons.onEnterFrame.
  apply Z.eqb_neq in Hload. rewrite Hload.
  rewrite hex_updateTimelineUI_eq.
  unfold Hexagons.isContinuous, isLooping. cbn.
  rewrite Htype. cbn.
  exists (ui (Hexagons.updateTimelineUI (currentFrameOf c) true c)).
  destruct (isHovering c), (isFrozen c); reflexivity.
Qed.

Lemma hex_deliverFrame_frozen (c : Card) (frame : Q) :
  animationType c = "freeze"%string -> isFrozen c = true ->
  exists t,
    Hexagons.deliverFrame frame c =
    set_ui t (set_lottieAnimation (item_render frame (lottieAnimation c)) c).
Proof.
  intros Htype Hfrozen. unfold Hexagons.deliverFrame.
  set (c1 := set_lottieAnimation (item_render frame (lottieAnimation c)) c).
  destruct (Z.eq_dec (totalFrames c1) 0) as [H0|H0].
  - exists (ui c1). rewrite set_ui_same. unfold Hexagons.onEnterFrame.
    rewrite H0. reflexivity.
  - destruct (hex_onEnterFrame_freeze c1 Htype H0) as [t Ht]. rewrite Ht.
    replace (isFrozen c1) with true by (symmetry; exact Hfrozen).
    rewrite andb_false_r. cbn [andb]. exists t. reflexivity.
Qed.

Lemma hex_deliverFrames_frozen (frames : list Q) (c : Card) :
  animationType c = "freeze"%string -> isFrozen c = true ->
  let c' := Hexagons.deliverFrames frames c in
  calls c' = calls c /\ isFrozen c' = true /\ animationType c' = "freeze"%string /\
  isHovering c' = isHovering c /\ wrapper c' = wrapper c /\
  item_isPaused (lottieAnimation c') = item_isPaused (lottieAnimation c).
Proof.
  revert c. induction frames as [|frame frames IH]; intros c Htype Hfrozen.
  - cbn. repeat split; assumption.
  - cbn zeta. unfold Hexagons.deliverFrames. cbn [fold_left].
    destruct (hex_deliverFrame_frozen c frame Htype Hfrozen) as [t Ht].
    fold (Hexagons.deliverFrames frames (Hexagons.deliverFrame frame c)).
    rewrite Ht.
    specialize (IH (set_ui t (set_lottieAnimation
                                (item_render frame (lottieAnimation c)) c))
                   Htype Hfrozen).
    cbv zeta in IH. exact IH.
Qed.

Lemma hex_onHoverEnd_frozen (c : Card) :
  animationType c = "freeze"%string -> isFrozen c = true ->
  Hexagons.onHoverEnd c =
  wrapper_playing false
    (lottie_play (wrapper_frozen_state false
                    (set_isFrozen false (set_isHovering false c)))).
Proof.
  intros Htype Hfrozen. unfold Hexagons.onHoverEnd, Hexagons.isContinuous.
  rewrite Htype. cbn. rewrite Htype, Hfrozen. reflexivity.
Qed.

(** X13.  A freeze card of the Hexagons file, loaded, hovered and not yet
    frozen: a frame below [freezeFrame] makes no call; the first frame at
    or past it pauses the handle once, sets [isFrozen] and the frozen-state
    class; the frames rendered while it holds make no call; [onHoverEnd]
    then calls [play()] once and clears the flag and both classes, and the
    frames after that make no call, so the clip runs to its end. *)
Theorem freeze_card_holds_until_the_pointer_leaves
    (c : Card) (frame : Q) (held : list Q) (later : list Q) :
  animationType c = "freeze"%string ->
  totalFrames c <> 0 ->
  isHovering c = true ->
  isFrozen c = false ->
  let c1 := Hexagons.deliverFrame frame c in
  let c2 := Hexagons.deliverFrames held c1 in
  let c3 := Hexagons.onHoverEnd c2 in
  let c4 := Hexagons.deliverFrames later c3 in
  (Qfloor frame < freezeFrame c ->
     calls c1 = calls c /\ isFrozen c1 = false /\
     item_isPaused (lottieAnimation c1) = item_isPaused (lottieAnimation c) /\
     class_frozen_state (wrapper c1) = class_frozen_state (wrapper c)) /\
  (freezeFrame c <= Qfloor frame ->
     calls c1 = calls c ++ [CallPause] /\
     isFrozen c1 = true /\
     item_isPaused (lottieAnimation c1) = true /\
     class_frozen_state (wrapper c1) = true /\
     calls c2 = calls c1 /\ isFrozen c2 = true /\
     item_isPaused (lottieAnimation c2) = true /\
     class_frozen_state (wrapper c2) = true /\
     calls c3 = calls c ++ [CallPause; CallPlay] /\
     isFrozen c3 = false /\ isHovering c3 = false /\
     item_isPaused (lottieAnimation c3) = false /\
     class_frozen_state (wrapper c3) = false /\
     class_playing (wrapper c3) = false /\
     calls c4 = calls c3 /\ isFrozen c4 = false /\
     item_isPaused (lottieAnimation c4) = false).
Proof.
  intros Htype Hload Hhov Hfrozen c1 c2 c3 c4.
  set (c0 := set_lottieAnimation (item_render frame (lottieAnimation c)) c).
  destruct (hex_onEnterFrame_freeze c0 Htype Hload) as [t Ht].
  assert (E1 : c1 = if Qfloor frame >=? freezeFrame c
                    then wrapper_frozen_state true
                           (set_isFrozen true (lottie_pause (set_ui t c0)))
                    else set_ui t c0).
  { subst c1. unfold Hexagons.deliverFrame. fold c0. rewrite Ht.
    replace (isHovering c0) with true by (symmetry; exact Hhov).
    replace (isFrozen c0) with false by (symmetry; exact Hfrozen).
    reflexivity. }
  split.
  - intros Hlt. rewrite E1.
    replace (Qfloor frame >=? freezeFrame c) with false
      by (symmetry; rewrite Z.geb_leb; apply Z.leb_gt; exact Hlt).
    repeat split; try reflexivity. exact Hfrozen.
  - intros Hge.
    assert (E1' : c1 = wrapper_frozen_state true
                         (set_isFrozen true (lottie_pause (set_ui t c0)))).
    { rewrite E1.
      replace (Qfloor frame >=? freezeFrame c) with true
        by (symmetry; rewrite Z.geb_leb; apply Z.leb_le; exact Hge).
      reflexivity. }
    assert (T1 : animationType c1 = "freeze"%string) by (rewrite E1'; exact Htype).
    assert (F1 : isFrozen c1 = true) by (rewrite E1'; reflexivity).
    assert (K1 : calls c1 = calls c ++ [CallPause]) by (rewrite E1'; reflexivity).
    assert (P1 : item_isPaused (lottieAnimation c1) = true) by (rewrite E1'; reflexivity).
    assert (W1 : class_frozen_state (wrapper c1) = true) by (rewrite E1'; reflexivity).
    destruct (hex_deliverFrames_frozen held c1 T1 F1) as (K2 & F2 & T2 & H2 & W2 & P2).
    fold c2 in K2, F2, T2, H2, W2, P2.
    assert (E3 : c3 = wrapper_playing false
                        (lottie_play (wrapper_frozen_state false
                           (set_isFrozen false (set_isHovering false c2)))))
      by (subst c3; apply hex_onHoverEnd_frozen; assumption).
    assert (K3 : calls c3 = calls c ++ [CallPause; CallPlay]).
    { rewrite E3. cbn. rewrite K2, K1, <- app_assoc. reflexivity. }
    assert (T3 : animationType c3 = "freeze"%string) by (rewrite E3; exact T2).
    assert (H3 : isHovering c3 = false) by (rewrite E3; reflexivity).
    assert (F3 : isFrozen c3 = false) by (rewrite E3; reflexivity).
    assert (P3 : item_isPaused (lottieAnimation c3) = false) by (rewrite E3; reflexivity).
    destruct (hex_deliverFrames_freeze_unhovered later c3 T3 H3) as (K4 & F4 & P4).
    fold c4 in K4, F4, P4.
    do 4 (split; [assumption|]).
    split; [exact K2|]. split; [exact F2|].
    split; [rewrite P2; exact P1|].
    split; [rewrite W2; exact W1|].
    split; [exact K3|]. split; [exact F3|]. split; [exact H3|].
    split; [exact P3|].
    split; [rewrite E3; reflexivity|].
    split; [rewrite E3; reflexivity|].
    split; [exact K4|]. split; [rewrite F4; exact F3 | rewrite P4; exact P3].
Qed.

Lemma freeze_card_holds_until_the_pointer_leaves_witness :
  let c := freezePlaying in
  let c1 := Hexagons.deliverFrame 29 c in
  animationType c = "freeze"%string /\ totalFrames c <> 0 /\
  isHovering c = true /\ isFrozen c = false /\
  freezeFrame c <= Qfloor 29 /\
  calls c1 = calls c ++ [CallPause] /\ isFrozen c1 = true /\
  calls (Hexagons.onHoverEnd (Hexagons.deliverFrames [30; 31]%Q c1))
  = calls c ++ [CallPause; CallPlay].
Proof.
  cbv zeta.
  assert (T : animationType freezePlaying = "freeze"%string)
    by (vm_compute; reflexivity).
  assert (L : totalFrames freezePlaying <> 0) by (vm_compute; discriminate).
  assert (H : isHovering freezePlaying = true) by (vm_compute; reflexivity).
  assert (F : isFrozen freezePlaying = false) by (vm_compute; reflexivity).
  assert (G : freezeFrame freezePlaying <= Qfloor 29)
    by (vm_compute; discriminate).
  pose proof (proj2 (freeze_card_holds_until_the_pointer_leaves
                       freezePlaying 29 [30; 31]%Q [] T L H F) G)
    as (K1 & F1 & _ & _ & _ & _ & _ & _ & K3 & _).
  do 5 (split; [assumption|]).
  split; [exact K1|]. split; [exact F1 | exact K3].
Defined.

Section FrozenAndContinuous.
Context {contract : EngineContract}.

(** X14.  [onHoverStart] of the Hexagons file on a card that is frozen and
    paused does not seek and does not touch the timeline, but it does call
    [play()]: the handle plays on from the frame it held, [isFrozen] and
    the frozen-state class stay set, and no later frame pauses it again. *)
Theorem hover_start_on_frozen_card_resumes (c : Card) (later : list Q) :
  animationType c = "freeze"%string ->
  isFrozen c = true ->
  item_isPaused (lottieAnimation c) = true ->
  let c1 := Hexagons.onHoverStart c in
  let c2 := Hexagons.deliverFrames later c1 in
  calls c1 = calls c ++ [CallAddEnterFrame (boundOnEnterFrame c); CallPlay] /\
  item_isPaused (lottieAnimation c1) = false /\
  item_currentFrame (lottieAnimation c1) = item_currentFrame (lottieAnimation c) /\
  isFrozen c1 = true /\ isHovering c1 = true /\
  class_frozen_state (wrapper c1) = class_frozen_state (wrapper c) /\
  ui c1 = ui c /\
  calls c2 = calls c1 /\ isFrozen c2 = true /\
  item_isPaused (lottieAnimation c2) = false.
Proof.
  intros Htype Hfrozen Hpaused c1 c2.
  assert (E1 : c1 = lottie_play
                      (lottie_addEnterFrame (boundOnEnterFrame c)
                         (wrapper_playing true (set_isHovering true c)))).
  { subst c1. unfold Hexagons.onHoverStart, Hexagons.isContinuous.
    rewrite Htype. cbn. rewrite Htype, Hfrozen, Hpaused. reflexivity. }
  assert (T1 : animationType c1 = "freeze"%string) by (rewrite E1; exact Htype).
  assert (F1 : isFrozen c1 = true) by (rewrite E1; exact Hfrozen).
  destruct (hex_deliverFrames_frozen later c1 T1 F1) as (K2 & F2 & _ & _ & _ & P2).
  fold c2 in K2, F2, P2.
  split; [rewrite E1; cbn; rewrite <- app_assoc; reflexivity|].
  split; [rewrite E1; reflexivity|].
  split; [rewrite E1; reflexivity|].
  split; [exact F1|].
  split; [rewrite E1; reflexivity|].
  split; [rewrite E1; reflexivity|].
  split; [rewrite E1; reflexivity|].
  split; [exact K2|]. split; [exact F2|].
  rewrite P2, E1. reflexivity.
Qed.

Lemma hex_onEnterFrame_continuous (c : Card) :
  Hexagons.isContinuous c = true ->
  exists t, Hexagons.onEnterFrame c = set_ui t c.
Proof.
  intros Hc. unfold Hexagons.onEnterFrame.
  destruct (totalFrames c =? 0).
  - exists (ui c). rewrite set_ui_same. reflexivity.
  - rewrite hex_updateTimelineUI_eq. unfold Hexagons.isContinuous in *. cbn.
    rewrite Hc. eexists. reflexivity.
Qed.

Lemma hex_trigger_continuous (l : list Callback) (c : Card) :
  Hexagons.isContinuous c = true ->
  let c' := fold_left (fun c _ => Hexagons.onEnterFrame c) l c in
  passive c c' /\ calls c' = calls c /\
  subscriptions c' = subscriptions c.
Proof.
  revert c. induction l as [|x l IH]; intros c Hc.
  - cbn. unfold passive. repeat split; reflexivity.
  - cbn [fold_left]. destruct (hex_onEnterFrame_continuous c Hc) as [t Ht].
    rewrite Ht. apply (IH (set_ui t c)). exact Hc.
Qed.

Lemma hex_step_continuous (e : Event) (c : Card) :
  Hexagons.isContinuous c = true ->
  let c' := Hexagons.step e c in
  passive c c' /\
  calls c' = calls c ++ match e with
                        | DOMLoaded _ => [CallAddEnterFrame (boundOnEnterFrame c)]
                        | _ => []
                        end.
Proof.
  intros Hc. destruct e as [| |q| |frames|checked]; cbn [Hexagons.step]; try rewrite Hc;
    cbv zeta; rewrite ?app_nil_r;
    try (unfold passive; repeat split; reflexivity).
  - unfold Hexagons.triggerEnterFrame. cbv zeta.
    destruct (hex_trigger_continuous
                (item_enterFrame
                   (lottieAnimation
                      (set_lottieAnimation (item_render q (lottieAnimation c)) c)))
                (set_lottieAnimation (item_render q (lottieAnimation c)) c) Hc)
      as (P & K & _).
    split; [exact P | exact K].
  - unfold Hexagons.onDOMLoaded. unfold Hexagons.isContinuous in *. cbn.
    rewrite Hc. cbn. rewrite Hc. cbn.
    unfold passive. repeat split; reflexivity.
Qed.

(** X15.  A continuous card of the Hexagons file never hovers, freezes,
    locks, seeks, pauses or plays: after any sequence of events its flags
    and the play state of its handle are unchanged, and the only calls made
    are the registrations of the stored callback, one per load. *)
Theorem continuous_card_is_passive (c : Card) (events : list Event) :
  Hexagons.isContinuous c = true ->
  let c' := Hexagons.run events c in
  animationType c' = animationType c /\
  isHovering c' = isHovering c /\
  isFrozen c' = isFrozen c /\
  isOutroLocked c' = isOutroLocked c /\
  item_isPaused (lottieAnimation c') = item_isPaused (lottieAnimation c) /\
  calls c' = calls c ++ repeat (CallAddEnterFrame (boundOnEnterFrame c)) (loads events).
Proof.
  revert c. induction events as [|e events IH]; intros c Hc.
  - cbn. rewrite app_nil_r. repeat split; reflexivity.
  - cbv zeta. change (Hexagons.run (e :: events) c)
      with (Hexagons.run events (Hexagons.step e c)).
    destruct (hex_step_continuous e c Hc) as ((A & B & C & D & E & F) & K).
    assert (Hc' : Hexagons.isContinuous (Hexagons.step e c) = true)
      by (unfold Hexagons.isContinuous in *; rewrite A; exact Hc).
    destruct (IH _ Hc') as (A' & C' & D' & E' & F' & K').
    rewrite A', C', D', E', F', K', A, B, C, D, E, F, K, <- app_assoc.
    do 5 (split; [reflexivity|]).
    destruct e; reflexivity.
Qed.
End FrozenAndContinuous.

Lemma continuous_card_is_passive_witness :
  let c := hexagonsCard inwardLoader in
  let c' := @Hexagons.run EventTargetContract
              [DOMLoaded 120; HoverStart; FrameAdvanced 5; HoverEnd;
               PlaybackComplete; FrameAdvanced 6] c in
  Hexagons.isContinuous c = true /\
  isHovering c' = false /\
  item_isPaused (lottieAnimation c') = false /\
  calls c' = calls c ++ [CallAddEnterFrame (boundOnEnterFrame c)].
Proof.
  cbv zeta.
  pose proof (@continuous_card_is_passive EventTargetContract
                (hexagonsCard inwardLoader)
                [DOMLoaded 120; HoverStart; FrameAdvanced 5; HoverEnd;
                 PlaybackComplete; FrameAdvanced 6] eq_refl)
    as (_ & H & _ & _ & P & K).
  split; [reflexivity|]. split; [exact H|]. split; [exact P | exact K].
Defined.

Lemma hover_start_on_frozen_card_resumes_witness :
  let c := Hexagons.deliverFrame 29 freezePlaying in
  let c1 := @Hexagons.onHoverStart EventTargetContract c in
  animationType c = "freeze"%string /\ isFrozen c = true /\
  item_isPaused (lottieAnimation c) = true /\
  calls c1 = calls c ++ [CallAddEnterFrame (boundOnEnterFrame c); CallPlay] /\
  item_isPaused (lottieAnimation c1) = false /\ isFrozen c1 = true.
Proof.
  cbv zeta. set (c := Hexagons.deliverFrame 29 freezePlaying).
  assert (T : animationType c = "freeze"%string) by (vm_compute; reflexivity).
  assert (F : isFrozen c = true) by (vm_compute; reflexivity).
  assert (P : item_isPaused (lottieAnimation c) = true)
    by (vm_compute; reflexivity).
  pose proof (@hover_start_on_frozen_card_resumes EventTargetContract c [] T F P)
    as (K & P1 & _ & F1 & _).
  do 3 (split; [assumption|]).
  split; [exact K|]. split; [exact P1 | exact F1].
Defined.

(** *** The Hexagons file and the fixed file on playOnce cards *)

Lemma hex_updateTimelineUI_simple f p c :
  isLooping c = false ->
  Hexagons.updateTimelineUI f p c = Fixed.updateTimelineUI f p c.
Proof.
  intros H. unfold Hexagons.updateTimelineUI, Fixed.updateTimelineUI, isLooping in *.
  cbn. destruct (totalFrames c =? 0); [reflexivity|].
  rewrite H. cbn. rewrite H. reflexivity.
Qed.

Lemma hex_resetTimeline_simple c :
  isLooping c = false -> Hexagons.resetTimeline c = Fixed.resetTimeline c.
Proof.
  intros H. unfold Hexagons.resetTimeline, Fixed.resetTimeline.
  rewrite H. apply hex_updateTimelineUI_simple. exact H.
Qed.

Lemma playOnce_kind c :
  animationType c = "playOnce"%string ->
  isLooping c = false /\ Hexagons.isContinuous c = false /\
  String.eqb (animationType c) "freeze" = false /\
  String.eqb (animationType c) "playAndHold" = false.
Proof.
  intros H. unfold isLooping, Hexagons.isContinuous. rewrite H.
  repeat split; reflexivity.
Qed.

Lemma unfreeze_unfrozen c :
  unfrozen c -> wrapper_frozen_state false (set_isFrozen false c) = c.
Proof.
  intros [A B]. destruct c as [? ? ? ? ? ? ? ? ? ? ? [? ? ?] ? ? ?].
  cbn in *. subst. reflexivity.
Qed.

Lemma hex_onEnterFrame_playOnce c :
  animationType c = "playOnce"%string ->
  Hexagons.onEnterFrame c = Fixed.onEnterFrame c.
Proof.
  intros H. destruct (playOnce_kind c H) as (L & K & Z & _).
  unfold Hexagons.onEnterFrame, Fixed.onEnterFrame.
  destruct (totalFrames c =? 0); [reflexivity|].
  rewrite hex_updateTimelineUI_simple by exact L.
  rewrite updateTimelineUI_eq.
  unfold Hexagons.isContinuous, isLooping in *. cbn.
  rewrite K, L, Z. reflexivity.
Qed.

Section PlayOnceStep.
Context {contract : EngineContract}.

Lemma hex_step_playOnce (e : Event) (c : Card) :
  animationType c = "playOnce"%string -> unfrozen c ->
  (forall checked, e <> ThemeChange checked) ->
  Hexagons.step e c = Fixed.step e c.
Proof.
  intros H U He. destruct (playOnce_kind c H) as (L & K & Z & P).
  destruct e as [| |q| |frames|checked]; cbn [Hexagons.step Fixed.step]; rewrite ?K.
  - unfold Hexagons.onHoverStart, Fixed.onHoverStart. rewrite K.
    cbn zeta.
    cbn [animationType isFrozen lottie_addEnterFrame wrapper_playing set_isHovering
         set_wrapper set_lottieAnimation set_calls called lottieAnimation
         item_isPaused item_addEnterFrame].
    rewrite Z. cbn [andb].
    destruct (item_isPaused (lottieAnimation c)); [|reflexivity].
    rewrite hex_updateTimelineUI_simple by exact L. reflexivity.
  - unfold Hexagons.onHoverEnd, Fixed.onHoverEnd. rewrite K. cbn zeta.
    cbn [animationType set_isHovering]. rewrite Z, P.
    unfold isLooping in *. cbn [animationType set_isHovering]. rewrite L. reflexivity.
  - unfold Hexagons.triggerEnterFrame, Fixed.triggerEnterFrame. cbv zeta.
    set (c1 := set_lottieAnimation (item_render q (lottieAnimation c)) c).
    assert (H1 : animationType c1 = "playOnce"%string) by exact H.
    clearbody c1. generalize (item_enterFrame (lottieAnimation c1)) as l.
    intros l. revert c1 H1. induction l as [|x l IH]; intros c1 H1; [reflexivity|].
    cbn [fold_left]. rewrite hex_onEnterFrame_playOnce by exact H1.
    apply IH.
    destruct (totalFrames c1 =? 0) eqn:E0; unfold Fixed.onEnterFrame; rewrite E0;
      [exact H1|].
    rewrite updateTimelineUI_eq. unfold isLooping. cbn. rewrite H1. exact H1.
  - unfold Hexagons.onComplete, Fixed.onComplete. rewrite K. cbn zeta.
    cbn [animationType lottie_removeEnterFrame set_lottieAnimation set_calls called].
    rewrite P.
    set (c1 := set_isOutroLocked false
                 (lottie_removeEnterFrame (boundOnEnterFrame c) c)).
    assert (U1 : unfrozen c1) by exact U.
    replace (set_isOutroLocked false
               (called (CallRemoveEnterFrame (boundOnEnterFrame c))
                  (set_lottieAnimation
                     (item_removeEnterFrame (boundOnEnterFrame c) (lottieAnimation c))
                     c))) with c1 by reflexivity.
    replace (wrapper_frozen_state false (set_isFrozen false c1)) with c1
      by (symmetry; apply unfreeze_unfrozen; exact U1).
    assert (L1 : isLooping c1 = false) by exact L.
    rewrite hex_resetTimeline_simple by exact L1.
    destruct (isHovering (Fixed.resetTimeline c1)); [|reflexivity].
    apply hex_updateTimelineUI_simple.
    rewrite resetTimeline_eq. exact L1.
  - unfold Hexagons.onDOMLoaded, Fixed.onDOMLoaded. cbn zeta.
    unfold Hexagons.isContinuous in *.
    cbn [animationType set_totalFrames lottie_goToAndStop set_lottieAnimation
         set_calls called].
    rewrite K. cbn [negb].
    change (animationType (lottie_goToAndStop 0
              (set_totalFrames
                 (Qfloor (item_totalFrames (lottieAnimation
                    (set_lottieAnimation (item_loaded frames (lottieAnimation c)) c))))
                 (set_lottieAnimation (item_loaded frames (lottieAnimation c)) c))))
      with (animationType c).
    rewrite K. cbn [negb].
    apply hex_resetTimeline_simple. exact L.
  - exfalso. exact (He _ eq_refl).
Qed.
End PlayOnceStep.

Section PlayOnceRun.
Context {contract : EngineContract}.

Lemma playOnce_step_kept (e : Event) (c : Card) :
  animationType c = "playOnce"%string -> unfrozen c ->
  animationType (Fixed.step e c) = "playOnce"%string /\ unfrozen (Fixed.step e c).
Proof.
  intros H U. destruct (playOnce_kind c H) as (L & K & Z & P).
  destruct e as [| |q| |frames|checked]; cbn [Fixed.step].
  - destruct (item_isPaused (lottieAnimation c)) eqn:Hp.
    + rewrite onHoverStart_paused by exact Hp. split; [exact H | exact U].
    + rewrite onHoverStart_playing by exact Hp. cbn zeta. rewrite L. cbn [andb].
      split; [exact H | exact U].
  - unfold Fixed.onHoverEnd. cbn [animationType set_isHovering]. rewrite P.
    split; [exact H | exact U].
  - unfold Fixed.triggerEnterFrame. cbv zeta.
    set (c1 := set_lottieAnimation (item_render q (lottieAnimation c)) c).
    assert (H1 : animationType c1 = "playOnce"%string) by exact H.
    assert (U1 : unfrozen c1) by exact U.
    clearbody c1. generalize (item_enterFrame (lottieAnimation c1)) as l.
    intros l. revert c1 H1 U1. induction l as [|x l IH]; intros c1 H1 U1;
      [split; assumption|].
    cbn [fold_left]. apply IH.
    + destruct (totalFrames c1 =? 0) eqn:E0; unfold Fixed.onEnterFrame; rewrite E0;
        [exact H1|].
      rewrite updateTimelineUI_eq. unfold isLooping. cbn. rewrite H1. exact H1.
    + destruct (totalFrames c1 =? 0) eqn:E0; unfold Fixed.onEnterFrame; rewrite E0;
        [exact U1|].
      rewrite updateTimelineUI_eq. unfold isLooping. cbn. rewrite H1. exact U1.
  - unfold Fixed.onComplete.
    cbn [animationType lottie_removeEnterFrame set_lottieAnimation set_calls called].
    rewrite P. rewrite resetTimeline_eq.
    match goal with |- context [if ?b then _ else _] => destruct b end.
    + rewrite updateTimelineUI_eq. split; [exact H | exact U].
    + split; [exact H | exact U].
  - unfold Fixed.onDOMLoaded. rewrite resetTimeline_eq. split; [exact H | exact U].
  - split; [exact H | exact U].
Qed.

(** X16.  On a playOnce card that is not frozen, the Hexagons file and the
    fixed file are the same controller: for every sequence of events
    without a theme change (the Hexagons page has no toggle) the two leave
    the card, the handle, the timeline and the trace of calls equal. *)
Theorem hexagons_and_fixed_agree_on_playOnce (c : Card) (events : list Event) :
  animationType c = "playOnce"%string ->
  isFrozen c = false ->
  class_frozen_state (wrapper c) = false ->
  noThemeChange events = true ->
  Hexagons.run events c = Fixed.run events c.
Proof.
  intros H F W. assert (U : unfrozen c) by (split; assumption). clear F W.
  revert c H U. induction events as [|e events IH]; intros c H U Hn; [reflexivity|].
  change (Hexagons.run (e :: events) c)
    with (Hexagons.run events (Hexagons.step e c)).
  change (Fixed.run (e :: events) c) with (Fixed.run events (Fixed.step e c)).
  assert (He : forall checked, e <> ThemeChange checked)
    by (intros checked ->; discriminate).
  assert (Hn' : noThemeChange events = true) by (destruct e; try exact Hn; discriminate).
  rewrite hex_step_playOnce by assumption.
  destruct (playOnce_step_kept e c H U) as [H' U'].
  apply IH; assumption.
Qed.
End PlayOnceRun.

Lemma hexagons_and_fixed_agree_on_playOnce_witness :
  let c := hexagonsCard plainClip in
  let events := [DOMLoaded 60; HoverStart; FrameAdvanced 10; HoverEnd;
                 FrameAdvanced 59; PlaybackComplete] in
  animationType c = "playOnce"%string /\ isFrozen c = false /\
  class_frozen_state (wrapper c) = false /\
  @Hexagons.run EventTargetContract events c
  = @Fixed.run EventTargetContract events c.
Proof.
  cbv zeta.
  do 3 (split; [reflexivity|]).
  exact (@hexagons_and_fixed_agree_on_playOnce EventTargetContract
           (hexagonsCard plainClip)
           [DOMLoaded 60; HoverStart; FrameAdvanced 10; HoverEnd;
            FrameAdvanced 59; PlaybackComplete]
           eq_refl eq_refl eq_refl eq_refl).
Defined.

(** *** File names and the grid *)

Section FileNames.
Import FileName.
Local Open Scope string_scope.

Lemma toLowerCase_app (a b : string) :
  toLowerCase (a ++ b) = toLowerCase a ++ toLowerCase b.
Proof. induction a as [|x a IH]; cbn; [reflexivity | rewrite IH; reflexivity]. Qed.

Lemma toLowerCase_length (a : string) :
  String.length (toLowerCase a) = String.length a.
Proof. induction a as [|x a IH]; cbn; [reflexivity | rewrite IH; reflexivity]. Qed.

Lemma startsWith_app (p rest : string) : startsWith p (p ++ rest) = true.
Proof.
  induction p as [|x p IH]; cbn; [reflexivity|].
  rewrite Ascii.eqb_refl, IH. reflexivity.
Qed.

Lemma startsWith_prefix (p q rest : string) :
  startsWith (p ++ q) rest = true -> startsWith p rest = true.
Proof.
  revert rest. induction p as [|x p IH]; intros rest; cbn; [reflexivity|].
  destruct rest as [|y rest]; [discriminate|].
  intros H. apply andb_true_iff in H as [A B]. rewrite A. cbn. apply IH, B.
Qed.

Lemma includes_here (sub s : string) :
  startsWith sub s = true -> includes sub s = true.
Proof. intros H. destruct s; cbn in *; rewrite H; reflexivity. Qed.

Lemma includes_app_r (sub a b : string) :
  includes sub b = true -> includes sub (a ++ b) = true.
Proof.
  intros H. induction a as [|x a IH]; [exact H|].
  cbn. rewrite IH. apply orb_true_r.
Qed.

Lemma includes_tail (sub : string) (x : ascii) (s : string) :
  includes sub (String x s) = false -> includes sub s = false.
Proof. cbn. intros H. apply orb_false_iff in H as [_ H]. exact H. Qed.

Lemma drop_app (w rest : string) : drop (String.length w) (w ++ rest) = rest.
Proof. induction w as [|x w IH]; cbn; [destruct rest; reflexivity | exact IH]. Qed.

Lemma spanDigits_app (d rest : string) :
  allDigits d = true -> noLeadingDigit rest = true ->
  spanDigits (d ++ rest) = (d, rest).
Proof.
  intros Hd Hr. induction d as [|x d IH].
  - destruct rest as [|y rest]; [reflexivity|].
    cbn in *. apply negb_true_iff in Hr. rewrite Hr. reflexivity.
  - cbn in Hd. apply andb_true_iff in Hd as [Hx Hd].
    cbn [append spanDigits]. rewrite Hx, (IH Hd). reflexivity.
Qed.

Lemma spanDigits_spec (s : string) :
  allDigits (fst (spanDigits s)) = true /\
  noLeadingDigit (snd (spanDigits s)) = true /\
  s = fst (spanDigits s) ++ snd (spanDigits s).
Proof.
  induction s as [|x s (A & B & C)]; [repeat split|].
  cbn [spanDigits]. destruct (isDigit x) eqn:Hx.
  - destruct (spanDigits s) as [run rest]. cbn in *.
    rewrite Hx, A. repeat split; [exact B | congruence].
  - cbn. rewrite Hx. repeat split.
Qed.

Lemma parseDigits_nonneg (run : string) (acc : Z) :
  allDigits run = true -> 0 <= acc -> 0 <= parseDigits acc run.
Proof.
  revert acc. induction run as [|x run IH]; intros acc Hd Ha; [exact Ha|].
  cbn in Hd. apply andb_true_iff in Hd as [Hx Hd].
  cbn [parseDigits]. apply IH; [exact Hd|].
  unfold isDigit in Hx. apply andb_true_iff in Hx as [Hx _].
  apply Nat.leb_le in Hx. lia.
Qed.

Lemma parseInt_nonneg (run : string) : allDigits run = true -> 0 <= parseInt run.
Proof. intros H. apply parseDigits_nonneg; [exact H | lia]. Qed.

Ltac read_chars E :=
  cbn [startsWith append] in E;
  repeat (apply andb_true_iff in E; destruct E as [? E]);
  repeat match goal with
         | H : Ascii.eqb _ _ = true |- _ => apply Ascii.eqb_eq in H
         end;
  try discriminate; subst.

(** The word does not start in a prefix that does not hold it and run on
    into a second copy. *)
Lemma loop_no_overlap (x : ascii) (lp rest : string) :
  includes "loop" (String x lp) = false ->
  startsWith "loop-" (String x lp ++ "loop-" ++ rest) = false.
Proof.
  intros H.
  destruct (startsWith "loop-" (String x lp ++ "loop-" ++ rest)) eqn:E; [|reflexivity].
  exfalso.
  destruct lp as [|b [|c [|d lp]]]; read_chars E.
  cbn [includes startsWith] in H. rewrite !Ascii.eqb_refl in H. discriminate H.
Qed.

Lemma freeze_no_overlap (x : ascii) (lp rest : string) :
  includes "freeze" (String x lp) = false ->
  startsWith "freeze-" (String x lp ++ "freeze-" ++ rest) = false.
Proof.
  intros H.
  destruct (startsWith "freeze-" (String x lp ++ "freeze-" ++ rest)) eqn:E;
    [|reflexivity].
  exfalso.
  destruct lp as [|b [|c [|d [|e [|f lp]]]]]; read_chars E.
  cbn [includes startsWith] in H. rewrite !Ascii.eqb_refl in H. discriminate H.
Qed.

Lemma matchLoop_after (pre w rest : string) :
  toLowerCase w = "loop-" ->
  includes "loop" (toLowerCase pre) = false ->
  matchLoop (pre ++ w ++ rest) = matchLoop (w ++ rest).
Proof.
  intros Hw. induction pre as [|x pre IH]; intros H; [reflexivity|].
  cbn [append matchLoop].
  assert (N : matchLoopHere (String x (pre ++ w ++ rest)) = None).
  { unfold matchLoopHere.
    change (String x (pre ++ w ++ rest)) with (String x pre ++ w ++ rest).
    rewrite !toLowerCase_app, Hw.
    change (toLowerCase (String x pre))
      with (String (lowerChar x) (toLowerCase pre)) in *.
    rewrite loop_no_overlap by exact H. reflexivity. }
  rewrite N. apply IH. exact (includes_tail _ _ _ H).
Qed.

Lemma matchFreeze_after (pre w rest : string) :
  toLowerCase w = "freeze-" ->
  includes "freeze" (toLowerCase pre) = false ->
  matchFreeze (pre ++ w ++ rest) = matchFreeze (w ++ rest).
Proof.
  intros Hw. induction pre as [|x pre IH]; intros H; [reflexivity|].
  cbn [append matchFreeze].
  assert (N : matchFreezeHere (String x (pre ++ w ++ rest)) = None).
  { unfold matchFreezeHere.
    change (String x (pre ++ w ++ rest)) with (String x pre ++ w ++ rest).
    rewrite !toLowerCase_app, Hw.
    change (toLowerCase (String x pre))
      with (String (lowerChar x) (toLowerCase pre)) in *.
    rewrite freeze_no_overlap by exact H. reflexivity. }
  rewrite N. apply IH. exact (includes_tail _ _ _ H).
Qed.

Lemma nonempty_digits (d : string) :
  d <> "" -> exists a run, d = String a run.
Proof. destruct d as [|a run]; [congruence | eauto]. Qed.

Lemma matchLoop_here (w d1 d2 post : string) :
  toLowerCase w = "loop-" ->
  d1 <> "" -> allDigits d1 = true ->
  d2 <> "" -> allDigits d2 = true ->
  noLeadingDigit post = true ->
  matchLoop (w ++ d1 ++ "-" ++ d2 ++ post) = Some (parseInt d1, parseInt d2).
Proof.
  intros Hw N1 D1 N2 D2 Hp.
  assert (Lw : String.length w = 5%nat)
    by (rewrite <- toLowerCase_length, Hw; reflexivity).
  assert (E : matchLoopHere (w ++ d1 ++ "-" ++ d2 ++ post)
              = Some (parseInt d1, parseInt d2)).
  { unfold matchLoopHere.
    rewrite toLowerCase_app, Hw, startsWith_app.
    change 5%nat with (String.length "loop-"). rewrite <- Hw, toLowerCase_length.
    rewrite drop_app.
    rewrite (spanDigits_app d1 ("-" ++ d2 ++ post) D1 eq_refl).
    destruct (nonempty_digits d1 N1) as (a & run1 & ->).
    cbn [append]. rewrite (spanDigits_app d2 post D2 Hp).
    destruct (nonempty_digits d2 N2) as (b & run2 & ->).
    reflexivity. }
  destruct (w ++ d1 ++ "-" ++ d2 ++ post); cbn [matchLoop]; rewrite E; reflexivity.
Qed.

Lemma matchFreeze_here (w d post : string) :
  toLowerCase w = "freeze-" ->
  d <> "" -> allDigits d = true ->
  noLeadingDigit post = true ->
  matchFreeze (w ++ d ++ post) = Some (parseInt d).
Proof.
  intros Hw N1 D1 Hp.
  assert (E : matchFreezeHere (w ++ d ++ post) = Some (parseInt d)).
  { unfold matchFreezeHere.
    rewrite toLowerCase_app, Hw, startsWith_app.
    change 7%nat with (String.length "freeze-"). rewrite <- Hw, toLowerCase_length.
    rewrite drop_app.
    rewrite (spanDigits_app d post D1 Hp).
    destruct (nonempty_digits d N1) as (a & run1 & ->).
    reflexivity. }
  destruct (w ++ d ++ post); cbn [matchFreeze]; rewrite E; reflexivity.
Qed.

(** X17.  The Hexagons file reads the loop bounds back from a file name:
    for an entry without [animationType] whose name is [pre], then "Loop-"
    in any case, a run of digits, "-", a second run of digits, and a rest
    that does not begin with a digit, where [pre] does not contain "loop",
    [parseAnimationProps] assigns the kind loop and the two numbers. *)
Theorem loop_file_name_is_read_back
    (animationData : AnimationData) (pre w d1 d2 post : string) :
  noOverride animationData ->
  fileName animationData = pre ++ w ++ d1 ++ "-" ++ d2 ++ post ->
  toLowerCase w = "loop-" ->
  includes "loop" (toLowerCase pre) = false ->
  d1 <> "" -> allDigits d1 = true ->
  d2 <> "" -> allDigits d2 = true ->
  noLeadingDigit post = true ->
  parseAnimationProps animationData =
  {| parsed_animationType := "loop";
     parsed_loopFrames := Some (parseInt d1, parseInt d2);
     parsed_freezeFrame := None |}.
Proof.
  intros Ho Hn Hw Hpre N1 D1 N2 D2 Hp.
  unfold parseAnimationProps.
  assert (O : match cfg_animationType animationData with
              | Some s => if String.eqb s "" then None else Some s
              | None => None
              end = None) by (destruct Ho as [-> | ->]; reflexivity).
  rewrite O. cbv zeta. rewrite Hn.
  assert (I : includes "loop"
                (toLowerCase (pre ++ w ++ d1 ++ "-" ++ d2 ++ post)) = true).
  { rewrite toLowerCase_app. apply includes_app_r.
    rewrite toLowerCase_app, Hw. apply includes_here.
    apply (startsWith_prefix "loop" "-"). apply startsWith_app. }
  rewrite I, matchLoop_after, matchLoop_here by assumption. reflexivity.
Qed.

Lemma loop_file_name_is_read_back_witness :
  noOverride suckInLoop /\
  parseAnimationProps suckInLoop =
  {| parsed_animationType := "loop";
     parsed_loopFrames := Some (25, 62);
     parsed_freezeFrame := None |}.
Proof.
  assert (O : noOverride suckInLoop) by (left; reflexivity).
  assert (N1 : "25" <> "") by discriminate.
  assert (N2 : "62" <> "") by discriminate.
  split; [exact O|].
  exact (loop_file_name_is_read_back suckInLoop
           "From Center Purple Shapes Suck In " "Loop-" "25" "62" ".json"
           O eq_refl eq_refl eq_refl N1 eq_refl N2 eq_refl eq_refl).
Defined.

(** X18.  The same for "Freeze-" and one run of digits, in a name that
    does not contain "loop" (a name that does is a loop card, whatever
    follows "Freeze-"). *)
Theorem freeze_file_name_is_read_back
    (animationData : AnimationData) (pre w d post : string) :
  noOverride animationData ->
  fileName animationData = pre ++ w ++ d ++ post ->
  toLowerCase w = "freeze-" ->
  includes "loop" (toLowerCase (fileName animationData)) = false ->
  includes "freeze" (toLowerCase pre) = false ->
  d <> "" -> allDigits d = true ->
  noLeadingDigit post = true ->
  parseAnimationProps animationData =
  {| parsed_animationType := "freeze";
     parsed_loopFrames := None;
     parsed_freezeFrame := Some (parseInt d) |}.
Proof.
  intros Ho Hn Hw Hl Hpre N1 D1 Hp.
  unfold parseAnimationProps.
  assert (O : match cfg_animationType animationData with
              | Some s => if String.eqb s "" then None else Some s
              | None => None
              end = None) by (destruct Ho as [-> | ->]; reflexivity).
  rewrite O. cbv zeta. rewrite Hl. rewrite Hn.
  assert (I : includes "freeze" (toLowerCase (pre ++ w ++ d ++ post)) = true).
  { rewrite toLowerCase_app. apply includes_app_r.
    rewrite toLowerCase_app, Hw. apply includes_here.
    apply (startsWith_prefix "freeze" "-"). apply startsWith_app. }
  rewrite I, matchFreeze_after, matchFreeze_here by assumption. reflexivity.
Qed.

Lemma freeze_file_name_is_read_back_witness :
  noOverride explosionFreezeEntry /\
  parseAnimationProps explosionFreezeEntry =
  {| parsed_animationType := "freeze";
     parsed_loopFrames := None;
     parsed_freezeFrame := Some 29 |}.
Proof.
  assert (O : noOverride explosionFreezeEntry) by (left; reflexivity).
  assert (N1 : "29" <> "") by discriminate.
  split; [exact O|].
  exact (freeze_file_name_is_read_back explosionFreezeEntry
           "From Center Purple Shapes Explosion " "Freeze-" "29" ".json"
           O eq_refl eq_refl eq_refl eq_refl N1 eq_refl eq_refl).
Defined.

Lemma matchLoopHere_nonneg (s : string) (a b : Z) :
  matchLoopHere s = Some (a, b) -> 0 <= a /\ 0 <= b.
Proof.
  unfold matchLoopHere. destruct (startsWith "loop-" (toLowerCase s)); [|discriminate].
  destruct (spanDigits_spec (drop 5 s)) as (A & _ & _).
  destruct (spanDigits (drop 5 s)) as [run1 after1]. cbn [fst snd] in A.
  destruct run1 as [|x run1]; [discriminate|].
  destruct after1 as [|y after1]; [discriminate|].
  destruct (Ascii.eqb_spec y "-") as [->|Hy].
  2: { destruct y as [[] [] [] [] [] [] [] []]; try discriminate. congruence. }
  destruct (spanDigits_spec after1) as (B & _ & _).
  destruct (spanDigits after1) as [run2 after2]. cbn [fst snd] in B.
  destruct run2 as [|z run2]; [discriminate|].
  intros H. injection H as <- <-.
  split; apply parseInt_nonneg; assumption.
Qed.

Lemma matchLoop_nonneg (s : string) (a b : Z) :
  matchLoop s = Some (a, b) -> 0 <= a /\ 0 <= b.
Proof.
  induction s as [|x s IH]; cbn [matchLoop].
  - destruct (matchLoopHere "") as [[a' b']|] eqn:E; [|discriminate].
    intros H. injection H as <- <-. exact (matchLoopHere_nonneg _ _ _ E).
  - destruct (matchLoopHere (String x s)) as [[a' b']|] eqn:E; [|exact IH].
    intros H. injection H as <- <-. exact (matchLoopHere_nonneg _ _ _ E).
Qed.

Lemma matchFreezeHere_nonneg (s : string) (f : Z) :
  matchFreezeHere s = Some f -> 0 <= f.
Proof.
  unfold matchFreezeHere.
  destruct (startsWith "freeze-" (toLowerCase s)); [|discriminate].
  destruct (spanDigits_spec (drop 7 s)) as (A & _ & _).
  destruct (spanDigits (drop 7 s)) as [run1 after1]. cbn [fst snd] in A.
  destruct run1 as [|x run1]; [discriminate|].
  intros H. injection H as <-. apply parseInt_nonneg. exact A.
Qed.

Lemma matchFreeze_nonneg (s : string) (f : Z) :
  matchFreeze s = Some f -> 0 <= f.
Proof.
  induction s as [|x s IH]; cbn [matchFreeze].
  - destruct (matchFreezeHere "") as [f'|] eqn:E; [|discriminate].
    intros H. injection H as <-. exact (matchFreezeHere_nonneg _ _ E).
  - destruct (matchFreezeHere (String x s)) as [f'|] eqn:E; [|exact IH].
    intros H. injection H as <-. exact (matchFreezeHere_nonneg _ _ E).
Qed.

(** X19.  Whatever the entry, the frame numbers [parseAnimationProps] of
    the Hexagons file assigns are not negative; loop bounds are assigned
    only with the kind loop and a freeze frame only with the kind freeze,
    never both, and a freeze frame only for a name without "loop". *)
Theorem file_name_frames_are_never_negative (animationData : AnimationData) :
  let p := parseAnimationProps animationData in
  (forall a b, parsed_loopFrames p = Some (a, b) ->
     0 <= a /\ 0 <= b /\ parsed_animationType p = "loop" /\
     parsed_freezeFrame p = None) /\
  (forall f, parsed_freezeFrame p = Some f ->
     0 <= f /\ parsed_animationType p = "freeze" /\
     parsed_loopFrames p = None /\
     includes "loop" (toLowerCase (fileName animationData)) = false).
Proof.
  cbv zeta. unfold parseAnimationProps.
  destruct (match cfg_animationType animationData with
            | Some s => if String.eqb s "" then None else Some s
            | None => None
            end) as [kind|].
  - split; intros; discriminate.
  - cbv zeta.
    destruct (includes "loop" (toLowerCase (fileName animationData))).
    + split; [|intros; discriminate].
      cbn. intros a b H.
      destruct (matchLoop (fileName animationData)) as [[a' b']|] eqn:E.
      * injection H as <- <-. destruct (matchLoop_nonneg _ _ _ E).
        repeat split; assumption.
      * injection H as <- <-. repeat split; lia.
    + destruct (includes "freeze" (toLowerCase (fileName animationData))).
      * split; [intros; discriminate|].
        cbn. intros f H.
        destruct (matchFreeze (fileName animationData)) as [f'|] eqn:E.
        -- injection H as <-. pose proof (matchFreeze_nonneg _ _ E).
           repeat split; assumption.
        -- injection H as <-. repeat split; lia.
      * split; intros; discriminate.
Qed.

Lemma file_name_frames_are_never_negative_witness :
  parsed_loopFrames (parseAnimationProps suckInLoop) = Some (25, 62) /\
  0 <= 25 /\ 0 <= 62 /\
  parsed_freezeFrame (parseAnimationProps suckInLoop) = None.
Proof.
  split; [reflexivity|].
  destruct (proj1 (file_name_frames_are_never_negative suckInLoop)
              25 62 eq_refl) as (A & B & _ & C).
  split; [exact A|]. split; [exact B | exact C].
Defined.

Lemma sanitize_char (a : ascii) :
  let b := if isLetterOrDigit a then a else "-"%char in
  (isLetterOrDigit b || Ascii.eqb b "-") = true /\
  (if isLetterOrDigit b then b else "-"%char) = b.
Proof.
  cbv zeta. destruct (isLetterOrDigit a) eqn:E.
  - rewrite E. split; reflexivity.
  - split; reflexivity.
Qed.

(** X20.  The part of the container id that [populateGrid] of the fixed
    file derives from the file name consists of ASCII letters, digits and
    hyphens, has the length of the name, is unchanged by a second
    replacement, and equals the name exactly when the name has no other
    character. *)
Theorem container_id_is_made_of_letters_digits_and_hyphens (name : string) :
  Grid.idSafe (Grid.sanitize name) = true /\
  String.length (Grid.sanitize name) = String.length name /\
  Grid.sanitize (Grid.sanitize name) = Grid.sanitize name /\
  (Grid.sanitize name = name <-> Grid.idSafe name = true).
Proof.
  induction name as [|a name (A & B & C & D)]; [repeat split; reflexivity|].
  cbn [Grid.sanitize Grid.idSafe String.length].
  destruct (sanitize_char a) as [S1 S2]. cbv zeta in S1, S2.
  rewrite S1, S2, A, B, C.
  repeat split.
  - intros H. injection H as Ha Hn. apply D in Hn. rewrite Hn, andb_true_r.
    destruct (isLetterOrDigit a); [reflexivity|]. subst a. reflexivity.
  - intros H. apply andb_true_iff in H as [Ha Hn]. apply D in Hn. rewrite Hn.
    f_equal. destruct (isLetterOrDigit a); [reflexivity|].
    cbn in Ha. apply Ascii.eqb_eq in Ha. congruence.
Qed.

(** X21.  The timeline that [populateGrid] selects is the one the card
    drives.  In the fixed file [timelineType] is "loop" exactly when the
    constructed card is looping.  In the Hexagons file, for an entry
    without [animationType] or with "continuous", it is "loop" exactly when
    [parseAnimationProps] assigns the kind loop. *)
Theorem grid_timeline_matches_card_kind (animationData : AnimationData) :
  (forall w elements c,
     Fixed.LottieCard w elements animationData = Normal c ->
     (Grid.timelineType animationData = "loop" <-> isLooping c = true)) /\
  (noOverride animationData \/
   cfg_animationType animationData = Some "continuous" ->
     (Grid.hexagonsTimelineType animationData = "loop" <->
      parsed_animationType (parseAnimationProps animationData) = "loop")).
Proof.
  split.
  - intros w elements c H. injection H as <-.
    unfold Grid.timelineType, isLooping, Fixed.parseAnimationProps. cbn.
    destruct (cfg_animationType animationData) as [kind|]; [|split; discriminate].
    destruct (String.eqb kind "") eqn:E0.
    + apply String.eqb_eq in E0. subst kind. cbn. split; discriminate.
    + destruct (String.eqb kind "loop") eqn:E1.
      * destruct (loopFrames animationData) as [[a b]|]; cbn; rewrite E1;
          split; reflexivity.
      * cbn. rewrite E1. split; discriminate.
  - intros H. unfold Grid.hexagonsTimelineType, parseAnimationProps.
    destruct H as [[-> | ->] | ->]; cbn; try (split; discriminate);
      (destruct (includes "loop" (toLowerCase (fileName animationData)));
       cbn; [split; reflexivity|];
       destruct (includes "freeze" (toLowerCase (fileName animationData)));
       cbn; split; discriminate).
Qed.

Lemma grid_timeline_matches_card_kind_witness :
  Fixed.LottieCard freshWrapper freshTimeline shapesSuckIn
  = Normal (fixedCard shapesSuckIn) /\
  Grid.timelineType shapesSuckIn = "loop" /\
  isLooping (fixedCard shapesSuckIn) = true /\
  noOverride suckInLoop /\
  Grid.hexagonsTimelineType suckInLoop = "loop" /\
  parsed_animationType (parseAnimationProps suckInLoop) = "loop".
Proof.
  destruct (grid_timeline_matches_card_kind shapesSuckIn) as [F _].
  destruct (grid_timeline_matches_card_kind suckInLoop) as [_ H].
  assert (O : noOverride suckInLoop) by (left; reflexivity).
  split; [reflexivity|]. split; [reflexivity|].
  split; [apply (F freshWrapper freshTimeline _ eq_refl); reflexivity|].
  split; [exact O|]. split; [reflexivity|].
  apply (H (or_introl O)). reflexivity.
Defined.
End FileNames.
